(** * crawler-server: a shallow embedding of [crawler_server/app.py]

    The service receives batches of crawled pages, pseudonymises the
    contributor's identifier, and stores the gzipped JSON of the batch in an
    object store under a key built from the date, the pseudonym, the second
    of the day and a random suffix.  Read handlers list and fetch what was
    stored, and one handler returns the batch kept in the module-level
    variable [last_batch].

    Conventions of the embedding:
    - a Python [str] is the list of its code points, a [bytes] object the
      list of its byte values, both over [Z];
    - Python [int] is [Z];
    - a handler is a function from the process state to an outcome and a new
      process state; an outcome is a returned value or a raised exception;
    - what a handler reads from its surroundings (clock, random source,
      whether the object store accepts the write) is a record [env] passed
      to it. *)

From Stdlib Require Import ZArith QArith List String Ascii Lia Bool Sorted Permutation.
From stdpp Require Import gmap list.
Import ListNotations.
Local Open Scope Z_scope.

(** ** Python strings and bytes *)

Module Py.

(** [str]: sequence of code points. [bytes]: sequence of values in 0..255. *)
Definition str := list Z.
Definition bytes := list Z.

(** A string literal of the source, as code points (all literals of the
    program are ASCII). *)
Definition lit (s : string) : str :=
  List.map (fun a => Z.of_N (N_of_ascii a)) (list_ascii_of_string s).

Definition is_code_point (c : Z) : bool := (0 <=? c) && (c <=? 1114111).
Definition is_surrogate (c : Z) : bool := (55296 <=? c) && (c <=? 57343).
Definition is_byte (b : Z) : bool := (0 <=? b) && (b <=? 255).

(** [len(s)] *)
Definition len {A} (s : list A) : Z := Z.of_nat (List.length s).

Fixpoint str_eqb (a b : str) : bool :=
  match a, b with
  | [], [] => true
  | x :: a', y :: b' => (x =? y) && str_eqb a' b'
  | _, _ => false
  end.

(** [s.startswith(p)] *)
Fixpoint startswith (s p : str) {struct p} : bool :=
  match p, s with
  | [], _ => true
  | c :: p', d :: s' => (c =? d) && startswith s' p'
  | _ :: _, [] => false
  end.

(** [s.endswith(suffix)] *)
Definition endswith (s suffix : str) : bool :=
  startswith (rev s) (rev suffix).

(** [s[:n]] for [0 <= n], and [s[n:]] for [0 <= n] *)
Definition slice_to (s : str) (n : Z) : str := firstn (Z.to_nat n) s.
Definition slice_from (s : str) (n : Z) : str := skipn (Z.to_nat n) s.

(** [s[:-n]] for [0 < n]: a negative stop counts from the end and is
    clipped at the start of the string. *)
Definition slice_to_neg (s : str) (n : Z) : str :=
  firstn (List.length s - Z.to_nat n) s.

(** [s.rsplit(sep, 1)] for a one-character separator: splits at the last
    occurrence of [sep]; a string without [sep] gives a one-element list. *)
Fixpoint rsplit1 (sep : Z) (s : str) : list str :=
  match s with
  | [] => [[]]
  | c :: s' =>
      match rsplit1 sep s' with
      | [tl] => if c =? sep then [[]; tl] else [c :: tl]
      | hd :: rest => (c :: hd) :: rest
      | [] => []
      end
  end.

(** [s.strip(chars)] for a one-character set *)
Fixpoint lstrip1 (ch : Z) (s : str) : str :=
  match s with
  | c :: s' => if c =? ch then lstrip1 ch s' else s
  | [] => []
  end.
Definition strip1 (ch : Z) (s : str) : str :=
  rev (lstrip1 ch (rev (lstrip1 ch s))).

(** [s.zfill(width)] for a string without a sign: pads with '0' on the left
    up to [width]; a longer string is returned as it is. *)
Definition zfill (width : Z) (s : str) : str :=
  repeat 48 (Z.to_nat width - List.length s) ++ s.

(** Decimal and hexadecimal digits of a non-negative integer, most
    significant first, as [str(n)] and ['%x' % n] produce them. *)
Definition digit_char (d : Z) : Z := if d <? 10 then 48 + d else 87 + d.

Fixpoint digits_from (fuel : nat) (base n : Z) (acc : str) : str :=
  match fuel with
  | O => acc
  | S fuel' =>
      let acc' := digit_char (n mod base) :: acc in
      if n <? base then acc' else digits_from fuel' base (n / base) acc'
  end.

Definition digits (base n : Z) : str :=
  digits_from (S (Z.to_nat (Z.log2 n))) base n [].

(** The [w] digits of [n] in base [base], most significant first: the
    fixed-width field that a zero-padded number is meant to be. *)
Fixpoint fixed_digits (base : Z) (w : nat) (n : Z) : str :=
  match w with
  | O => []
  | S w' => fixed_digits base w' (n / base) ++ [digit_char (n mod base)]
  end.

Definition is_digit (c : Z) : bool := (48 <=? c) && (c <=? 57).
Definition is_lower_hex (c : Z) : bool :=
  is_digit c || ((97 <=? c) && (c <=? 102)).
Definition is_ascii (c : Z) : bool := (0 <=? c) && (c <=? 127).

(** [str(n)] *)
Definition str_of_int (n : Z) : str :=
  if n <? 0 then 45 :: digits 10 (- n) else digits 10 n.

(** ['%0{w}d' % n] and ['%0{w}x' % n] for [0 <= n] *)
Definition fmt_0d (w n : Z) : str := zfill w (digits 10 n).
Definition fmt_0x (w n : Z) : str := zfill w (digits 16 n).

(** [s.encode('utf8')]: [None] stands for [UnicodeEncodeError], raised on
    a surrogate code point. *)
Definition utf8_char (c : Z) : option bytes :=
  if c <? 128 then Some [c]
  else if c <? 2048 then
    Some [Z.lor 192 (Z.shiftr c 6); Z.lor 128 (Z.land c 63)]
  else if is_surrogate c then None
  else if c <? 65536 then
    Some [Z.lor 224 (Z.shiftr c 12);
          Z.lor 128 (Z.land (Z.shiftr c 6) 63);
          Z.lor 128 (Z.land c 63)]
  else
    Some [Z.lor 240 (Z.shiftr c 18);
          Z.lor 128 (Z.land (Z.shiftr c 12) 63);
          Z.lor 128 (Z.land (Z.shiftr c 6) 63);
          Z.lor 128 (Z.land c 63)].

Fixpoint encode_utf8 (s : str) : option bytes :=
  match s with
  | [] => Some []
  | c :: s' =>
      match utf8_char c, encode_utf8 s' with
      | Some b, Some bs => Some (b ++ bs)
      | _, _ => None
      end
  end.

(** [binascii.hexlify]: two lowercase hexadecimal digits per byte. *)
Definition hexlify (b : bytes) : str :=
  flat_map (fun x => [digit_char (x / 16); digit_char (x mod 16)]) b.

(** Comparison of strings, [a < b] and [a <= b]: by code point, a proper
    prefix first. *)
Fixpoint str_ltb (a b : str) : bool :=
  match a, b with
  | _, [] => false
  | [], _ :: _ => true
  | x :: a', y :: b' => (x <? y) || ((x =? y) && str_ltb a' b')
  end.
Definition str_leb (a b : str) : bool := negb (str_ltb b a).

(** [sorted(l)] on strings. The order is total and equal strings cannot be
    told apart, so any sorting algorithm gives the list Python gives;
    insertion is used here. *)
Fixpoint insert_sorted (x : str) (l : list str) : list str :=
  match l with
  | [] => [x]
  | y :: l' => if str_leb x y then x :: l else y :: insert_sorted x l'
  end.
Fixpoint sorted (l : list str) : list str :=
  match l with
  | [] => []
  | x :: l' => insert_sorted x (sorted l')
  end.

End Py.
Import Py.

(** ** SHA3-256

    [hashlib.sha3_256] is the function of FIPS 202: the Keccak-f[1600]
    permutation in a sponge of rate 136 bytes, with the domain suffix 0x06
    and a digest of 32 bytes. A lane is a 64-bit integer; the state is the
    list of its 25 lanes, lane (x, y) at index x + 5 y. *)

Module Sha3.

Definition mask64 : Z := 18446744073709551615.

Definition rotl64 (v n : Z) : Z :=
  Z.land (Z.lor (Z.shiftl v n) (Z.shiftr v (64 - n))) mask64.

Definition lane (st : list Z) (x y : Z) : Z :=
  nth (Z.to_nat (x mod 5 + 5 * (y mod 5))) st 0.

Definition round_constants : list Z :=
  [ 0x0000000000000001; 0x0000000000008082; 0x800000000000808A;
    0x8000000080008000; 0x000000000000808B; 0x0000000080000001;
    0x8000000080008081; 0x8000000000008009; 0x000000000000008A;
    0x0000000000000088; 0x0000000080008009; 0x000000008000000A;
    0x000000008000808B; 0x800000000000008B; 0x8000000000008089;
    0x8000000000008003; 0x8000000000008002; 0x8000000000000080;
    0x000000000000800A; 0x800000008000000A; 0x8000000080008081;
    0x8000000000008080; 0x0000000080000001; 0x8000000080008008 ].

(** Rotation offsets of the rho step, indexed like the state. *)
Definition rotation_offsets : list Z :=
  [  0;  1; 62; 28; 27;
    36; 44;  6; 55; 20;
     3; 10; 43; 25; 39;
    41; 45; 15; 21;  8;
    18;  2; 61; 56; 14 ].

Definition coords : list (Z * Z) :=
  flat_map (fun y => List.map (fun x => (x, y)) [0; 1; 2; 3; 4]) [0; 1; 2; 3; 4].

Definition theta (st : list Z) : list Z :=
  let C x := Z.lxor (lane st x 0) (Z.lxor (lane st x 1) (Z.lxor (lane st x 2)
               (Z.lxor (lane st x 3) (lane st x 4)))) in
  let D x := Z.lxor (C (x - 1)) (rotl64 (C (x + 1)) 1) in
  List.map (fun '(x, y) => Z.lxor (lane st x y) (D x)) coords.

(** rho and pi together: the lane that lands at (x, y) comes from
    (x + 3 y, x), rotated by the offset of its origin. *)
Definition rho_pi (st : list Z) : list Z :=
  List.map (fun '(x, y) =>
         let x0 := (x + 3 * y) mod 5 in
         let y0 := x in
         rotl64 (lane st x0 y0) (nth (Z.to_nat (x0 + 5 * y0)) rotation_offsets 0))
      coords.

Definition chi (st : list Z) : list Z :=
  List.map (fun '(x, y) =>
         Z.lxor (lane st x y)
                (Z.land (Z.lxor (lane st (x + 1) y) mask64) (lane st (x + 2) y)))
      coords.

Definition iota (rc : Z) (st : list Z) : list Z :=
  match st with
  | l0 :: rest => Z.lxor l0 rc :: rest
  | [] => []
  end.

Definition keccak_round (st : list Z) (rc : Z) : list Z :=
  iota rc (chi (rho_pi (theta st))).

Definition keccak_f (st : list Z) : list Z :=
  fold_left keccak_round round_constants st.

Definition rate : nat := 136.

(** pad10*1 with the SHA-3 domain bits: 0x06, zeros, and 0x80 or-ed into
    the last byte of the block. *)
Definition pad (msg : bytes) : bytes :=
  let r := (rate - (List.length msg) mod rate)%nat in
  if (r =? 1)%nat then msg ++ [134]
  else msg ++ [6] ++ repeat 0 (r - 2) ++ [128].

(** Little-endian value of the 8 bytes of a block that start at byte 8 i. *)
Definition block_lane (block : bytes) (i : nat) : Z :=
  fold_right (fun b acc => Z.lor b (Z.shiftl acc 8)) 0
             (firstn 8 (skipn (8 * i) block)).

Definition absorb_block (st : list Z) (block : bytes) : list Z :=
  keccak_f (List.map (fun '(i, l) => Z.lxor l (block_lane block i))
                (combine (seq 0 25) st)).

Fixpoint absorb (fuel : nat) (st : list Z) (msg : bytes) : list Z :=
  match fuel, msg with
  | S fuel', _ :: _ => absorb fuel' (absorb_block st (firstn rate msg)) (skipn rate msg)
  | _, _ => st
  end.

Definition squeeze_byte (st : list Z) (i : nat) : Z :=
  Z.land (Z.shiftr (nth (i / 8) st 0) (8 * Z.of_nat (i mod 8))) 255.

Definition sha3_256 (msg : bytes) : bytes :=
  let padded := pad msg in
  let st := absorb (List.length padded) (repeat 0 25%nat) padded in
  List.map (squeeze_byte st) (seq 0 32).

(** [hashlib.sha3_256(data).hexdigest()] *)
Definition hexdigest (msg : bytes) : str := hexlify (sha3_256 msg).

End Sha3.

(** ** Floating point

    A Python [float] that is neither infinite nor NaN is a dyadic rational
    [mantissa * 2 ^ exponent]. The only float the program computes is a
    quotient of two integers, and the only thing done with it is a
    conversion to [int]; both are modelled exactly. Quotients in the
    overflow or subnormal range (beyond 2^1023, below 2^-1022) do not
    arise from the clock and are not distinguished. *)

Module Float.

Record float := mk { mantissa : Z; exponent : Z }.

(** Nearest integer to [a / b], ties to even, for [0 <= a] and [0 < b]. *)
Definition round_half_even (a b : Z) : Z :=
  let q := a / b in
  let r := a mod b in
  if 2 * r <? b then q
  else if b <? 2 * r then q + 1
  else if Z.even q then q else q + 1.

(** [a / b] on integers ([int.__truediv__]) for [0 < b]: the quotient
    correctly rounded to 53 significant bits. *)
Definition int_truediv (a b : Z) : float :=
  if a =? 0 then mk 0 0
  else
    let n := Z.abs a in
    let k := Z.log2 n - Z.log2 b in
    let below := if 0 <=? k then n <? b * 2 ^ k else n * 2 ^ (- k) <? b in
    let e := if below then k - 53 else k - 52 in
    let m := if 0 <=? e then round_half_even n (b * 2 ^ e)
             else round_half_even (n * 2 ^ (- e)) b in
    mk (Z.sgn a * m) e.

(** [int(x)]: truncation towards zero. *)
Definition to_int (x : float) : Z :=
  if 0 <=? exponent x then mantissa x * 2 ^ exponent x
  else Z.quot (mantissa x) (2 ^ (- exponent x)).

(** The rational a float denotes. *)
Definition value (x : float) : Q :=
  if 0 <=? exponent x then inject_Z (mantissa x * 2 ^ exponent x)
  else Qmake (mantissa x) (Z.to_pos (2 ^ (- exponent x))).

End Float.

(** ** The [datetime] module: aware datetimes in UTC, and [timedelta] *)

Module Datetime.

Record datetime := mk_datetime {
  year : Z; month : Z; day : Z;
  hour : Z; minute : Z; second : Z; microsecond : Z
}.

Record timedelta := mk_timedelta {
  days : Z; seconds : Z; microseconds : Z
}.

Definition is_leap (y : Z) : bool :=
  (y mod 4 =? 0) && (negb (y mod 100 =? 0) || (y mod 400 =? 0)).

Definition days_in_month (y m : Z) : Z :=
  if (m =? 2) && is_leap y then 29
  else nth (Z.to_nat m) [0; 31; 28; 31; 30; 31; 30; 31; 31; 30; 31; 30; 31] 0.

Definition days_before_year (y : Z) : Z :=
  let y1 := y - 1 in
  y1 * 365 + y1 / 4 - y1 / 100 + y1 / 400.

Definition days_before_month (y m : Z) : Z :=
  nth (Z.to_nat m) [0; 0; 31; 59; 90; 120; 151; 181; 212; 243; 273; 304; 334] 0
  + (if (2 <? m) && is_leap y then 1 else 0).

(** [date.toordinal()]: 1 for 0001-01-01. *)
Definition ymd2ord (y m d : Z) : Z :=
  days_before_year y + days_before_month y m + d.

(** What the constructors of [datetime] accept. *)
Definition valid (t : datetime) : bool :=
  (1 <=? year t) && (year t <=? 9999) &&
  (1 <=? month t) && (month t <=? 12) &&
  (1 <=? day t) && (day t <=? days_in_month (year t) (month t)) &&
  (0 <=? hour t) && (hour t <=? 23) &&
  (0 <=? minute t) && (minute t <=? 59) &&
  (0 <=? second t) && (second t <=? 59) &&
  (0 <=? microsecond t) && (microsecond t <=? 999999).

(** [timedelta(days, seconds, microseconds)]: the constructor normalises
    to [0 <= microseconds < 10^6] and [0 <= seconds < 86400]. *)
Definition new_timedelta (d s us : Z) : timedelta :=
  let s1 := s + us / 1000000 in
  mk_timedelta (d + s1 / 86400) (s1 mod 86400) (us mod 1000000).

(** [a - b] for two datetimes of the same time zone. *)
Definition sub (a b : datetime) : timedelta :=
  let days1 := ymd2ord (year a) (month a) (day a) in
  let days2 := ymd2ord (year b) (month b) (day b) in
  let secs1 := second a + minute a * 60 + hour a * 3600 in
  let secs2 := second b + minute b * 60 + hour b * 3600 in
  new_timedelta (days1 - days2) (secs1 - secs2) (microsecond a - microsecond b).

(** [td.total_seconds()] *)
Definition total_microseconds (td : timedelta) : Z :=
  (days td * 86400 + seconds td) * 1000000 + microseconds td.
Definition total_seconds (td : timedelta) : Float.float :=
  Float.int_truediv (total_microseconds td) 1000000.

(** [str(t.date())]: ['%04d-%02d-%02d' % (year, month, day)] *)
Definition date_str (t : datetime) : str :=
  fmt_0d 4 (year t) ++ lit "-" ++ fmt_0d 2 (month t) ++ lit "-" ++ fmt_0d 2 (day t).

(** [datetime(t.year, t.month, t.day, tzinfo=timezone.utc)] *)
Definition midnight (t : datetime) : datetime :=
  mk_datetime (year t) (month t) (day t) 0 0 0 0.

Definition epoch : datetime := mk_datetime 1970 1 1 0 0 0 0.

End Datetime.

(** ** The [uuid] module *)

Module Uuid.

(** [int.from_bytes(b, 'big')] *)
Definition int_from_bytes (b : bytes) : Z :=
  fold_left (fun acc x => acc * 256 + x) b 0.

(** [uuid4()] is [UUID(bytes=os.urandom(16), version=4)]: the integer of
    the 16 random bytes with the variant and version bits forced. *)
Definition uuid4 (urandom16 : bytes) : Z :=
  let i := int_from_bytes urandom16 in
  let i := Z.land i (Z.lnot (Z.shiftl 0xc000 48)) in
  let i := Z.lor i (Z.shiftl 0x8000 48) in
  let i := Z.land i (Z.lnot (Z.shiftl 0xf000 64)) in
  Z.lor i (Z.shiftl 4 76).

(** [str(u)] *)
Definition to_str (u : Z) : str :=
  let hex := fmt_0x 32 u in
  slice_to hex 8 ++ lit "-" ++ slice_to (slice_from hex 8) 4 ++ lit "-"
  ++ slice_to (slice_from hex 12) 4 ++ lit "-"
  ++ slice_to (slice_from hex 16) 4 ++ lit "-" ++ slice_from hex 20.

End Uuid.

(** ** JSON values and [json.dumps]

    The values the program serialises hold integers, strings, lists and
    dictionaries; a dictionary is the list of its entries in insertion
    order. Numbers with a fraction or an exponent are not part of this
    type: the program never builds one. *)

Module Json.

#[local] Set Warnings "-register-all".

Inductive json :=
| JNull
| JBool (b : bool)
| JInt (n : Z)
| JStr (s : str)
| JList (l : list json)
| JObj (l : list (str * json)).

(** One character of a string under [ensure_ascii=True]. *)
Definition escape_char (c : Z) : str :=
  if c =? 34 then lit "\"  ++ [34]
  else if c =? 92 then lit "\\"
  else if c =? 8 then lit "\b"
  else if c =? 12 then lit "\f"
  else if c =? 10 then lit "\n"
  else if c =? 13 then lit "\r"
  else if c =? 9 then lit "\t"
  else if (32 <=? c) && (c <=? 126) then [c]
  else if c <? 65536 then lit "\u" ++ fmt_0x 4 c
  else
    let n := c - 65536 in
    let s1 := Z.lor 55296 (Z.land (Z.shiftr n 10) 1023) in
    let s2 := Z.lor 56320 (Z.land n 1023) in
    lit "\u" ++ fmt_0x 4 s1 ++ lit "\u" ++ fmt_0x 4 s2.

Definition dumps_str (s : str) : str :=
  [34] ++ flat_map escape_char s ++ [34].

(** [json.dumps(v)] with the default separators [', '] and [': ']. *)
Fixpoint dumps (v : json) : str :=
  match v with
  | JNull => lit "null"
  | JBool true => lit "true"
  | JBool false => lit "false"
  | JInt n => str_of_int n
  | JStr s => dumps_str s
  | JList l =>
      lit "[" ++
      (fix items (l : list json) : str :=
         match l with
         | [] => []
         | x :: l' =>
             dumps x ++ match l' with [] => [] | _ :: _ => lit ", " ++ items l' end
         end) l
      ++ lit "]"
  | JObj l =>
      lit "{" ++
      (fix entries (l : list (str * json)) : str :=
         match l with
         | [] => []
         | (k, x) :: l' =>
             dumps_str k ++ lit ": " ++ dumps x
             ++ match l' with [] => [] | _ :: _ => lit ", " ++ entries l' end
         end) l
      ++ lit "}"
  end.

(** [d[key]] on a dictionary; [None] for a missing key or another value. *)
Fixpoint assoc (key : str) (l : list (str * json)) : option json :=
  match l with
  | [] => None
  | (k, x) :: l' => if str_eqb k key then Some x else assoc key l'
  end.
Definition get (key : str) (v : json) : option json :=
  match v with
  | JObj l => assoc key l
  | _ => None
  end.

End Json.

(** ** The [re] module, as far as [DATE_REGEX] needs it

    The pattern is a sequence of single-character classes with fixed
    counts, so matching consumes the string from the left without
    backtracking. *)

Module Re.

(** Code points of the Unicode category Nd (decimal digit), which [\d]
    matches in a [str] pattern: first and last code point of each range
    (Unicode 14). *)
Definition decimal_digit_ranges : list (Z * Z) :=
  [ (48, 57); (1632, 1641); (1776, 1785); (1984, 1993); (2406, 2415);
    (2534, 2543); (2662, 2671); (2790, 2799); (2918, 2927); (3046, 3055);
    (3174, 3183); (3302, 3311); (3430, 3439); (3558, 3567); (3664, 3673);
    (3792, 3801); (3872, 3881); (4160, 4169); (4240, 4249); (6112, 6121);
    (6160, 6169); (6470, 6479); (6608, 6617); (6784, 6793); (6800, 6809);
    (6992, 7001); (7088, 7097); (7232, 7241); (7248, 7257); (42528, 42537);
    (43216, 43225); (43264, 43273); (43472, 43481); (43504, 43513);
    (43600, 43609); (44016, 44025); (65296, 65305); (66720, 66729);
    (68912, 68921); (69734, 69743); (69872, 69881); (69942, 69951);
    (70096, 70105); (70384, 70393); (70736, 70745); (70864, 70873);
    (71248, 71257); (71360, 71369); (71472, 71481); (71904, 71913);
    (72016, 72025); (72784, 72793); (73040, 73049); (73120, 73129);
    (92768, 92777); (92864, 92873); (93008, 93017); (120782, 120831);
    (123200, 123209); (123632, 123641); (125264, 125273); (130032, 130041) ].

Definition is_decimal_digit (c : Z) : bool :=
  existsb (fun '(lo, hi) => (lo <=? c) && (c <=? hi)) decimal_digit_ranges.

Inductive regex :=
| Digit                         (* \d *)
| Chr (c : Z)                   (* a literal character *)
| Rep (n : nat) (r : regex)     (* r{n} *)
| Seq (r1 r2 : regex).          (* r1 r2 *)

(** What is left of [s] after a match of [r] at its start. *)
Fixpoint consume (r : regex) (s : str) : option str :=
  match r with
  | Digit =>
      match s with
      | c :: s' => if is_decimal_digit c then Some s' else None
      | [] => None
      end
  | Chr c =>
      match s with
      | d :: s' => if d =? c then Some s' else None
      | [] => None
      end
  | Rep n r' =>
      (fix times (n : nat) (s : str) : option str :=
         match n with
         | O => Some s
         | S n' =>
             match consume r' s with
             | Some s' => times n' s'
             | None => None
             end
         end) n s
  | Seq r1 r2 =>
      match consume r1 s with
      | Some s' => consume r2 s'
      | None => None
      end
  end.

(** [pattern.match(s)]: a match that starts at the beginning of [s] and may
    end anywhere. The result is used as a truth value only. *)
Definition match_ (r : regex) (s : str) : bool :=
  match consume r s with Some _ => true | None => false end.

(** [pattern.fullmatch(s)]: a match of the whole of [s]. *)
Definition fullmatch (r : regex) (s : str) : bool :=
  match consume r s with Some [] => true | _ => false end.

End Re.


(** ** Reference implementations of the library functions the program
    leaves to [gzip] and [json]

    The application below is parameterised by [gzip.compress],
    [gzip.decompress] and [json.loads]. The functions of this module
    instantiate those parameters in the examples: a gzip writer that emits
    stored (uncompressed) deflate blocks, the matching reader, and a JSON
    reader for integers, strings, lists, dictionaries, booleans and null. *)

Module Reference.

(** Little-endian bytes of an unsigned integer, and back. *)
Fixpoint le_bytes (n : nat) (v : Z) : bytes :=
  match n with
  | O => []
  | S n' => Z.land v 255 :: le_bytes n' (Z.shiftr v 8)
  end.

Fixpoint le_value (b : bytes) : Z :=
  match b with
  | [] => 0
  | x :: b' => x + 256 * le_value b'
  end.

(** CRC-32 of RFC 1952. *)
Fixpoint crc_bits (n : nat) (crc : Z) : Z :=
  match n with
  | O => crc
  | S n' =>
      crc_bits n' (if Z.odd crc then Z.lxor (Z.shiftr crc 1) 0xEDB88320
                   else Z.shiftr crc 1)
  end.

Definition crc32 (data : bytes) : Z :=
  Z.lxor (fold_left (fun crc b => crc_bits 8 (Z.lxor crc b)) data 0xFFFFFFFF)
         0xFFFFFFFF.

(** The deflate stream of [data] as stored blocks of at most 65535 bytes. *)
Fixpoint stored_blocks (fuel : nat) (data : bytes) : bytes :=
  match fuel with
  | O => []
  | S fuel' =>
      let chunk := firstn (Z.to_nat 65535) data in
      let rest := skipn (Z.to_nat 65535) data in
      let n := Z.of_nat (List.length chunk) in
      let final := match rest with [] => 1 | _ :: _ => 0 end in
      [final] ++ le_bytes 2 n ++ le_bytes 2 (Z.lxor n 65535) ++ chunk
      ++ match rest with [] => [] | _ :: _ => stored_blocks fuel' rest end
  end.

Definition gzip_compress (mtime : Z) (data : bytes) : bytes :=
  [31; 139; 8; 0] ++ le_bytes 4 mtime ++ [0; 255]
  ++ stored_blocks (S (List.length data)) data
  ++ le_bytes 4 (crc32 data) ++ le_bytes 4 (Z.of_nat (List.length data)).

Fixpoint read_stored (fuel : nat) (s : bytes) (acc : bytes) : option (bytes * bytes) :=
  match fuel, s with
  | S fuel', hd :: l0 :: l1 :: n0 :: n1 :: s' =>
      let n := le_value [l0; l1] in
      if negb (Z.land hd 6 =? 0) then None
      else if negb (Z.lxor n 65535 =? le_value [n0; n1]) then None
      else if (List.length s' <? Z.to_nat n)%nat then None
      else
        let acc' := acc ++ firstn (Z.to_nat n) s' in
        let rest := skipn (Z.to_nat n) s' in
        if Z.odd hd then Some (acc', rest) else read_stored fuel' rest acc'
  | _, _ => None
  end.

Definition gzip_decompress (s : bytes) : option bytes :=
  match s with
  | 31 :: 139 :: 8 :: 0 :: _ :: _ :: _ :: _ :: _ :: _ :: body =>
      match read_stored (List.length body) body [] with
      | Some (data, trailer) =>
          if (List.length trailer =? 8)%nat
             && (le_value (firstn 4 trailer) =? crc32 data)
             && (le_value (skipn 4 trailer) =? Z.of_nat (List.length data) mod 2 ^ 32)
          then Some data else None
      | None => None
      end
  | _ => None
  end.

(** Strict UTF-8 decoding. *)
Definition continuation (b : Z) : bool := (128 <=? b) && (b <=? 191).

Fixpoint decode_utf8 (fuel : nat) (s : bytes) : option str :=
  match fuel with
  | O => match s with [] => Some [] | _ :: _ => None end
  | S fuel' =>
      match s with
      | [] => Some []
      | b0 :: s1 =>
          let cons c rest :=
            match decode_utf8 fuel' rest with
            | Some t => Some (c :: t)
            | None => None
            end in
          if (0 <=? b0) && (b0 <? 128) then cons b0 s1
          else match s1 with
          | b1 :: s2 =>
              if negb (continuation b1) then None
              else if (194 <=? b0) && (b0 <=? 223)
              then cons ((b0 - 192) * 64 + (b1 - 128)) s2
              else match s2 with
              | b2 :: s3 =>
                  if negb (continuation b2) then None
                  else if (224 <=? b0) && (b0 <=? 239) then
                    let c := (b0 - 224) * 4096 + (b1 - 128) * 64 + (b2 - 128) in
                    if (c <? 2048) || is_surrogate c then None else cons c s3
                  else match s3 with
                  | b3 :: s4 =>
                      if negb (continuation b3) then None
                      else if (240 <=? b0) && (b0 <=? 244) then
                        let c := (b0 - 240) * 262144 + (b1 - 128) * 4096
                                 + (b2 - 128) * 64 + (b3 - 128) in
                        if (c <? 65536) || (1114111 <? c) then None else cons c s4
                      else None
                  | [] => None
                  end
              | [] => None
              end
          | [] => None
          end
      end
  end.

Definition hex_value (c : Z) : option Z :=
  if (48 <=? c) && (c <=? 57) then Some (c - 48)
  else if (97 <=? c) && (c <=? 102) then Some (c - 87)
  else if (65 <=? c) && (c <=? 70) then Some (c - 55)
  else None.

(** The four hexadecimal digits after [\u]. *)
Definition hex4 (s : str) : option (Z * str) :=
  match s with
  | a :: b :: c :: d :: r =>
      match hex_value a, hex_value b, hex_value c, hex_value d with
      | Some a, Some b, Some c, Some d => Some (((a * 16 + b) * 16 + c) * 16 + d, r)
      | _, _, _, _ => None
      end
  | _ => None
  end.

(** The rest of a string after its opening quote. An escaped high
    surrogate followed by an escaped low surrogate is one character. *)
Fixpoint read_string (fuel : nat) (s : str) (acc : str) : option (str * str) :=
  match fuel with
  | O => None
  | S fuel' =>
      match s with
      | [] => None
      | c :: r =>
          if c =? 34 then Some (rev acc, r)
          else if c <? 32 then None
          else if negb (c =? 92) then read_string fuel' r (c :: acc)
          else match r with
          | [] => None
          | e :: r1 =>
              if e =? 117 then
                match hex4 r1 with
                | None => None
                | Some (u, r2) =>
                    let single := read_string fuel' r2 (u :: acc) in
                    if (55296 <=? u) && (u <=? 56319) then
                      match r2 with
                      | 92 :: 117 :: r3 =>
                          match hex4 r3 with
                          | Some (v, r4) =>
                              if (56320 <=? v) && (v <=? 57343)
                              then read_string fuel' r4
                                     (65536 + (u - 55296) * 1024 + (v - 56320) :: acc)
                              else single
                          | None => single
                          end
                      | _ => single
                      end
                    else single
                end
              else
                let plain x := read_string fuel' r1 (x :: acc) in
                if e =? 34 then plain 34
                else if e =? 92 then plain 92
                else if e =? 47 then plain 47
                else if e =? 98 then plain 8
                else if e =? 102 then plain 12
                else if e =? 110 then plain 10
                else if e =? 114 then plain 13
                else if e =? 116 then plain 9
                else None
          end
      end
  end.

Fixpoint skip_ws (s : str) : str :=
  match s with
  | c :: r => if (c =? 32) || (c =? 9) || (c =? 10) || (c =? 13) then skip_ws r else s
  | [] => []
  end.

Fixpoint read_digits (s : str) (acc : Z) : Z * str :=
  match s with
  | c :: r => if is_digit c then read_digits r (acc * 10 + (c - 48)) else (acc, s)
  | [] => (acc, [])
  end.

(** An integer; a number that goes on with a fraction or an exponent is
    outside the values modelled. *)
Definition read_int (s : str) : option (Z * str) :=
  let '(neg, s1) := match s with
                    | 45 :: r => (true, r)
                    | _ => (false, s)
                    end in
  match s1 with
  | c :: r =>
      if negb (is_digit c) then None
      else
        let '(n, rest) := if c =? 48 then (0, r) else read_digits s1 0 in
        match rest with
        | d :: _ =>
            if (d =? 46) || (d =? 101) || (d =? 69) then None
            else Some (if neg then - n else n, rest)
        | [] => Some (if neg then - n else n, rest)
        end
  | [] => None
  end.

(** Setting a key of a dictionary: a key already present keeps its place. *)
Fixpoint dict_set (k : str) (v : Json.json) (d : list (str * Json.json)) :=
  match d with
  | [] => [(k, v)]
  | (k', v') :: d' =>
      if str_eqb k' k then (k', v) :: d' else (k', v') :: dict_set k v d'
  end.

Fixpoint read_value (fuel : nat) (s : str) : option (Json.json * str) :=
  match fuel with
  | O => None
  | S fuel' =>
      let s := skip_ws s in
      if startswith s (lit "null") then Some (Json.JNull, skipn 4 s)
      else if startswith s (lit "true") then Some (Json.JBool true, skipn 4 s)
      else if startswith s (lit "false") then Some (Json.JBool false, skipn 5 s)
      else match s with
      | [] => None
      | c :: r =>
          if c =? 34 then
            match read_string (S (List.length r)) r [] with
            | Some (t, r') => Some (Json.JStr t, r')
            | None => None
            end
          else if c =? 91 then
            match skip_ws r with
            | 93 :: r' => Some (Json.JList [], r')
            | _ =>
                (fix elements (k : nat) (s : str) (acc : list Json.json) :=
                   match k with
                   | O => None
                   | S k' =>
                       match read_value fuel' s with
                       | None => None
                       | Some (v, r1) =>
                           match skip_ws r1 with
                           | d :: r2 =>
                               if d =? 44 then elements k' r2 (v :: acc)
                               else if d =? 93 then Some (Json.JList (rev (v :: acc)), r2)
                               else None
                           | [] => None
                           end
                       end
                   end) (List.length r) r []
            end
          else if c =? 123 then
            match skip_ws r with
            | 125 :: r' => Some (Json.JObj [], r')
            | _ =>
                (fix entries (k : nat) (s : str) (acc : list (str * Json.json)) :=
                   match k with
                   | O => None
                   | S k' =>
                       match skip_ws s with
                       | 34 :: s1 =>
                           match read_string (S (List.length s1)) s1 [] with
                           | None => None
                           | Some (key, s2) =>
                               match skip_ws s2 with
                               | 58 :: s3 =>
                                   match read_value fuel' s3 with
                                   | None => None
                                   | Some (v, r1) =>
                                       let acc' := dict_set key v acc in
                                       match skip_ws r1 with
                                       | d :: r2 =>
                                           if d =? 44 then entries k' r2 acc'
                                           else if d =? 125 then Some (Json.JObj acc', r2)
                                           else None
                                       | [] => None
                                       end
                                   end
                               | _ => None
                               end
                           end
                       | _ => None
                       end
                   end) (List.length r) r []
            end
          else
            match read_int s with
            | Some (n, r') => Some (Json.JInt n, r')
            | None => None
            end
      end
  end.

(** [json.loads] on bytes: decode, read one value, allow blanks after it. *)
Definition json_loads (b : bytes) : option Json.json :=
  match decode_utf8 (List.length b) b with
  | None => None
  | Some s =>
      match read_value (S (List.length s)) s with
      | Some (v, rest) => match skip_ws rest with [] => Some v | _ :: _ => None end
      | None => None
      end
  end.

End Reference.
(** ** The application *)

Import Json Datetime.

(** *** Models ([pydantic.BaseModel]) *)

Record Item := mk_Item {
  timestamp : Z;
  source : str;
  url : str;
  title : str;
  extract : str;
  links : list str
}.

Record Batch := mk_Batch {
  user_id : str;
  items : list Item
}.

(** The field [timestamp] of [HashedBatch] is declared [int], like the one
    of [Item]; it is named [hb_timestamp] here, and [items] is [hb_items],
    because two records cannot share a field name. *)
Record HashedBatch := mk_HashedBatch {
  user_id_hash : str;
  hb_timestamp : Z;
  hb_items : list Item
}.

(** [HashedBatch(user_id_hash=h, timestamp=t, items=l)] with a float [t]:
    pydantic 1.x (the version whose [.json()] the program calls) validates
    a field declared [int] by applying [int] to the value given. *)
Definition new_HashedBatch (h : str) (t : Float.float) (l : list Item) : HashedBatch :=
  mk_HashedBatch h (Float.to_int t) l.

(** [model.dict()], fields in declaration order. *)
Definition Item_dict (i : Item) : json :=
  JObj [ (lit "timestamp", JInt (timestamp i));
         (lit "source", JStr (source i));
         (lit "url", JStr (url i));
         (lit "title", JStr (title i));
         (lit "extract", JStr (extract i));
         (lit "links", JList (List.map JStr (links i))) ].

Definition HashedBatch_dict (b : HashedBatch) : json :=
  JObj [ (lit "user_id_hash", JStr (user_id_hash b));
         (lit "timestamp", JInt (hb_timestamp b));
         (lit "items", JList (List.map Item_dict (hb_items b))) ].

(** [model.json()] *)
Definition HashedBatch_json (b : HashedBatch) : str :=
  dumps (HashedBatch_dict b).

(** *** Constants *)

Definition MAX_BATCH_SIZE : Z := 100.
Definition USER_ID_LENGTH : Z := 36.
Definition PUBLIC_USER_ID_LENGTH : Z := 64.
Definition VERSION : str := lit "v1".
Definition FILE_NAME_SUFFIX : str := lit ".json.gz".

Definition DATE_REGEX : Re.regex :=
  Re.Seq (Re.Rep 4 Re.Digit)
    (Re.Seq (Re.Chr 45)
       (Re.Seq (Re.Rep 2 Re.Digit)
          (Re.Seq (Re.Chr 45) (Re.Rep 2 Re.Digit)))).

(** *** Exceptions, outcomes and handlers *)

Inductive exn :=
| HTTPException (status_code : Z) (detail : str)
| UnicodeEncodeError
| AssertionError
| IndexError
| KeyError
| StorageError          (* raised by the object-store client *)
| GzipError             (* raised by [gzip.decompress] *)
| JSONDecodeError.

Inductive outcome (A : Type) :=
| Returns (a : A)
| Raises (e : exn).
Arguments Returns {A} a.
Arguments Raises {A} e.

(** The status of the HTTP response: the framework answers an
    [HTTPException] with its status code and any other exception with 500. *)
Definition response_status {A} (o : outcome A) : Z :=
  match o with
  | Returns _ => 200
  | Raises (HTTPException c _) => c
  | Raises _ => 500
  end.

(** The state a request can see: the module variable [last_batch] and the
    contents of the bucket. *)
Record state := mk_state {
  last_batch : option HashedBatch;
  bucket : gmap str bytes
}.

(** What one request takes from its surroundings. *)
Record env := mk_env {
  now : datetime;           (* datetime.now(timezone.utc) *)
  urandom16 : bytes;        (* the 16 bytes uuid4() draws *)
  gzip_mtime : Z;           (* the time gzip.compress stamps into its header *)
  put_accepted : bool       (* whether the store completes the PUT *)
}.

Definition valid_env (e : env) : bool :=
  Datetime.valid (now e) &&
  (List.length (urandom16 e) =? 16)%nat && forallb is_byte (urandom16 e).

Definition M (A : Type) : Type := state -> outcome A * state.

Definition ret {A} (a : A) : M A := fun st => (Returns a, st).
Definition raise {A} (e : exn) : M A := fun st => (Raises e, st).
Definition bind {A B} (c : M A) (k : A -> M B) : M B :=
  fun st =>
    match c st with
    | (Returns a, st') => k a st'
    | (Raises e, st') => (Raises e, st')
    end.
Definition lift {A} (o : outcome A) : M A := fun st => (o, st).

Notation "x <- c ;; k" := (bind c (fun x => k))
  (at level 100, c at next level, right associativity).
Notation "c ;; k" := (bind c (fun _ => k))
  (at level 100, right associativity).

Fixpoint map_outcome {A B} (f : A -> outcome B) (l : list A) : outcome (list B) :=
  match l with
  | [] => Returns []
  | x :: l' =>
      match f x with
      | Raises e => Raises e
      | Returns y =>
          match map_outcome f l' with
          | Raises e => Raises e
          | Returns ys => Returns (y :: ys)
          end
      end
  end.

(** [s.encode('utf8')] as an outcome. *)
Definition encode (s : str) : outcome bytes :=
  match encode_utf8 s with
  | Some b => Returns b
  | None => Raises UnicodeEncodeError
  end.

(** The keys of the bucket in the order in which the store lists them. *)
Definition keys (b : gmap str bytes) : list str :=
  sorted (List.map fst (map_to_list b)).

(** A URL path that names an object by itself: unreserved characters and
    slashes only, and no dot segment, so that neither the client nor the
    server rewrites it. *)
Definition unreserved (c : Z) : bool :=
  ((48 <=? c) && (c <=? 57)) || ((65 <=? c) && (c <=? 90))
  || ((97 <=? c) && (c <=? 122))
  || (c =? 45) || (c =? 46) || (c =? 95) || (c =? 126) || (c =? 47).

Fixpoint segments (s : str) (cur : str) : list str :=
  match s with
  | [] => [rev cur]
  | c :: s' => if c =? 47 then rev cur :: segments s' [] else segments s' (c :: cur)
  end.

Definition plain_path (p : str) : bool :=
  forallb unreserved p
  && forallb (fun seg => negb (str_eqb seg (lit ".") || str_eqb seg (lit "..")))
             (segments p []).

Section App.

(** The environment variable [BUCKET]; the three other variables only
    configure the connection to the store. *)
Variable BUCKET_NAME : str.

(** [gzip.compress] (given the time it stamps) and [gzip.decompress];
    [None] stands for the exception raised on data that is not gzip. *)
Variable gzip_compress : Z -> bytes -> bytes.
Variable gzip_decompress : bytes -> option bytes.

(** [json.loads]; [None] stands for the exception raised on a text that is
    not JSON. *)
Variable json_loads : bytes -> option json.

(** What the public file server answers for a URL that names no object of
    the bucket. *)
Variable server_reply : str -> bytes.

Definition PUBLIC_URL_PREFIX : str :=
  lit "https://f004.backblazeb2.com/file/" ++ BUCKET_NAME ++ lit "/".

(** [upload(data, name)]: one PUT. A PUT that raises is taken to have
    stored nothing. *)
Definition upload (e : env) (data : bytes) (name : str) : M unit :=
  fun st =>
    if put_accepted e
    then (Returns tt, mk_state (last_batch st) (<[name := data]> (bucket st)))
    else (Raises StorageError, st).

(** [bucket.objects.filter(Prefix=prefix)], keys only. *)
Definition objects_filter (prefix : str) : M (list str) :=
  fun st => (Returns (List.filter (fun k => startswith k prefix) (keys (bucket st))), st).

(** [requests.get(url).content]: the bucket is served under
    [PUBLIC_URL_PREFIX]. *)
Definition requests_get_content (url : str) : M bytes :=
  fun st =>
    let path := skipn (List.length PUBLIC_URL_PREFIX) url in
    let found :=
      if startswith url PUBLIC_URL_PREFIX && plain_path path
      then bucket st !! path else None in
    (Returns (match found with Some data => data | None => server_reply url end), st).

(** [global last_batch; last_batch = b] *)
Definition set_last_batch (b : HashedBatch) : M unit :=
  fun st => (Returns tt, mk_state (Some b) (bucket st)).

(** The object key [create_batch] builds. *)
Definition batch_filename (e : env) (user_id_hash : str) : str :=
  let now := now e in
  let seconds := seconds (sub now (midnight now)) in
  let padded_seconds := zfill 5 (str_of_int seconds) in
  let uid := slice_to (Uuid.to_str (Uuid.uuid4 (urandom16 e))) 8 in
  lit "1/" ++ VERSION ++ lit "/" ++ date_str now ++ lit "/1/" ++ user_id_hash
  ++ lit "/" ++ padded_seconds ++ lit "__" ++ uid ++ lit ".json.gz".

(** The [HashedBatch] [create_batch] builds. *)
Definition batch_hashed (e : env) (user_id_hash : str) (batch : Batch) : HashedBatch :=
  let epoch_time := total_seconds (sub (now e) epoch) in
  new_HashedBatch user_id_hash epoch_time (items batch).

(** [POST /batches/]. The calls to [print] write to the standard output,
    which is not part of the state. *)
Definition create_batch (e : env) (batch : Batch) : M json :=
  if MAX_BATCH_SIZE <? len (items batch) then
    raise (HTTPException 400
             (lit "Batch size too large (maximum " ++ str_of_int MAX_BATCH_SIZE
              ++ lit "), got " ++ str_of_int (len (items batch))))
  else if negb (len (user_id batch) =? USER_ID_LENGTH) then
    raise (HTTPException 400
             (lit "User ID length is incorrect, should be "
              ++ str_of_int USER_ID_LENGTH ++ lit " characters"))
  else
    id_bytes <- lift (encode (user_id batch)) ;;
    let id_hash := Sha3.hexdigest id_bytes in
    let user_id_hash := id_hash in
    let filename := batch_filename e user_id_hash in
    let hashed_batch := batch_hashed e user_id_hash batch in
    text <- lift (encode (HashedBatch_json hashed_batch)) ;;
    let data := gzip_compress (gzip_mtime e) text in
    upload e data filename ;;
    set_last_batch hashed_batch ;;
    ret (JObj [ (lit "status", JStr (lit "ok"));
                (lit "public_user_id", JStr user_id_hash) ]).

Definition check_date_str (date_str : str) : outcome unit :=
  if negb (Re.match_ DATE_REGEX date_str)
  then Raises (HTTPException 400 (lit "Incorrect date format, should be YYYY-MM-DD"))
  else Returns tt.

Definition check_public_user_id (public_user_id : str) : outcome unit :=
  if negb (len public_user_id =? PUBLIC_USER_ID_LENGTH)
  then Raises (HTTPException 400
                 (lit "Incorrect public user ID length, should be "
                  ++ str_of_int PUBLIC_USER_ID_LENGTH))
  else Returns tt.

Definition get_batch_id_from_file_name (file_name : str) : outcome str :=
  if negb (endswith file_name FILE_NAME_SUFFIX) then Raises AssertionError
  else Returns (slice_to_neg file_name (len FILE_NAME_SUFFIX)).

(** [item.key.rsplit('/', 1)[1]] *)
Definition key_file_name (key : str) : outcome str :=
  match rsplit1 47 key with
  | [_; name] => Returns name
  | _ => Raises IndexError
  end.

Definition get_batches_for_prefix (prefix : str) : M json :=
  items <- objects_filter prefix ;;
  names <- lift (map_outcome key_file_name items) ;;
  let file_names := sorted names in
  ids <- lift (map_outcome get_batch_id_from_file_name file_names) ;;
  ret (JObj [ (lit "batch_ids", JList (List.map JStr ids)) ]).

(** [GET /batches/{date_str}/users/{public_user_id}] *)
Definition get_batches_for_date_and_user (date_str public_user_id : str) : M json :=
  lift (check_date_str date_str) ;;
  lift (check_public_user_id public_user_id) ;;
  let prefix := lit "1/" ++ VERSION ++ lit "/" ++ date_str ++ lit "/1/"
                ++ public_user_id ++ lit "/" in
  get_batches_for_prefix prefix.

(** [GET /batches/{date_str}/users/{public_user_id}/batch/{batch_id}] *)
Definition get_batch_from_id (date_str public_user_id batch_id : str) : M json :=
  lift (check_date_str date_str) ;;
  lift (check_public_user_id public_user_id) ;;
  let url := PUBLIC_URL_PREFIX ++ lit "1/" ++ VERSION ++ lit "/" ++ date_str
             ++ lit "/1/" ++ public_user_id ++ lit "/" ++ batch_id
             ++ FILE_NAME_SUFFIX in
  content <- requests_get_content url ;;
  match gzip_decompress content with
  | None => raise GzipError
  | Some text =>
      match json_loads text with
      | None => raise JSONDecodeError
      | Some data => ret data
      end
  end.

(** [GET /latest-batch] *)
Definition get_latest_batch : M (list HashedBatch) :=
  fun st =>
    (Returns (match last_batch st with None => [] | Some b => [b] end), st).

(** [client.list_objects(Bucket, Prefix=prefix, Delimiter='/')], the
    entry ['CommonPrefixes'] of the answer: the keys under [prefix] are
    grouped by what follows the prefix up to the first '/', a key without
    one being an entry of its own; the answer holds the first 1000 entries,
    and has no ['CommonPrefixes'] when none of them is a group. *)
Fixpoint up_to_slash (s : str) : option str :=
  match s with
  | [] => None
  | c :: s' =>
      if c =? 47 then Some [c]
      else match up_to_slash s' with
           | Some p => Some (c :: p)
           | None => None
           end
  end.

Fixpoint dedup_adjacent (l : list (bool * str)) : list (bool * str) :=
  match l with
  | [] => []
  | x :: l' =>
      match l' with
      | y :: _ =>
          if Bool.eqb (fst x) (fst y) && str_eqb (snd x) (snd y)
          then dedup_adjacent l' else x :: dedup_adjacent l'
      | [] => [x]
      end
  end.

Definition common_prefixes (prefix : str) : M (list str) :=
  ks <- objects_filter prefix ;;
  let entry k :=
    match up_to_slash (skipn (List.length prefix) k) with
    | Some group => (true, prefix ++ group)
    | None => (false, k)
    end in
  let page := firstn 1000 (dedup_adjacent (List.map entry ks)) in
  match List.filter fst page with
  | [] => raise KeyError
  | groups => ret (List.map snd groups)
  end.

Definition get_subfolders (prefix : str) : M json :=
  items <- common_prefixes prefix ;;
  let item_keys :=
    List.map (fun p => strip1 47 (skipn (List.length prefix) p)) items in
  ret (JList (List.map JStr item_keys)).

(** [GET /batches/{date_str}/users] *)
Definition get_user_id_hashes_for_date (date_str : str) : M json :=
  lift (check_date_str date_str) ;;
  let prefix := lit "1/" ++ VERSION ++ lit "/" ++ date_str ++ lit "/1/" in
  get_subfolders prefix.

(** [GET /] *)
Definition status : M json :=
  ret (JObj [ (lit "status", JStr (lit "ok")) ]).

(** *** The service as a whole: requests handled one after the other *)

Inductive request :=
| PostBatch (e : env) (batch : Batch)
| GetBatchesForDateAndUser (date_str public_user_id : str)
| GetBatchFromId (date_str public_user_id batch_id : str)
| GetLatestBatch
| GetUserIdHashesForDate (date_str : str)
| GetStatus.

Definition handle (r : request) : M json :=
  match r with
  | PostBatch e batch => create_batch e batch
  | GetBatchesForDateAndUser d u => get_batches_for_date_and_user d u
  | GetBatchFromId d u b => get_batch_from_id d u b
  | GetLatestBatch =>
      l <- get_latest_batch ;; ret (JList (List.map HashedBatch_dict l))
  | GetUserIdHashesForDate d => get_user_id_hashes_for_date d
  | GetStatus => status
  end.

(** The state after a sequence of requests, and their outcomes. *)
Fixpoint run (rs : list request) (st : state) : list (outcome json) * state :=
  match rs with
  | [] => ([], st)
  | r :: rs' =>
      let '(o, st') := handle r st in
      let '(os, st'') := run rs' st' in
      (o :: os, st'')
  end.

(** The process starts with an empty [last_batch]; the bucket outlives
    the process. *)
Definition start (b : gmap str bytes) : state := mk_state None b.

(** *** Vocabulary of the statements below *)

Definition str_le (a b : str) : Prop := str_leb a b = true.

Definition all_ascii (s : str) : Prop := Forall (fun c => is_ascii c = true) s.

(** The dictionary [create_batch] returns. *)
Definition ok_response (public_user_id : str) : json :=
  JObj [ (lit "status", JStr (lit "ok")); (lit "public_user_id", JStr public_user_id) ].

(** The text [create_batch] compresses and stores. *)
Definition stored_text (e : env) (user_id_hash : str) (batch : Batch) : bytes :=
  HashedBatch_json (batch_hashed e user_id_hash batch).

(** A computation that leaves the state as it found it. *)
Definition reads_only {A} (c : M A) : Prop := forall st, snd (c st) = st.

(** The [HashedBatch] a request has put into [last_batch]: the one built
    by a submission that returned, none for any other request or outcome. *)
Definition submitted (r : request) (o : outcome json) : option HashedBatch :=
  match r, o with
  | PostBatch e batch, Returns resp =>
      match Json.get (lit "public_user_id") resp with
      | Some (JStr h) => Some (batch_hashed e h batch)
      | _ => None
      end
  | _, _ => None
  end.

(** The last of them over a sequence of requests and their outcomes. *)
Fixpoint last_submitted (rs : list request) (os : list (outcome json))
    (before : option HashedBatch) : option HashedBatch :=
  match rs, os with
  | r :: rs', o :: os' =>
      last_submitted rs' os'
        (match submitted r o with Some b => Some b | None => before end)
  | _, _ => before
  end.

(** Seconds of the day, and the date in the fixed-width form. *)
Definition seconds_since_midnight (t : datetime) : Z :=
  hour t * 3600 + minute t * 60 + second t.

Definition iso_date (t : datetime) : str :=
  fixed_digits 10 4 (year t) ++ lit "-" ++ fixed_digits 10 2 (month t)
  ++ lit "-" ++ fixed_digits 10 2 (day t).

(** The prefix under which the batches of one user and day are stored, the
    keys the store lists under a prefix, and the file name of a key (what
    follows its last slash). *)
Definition batches_prefix (date_str public_user_id : str) : str :=
  lit "1/" ++ VERSION ++ lit "/" ++ date_str ++ lit "/1/" ++ public_user_id ++ lit "/".

Definition listed (prefix : str) (st : state) : list str :=
  List.filter (fun k => startswith k prefix) (keys (bucket st)).

Definition basename (k : str) : str :=
  match rsplit1 47 k with
  | [_; name] => name
  | _ => k
  end.

(** The dictionary a listing of batches returns. *)
Definition batch_ids_response (ids : list str) : json :=
  JObj [ (lit "batch_ids", JList (List.map JStr ids)) ].

(** A file name without its last eight characters. *)
Definition strip_suffix (name : str) : str :=
  firstn (List.length name - 8) name.

(** The file name of the key of a submission, and the batch identifier
    the listing derives from it. *)
Definition batch_file_name (e : env) : str :=
  fixed_digits 10 5 (seconds_since_midnight (now e)) ++ lit "__"
  ++ slice_to (Uuid.to_str (Uuid.uuid4 (urandom16 e))) 8 ++ lit ".json.gz".

Definition batch_id_of (e : env) : str :=
  fixed_digits 10 5 (seconds_since_midnight (now e)) ++ lit "__"
  ++ slice_to (Uuid.to_str (Uuid.uuid4 (urandom16 e))) 8.

(** A key that a submission builds. *)
Definition submission_key (k : str) : Prop :=
  exists e h, valid_env e = true /\ k = batch_filename e h.

(** *** Sample inputs *)

Definition sample_item : Item :=
  mk_Item 1000 (lit "s") (lit "http://x") (lit "t") (lit "e") [lit "http://y"].

Definition sample_batch : Batch := mk_Batch (repeat 97 36) [sample_item].

(** [hashlib.sha3_256(b"a" * 36).hexdigest()] *)
Definition sample_digest : str :=
  lit "4764e3701fb92760f6b51b280c95c4e81855995efe2067ad0b6bfb12c27a4a92".

(** 2024-02-29 23:59:59.999999 UTC, the last microsecond of a leap day. *)
Definition sample_now : datetime := mk_datetime 2024 2 29 23 59 59 999999.

Definition sample_env : env :=
  mk_env sample_now [0; 1; 2; 3; 4; 5; 6; 7; 8; 9; 10; 11; 12; 13; 14; 255]
         1709251200 true.

(** The same request when the store refuses the write. *)
Definition sample_env_store_down : env :=
  mk_env sample_now (urandom16 sample_env) 1709251200 false.

(** A second request, half a second into 2024-01-01. *)
Definition sample_env_half_second : env :=
  mk_env (mk_datetime 2024 1 1 0 0 0 500000)
         [16; 17; 18; 19; 20; 21; 22; 23; 24; 25; 26; 27; 28; 29; 30; 31]
         1704067200 true.

(** A [user_id] of 36 characters, the last of them a lone surrogate, as a
    JSON body can carry it in an escape. *)
Definition surrogate_batch : Batch :=
  mk_Batch (repeat 97 35 ++ [55296]) [sample_item].

Definition long_batch : Batch := mk_Batch (repeat 97 36) (repeat sample_item 101).
Definition short_id_batch : Batch := mk_Batch (lit "abc") [sample_item].

Definition sample_date : str := lit "2024-01-01".
Definition sample_public_id : str := repeat 97 64.

Definition bucket_of (ks : list str) : gmap str bytes :=
  fold_right (fun k b => <[k := []]> b) ∅ ks.

(** Two objects of one user and day whose identifiers are a prefix of one
    another. *)
Definition bucket_prefix_ids : state :=
  start (bucket_of [ batches_prefix sample_date sample_public_id ++ lit "a.json.gz";
                     batches_prefix sample_date sample_public_id ++ lit "a-b.json.gz" ]).

(** An object one level below the directory of the user and day. *)
Definition bucket_nested : state :=
  start (bucket_of [ batches_prefix sample_date sample_public_id ++ lit "sub/x.json.gz" ]).

(** Objects named as submissions name them, and one of another user. *)
Definition bucket_regular : state :=
  start (bucket_of
           [ batches_prefix sample_date sample_public_id ++ lit "00002__bbbbbbbb.json.gz";
             batches_prefix sample_date sample_public_id ++ lit "00001__cccccccc.json.gz";
             batches_prefix sample_date (repeat 98 64) ++ lit "00000__aaaaaaaa.json.gz" ]).

(** An object without the suffix. *)
Definition bucket_foreign : state :=
  start (bucket_of
           [ batches_prefix sample_date sample_public_id ++ lit "00002__bbbbbbbb.json.gz";
             batches_prefix sample_date sample_public_id ++ lit "notes.txt" ]).

(** *** The exceptions of the checks *)

Definition batch_size_error (n : Z) : exn :=
  HTTPException 400
    (lit "Batch size too large (maximum 100), got " ++ str_of_int n).

Definition user_id_length_error : exn :=
  HTTPException 400 (lit "User ID length is incorrect, should be 36 characters").

Definition date_format_error : exn :=
  HTTPException 400 (lit "Incorrect date format, should be YYYY-MM-DD").

Definition public_id_length_error : exn :=
  HTTPException 400 (lit "Incorrect public user ID length, should be 64").

(** The prefix under which the users of one day are stored. *)
Definition users_prefix (date_str : str) : str :=
  lit "1/" ++ VERSION ++ lit "/" ++ date_str ++ lit "/1/".

(** A bucket with an object whose key has no slash. *)
Definition bucket_flat : state :=
  start (bucket_of [ lit "readme.json.gz"; lit "1/v1/x.json.gz" ]).

(** A request in the same second as [sample_env], with the same first four
    random bytes and nothing else in common. *)
Definition sample_env_same_key : env :=
  mk_env (mk_datetime 2024 2 29 23 59 59 1)
         [0; 1; 2; 3; 200; 201; 202; 203; 204; 205; 206; 207; 208; 209; 210; 211]
         1709251199 true.

(** What [get_batch_from_id] makes of the content it has downloaded. *)
Definition decoded (content : bytes) : outcome json :=
  match gzip_decompress content with
  | None => Raises GzipError
  | Some text =>
      match json_loads text with
      | None => Raises JSONDecodeError
      | Some data => Returns data
      end
  end.

(** The object that the submission of [batch] in the environment [e]
    leaves in the bucket when it returns: its key and its data. *)
Definition object_of (e : env) (batch : Batch) (k : str) (data : bytes) : Prop :=
  exists id_bytes,
    encode_utf8 (user_id batch) = Some id_bytes
    /\ k = batch_filename e (Sha3.hexdigest id_bytes)
    /\ data = gzip_compress (gzip_mtime e)
                 (stored_text e (Sha3.hexdigest id_bytes) batch).

(** Two submissions on different days by one user. *)
Definition sample_requests : list request :=
  [ PostBatch sample_env sample_batch;
    PostBatch sample_env_half_second sample_batch ].

(** A request on 2024-01-01 at a given second of the first minute, all of
    whose random bytes are [b]. *)
Definition env_at (s b : Z) : env :=
  mk_env (mk_datetime 2024 1 1 0 0 s 0) (repeat b 16) 1704067200 true.

(** Two submissions by one user within one second, at noon of 2024-01-01:
    the first draws the random bytes 255, the second, a microsecond later,
    the random bytes 0. *)
Definition sample_env_noon_first : env :=
  mk_env (mk_datetime 2024 1 1 12 0 0 0) (repeat 255 16) 1704110400 true.

Definition sample_env_noon_second : env :=
  mk_env (mk_datetime 2024 1 1 12 0 0 1) (repeat 0 16) 1704110400 true.

Definition same_second_requests : list request :=
  [ PostBatch sample_env_noon_first sample_batch;
    PostBatch sample_env_noon_second sample_batch ].

(** *** What [json.loads] reads back

    A string without a high surrogate (U+D800 to U+DBFF) immediately
    followed by a low surrogate (U+DC00 to U+DFFF): [json.dumps] writes each
    of the two as an escape, and [json.loads] reads two such escapes in a
    row as one character. *)
Definition is_high_surrogate (c : Z) : bool := (55296 <=? c) && (c <=? 56319).
Definition is_low_surrogate (c : Z) : bool := (56320 <=? c) && (c <=? 57343).

Fixpoint has_surrogate_pair (s : str) : bool :=
  match s with
  | a :: s' =>
      match s' with
      | b :: _ => (is_high_surrogate a && is_low_surrogate b) || has_surrogate_pair s'
      | [] => false
      end
  | [] => false
  end.

Definition pairless_str (s : str) : bool :=
  forallb is_code_point s && negb (has_surrogate_pair s).

Definition pairless_item (i : Item) : bool :=
  pairless_str (source i) && pairless_str (url i) && pairless_str (title i)
  && pairless_str (extract i) && forallb pairless_str (links i).

(** The same for a JSON value: its strings and keys are such strings, and
    no dictionary has a key twice. *)
Fixpoint distinct_keys (l : list (str * json)) : bool :=
  match l with
  | [] => true
  | (k, _) :: l' =>
      negb (existsb (fun kv => str_eqb (fst kv) k) l') && distinct_keys l'
  end.

Fixpoint pairless_json (v : json) : bool :=
  match v with
  | JStr s => pairless_str s
  | JList l => forallb pairless_json l
  | JObj l =>
      forallb (fun kv => pairless_str (fst kv) && pairless_json (snd kv)) l
      && distinct_keys l
  | _ => true
  end.

(** The two loops of [json.dumps] and of the reference reader, by name. *)
Definition dumps_items : list json -> str :=
  fix items (l : list json) : str :=
    match l with
    | [] => []
    | x :: l' =>
        dumps x ++ match l' with [] => [] | _ :: _ => lit ", " ++ items l' end
    end.

Definition dumps_entries : list (str * json) -> str :=
  fix entries (l : list (str * json)) : str :=
    match l with
    | [] => []
    | (k, x) :: l' =>
        dumps_str k ++ lit ": " ++ dumps x
        ++ match l' with [] => [] | _ :: _ => lit ", " ++ entries l' end
    end.

Definition read_elements (rv : str -> option (json * str))
  : nat -> str -> list json -> option (json * str) :=
  fix elements (k : nat) (s : str) (acc : list json) :=
    match k with
    | O => None
    | S k' =>
        match rv s with
        | None => None
        | Some (v, r1) =>
            match Reference.skip_ws r1 with
            | d :: r2 =>
                if d =? 44 then elements k' r2 (v :: acc)
                else if d =? 93 then Some (JList (rev (v :: acc)), r2)
                else None
            | [] => None
            end
        end
    end.

Definition read_entries (rv : str -> option (json * str))
  : nat -> str -> list (str * json) -> option (json * str) :=
  fix entries (k : nat) (s : str) (acc : list (str * json)) :=
    match k with
    | O => None
    | S k' =>
        match Reference.skip_ws s with
        | 34 :: s1 =>
            match Reference.read_string (S (List.length s1)) s1 [] with
            | None => None
            | Some (key, s2) =>
                match Reference.skip_ws s2 with
                | 58 :: s3 =>
                    match rv s3 with
                    | None => None
                    | Some (v, r1) =>
                        let acc' := Reference.dict_set key v acc in
                        match Reference.skip_ws r1 with
                        | d :: r2 =>
                            if d =? 44 then entries k' r2 acc'
                            else if d =? 125 then Some (JObj acc', r2)
                            else None
                        | [] => None
                        end
                    end
                | _ => None
                end
            end
        | _ => None
        end
    end.

(** Text that does not begin with the escape of a low surrogate. *)
Definition no_low_escape (t : str) : Prop :=
  forall r3 v r4, t = 92 :: 117 :: r3 -> Reference.hex4 r3 = Some (v, r4) ->
                  is_low_surrogate v = false.

(** What can follow a value in a JSON text: nothing, a comma or a closing
    bracket or brace. *)
Definition delimited (rest : str) : Prop :=
  match rest with
  | [] => True
  | d :: _ => d = 44 \/ d = 93 \/ d = 125
  end.

(** An item whose title is the two surrogates U+D83D and U+DE00, as a
    request body can carry them (the framework decodes the body with
    [surrogatepass]), and the item with the one character U+1F600. *)
Definition pair_item : Item :=
  mk_Item 1000 (lit "s") (lit "http://x") [55357; 56832] (lit "e") [lit "http://y"].

Definition joined_item : Item :=
  mk_Item 1000 (lit "s") (lit "http://x") [128512] (lit "e") [lit "http://y"].

Definition pair_batch : Batch := mk_Batch (repeat 97 36) [pair_item].

(** A batch whose item holds a negative timestamp, a character outside
    ASCII, one above U+FFFF, a lone surrogate, a quote, a line feed and an
    empty link. *)
Definition unicode_item : Item :=
  mk_Item (-5) (lit "s") (lit "http://x") [233; 128512; 55357; 34; 10] (lit "e")
          [lit "http://y"; []].

Definition unicode_batch : Batch := mk_Batch (repeat 97 36) [unicode_item].

(** ** The library models against the libraries

    Values computed by CPython 3.11 ([hashlib], [datetime], [uuid], [json],
    [gzip], [re]) for a few inputs, and the same values computed here. *)

Example sha3_256_vectors :
  Sha3.hexdigest [] = lit "a7ffc6f8bf1ed76651c14756a061d662f580ff4de43b49fa82d80a4b80f8434a"
  /\ Sha3.hexdigest (lit "abc") = lit "3a985da74fe225b2045c172d6bd390bd855f086e3e9d525b46bfe24511431532"
  /\ Sha3.hexdigest (List.map Z.of_nat (seq 0 200)) = lit "5f728f63bf5ee48c77f453c0490398fa645b8d4c4e56be9a41cfec344d6ca899"
  /\ Sha3.hexdigest (repeat 97 36) = sample_digest.
Proof. repeat apply conj; vm_compute; reflexivity. Qed.

Example int_truediv_vectors :
  Float.int_truediv 1 3 = Float.mk 6004799503160661 (-54)
  /\ Float.int_truediv 1 1000000 = Float.mk 4722366482869645 (-72)
  /\ Float.int_truediv (-7) 2 = Float.mk (-7881299347898368) (-51)
  /\ Float.int_truediv (2 ^ 60 + 1) 1 = Float.mk 4503599627370496 8
  /\ Float.int_truediv 1709251199999999 1000000 = Float.mk 7169119145164796 (-22).
Proof. repeat split; vm_compute; reflexivity. Qed.

Example datetime_vectors :
  sub sample_now epoch = mk_timedelta 19782 86399 999999
  /\ Float.to_int (total_seconds (sub sample_now epoch)) = 1709251199
  /\ date_str sample_now = lit "2024-02-29"
  /\ date_str (mk_datetime 33 1 2 0 0 0 0) = lit "0033-01-02"
  /\ Datetime.valid (mk_datetime 2023 2 29 0 0 0 0) = false.
Proof. repeat split; vm_compute; reflexivity. Qed.

Example uuid4_vector :
  Uuid.to_str (Uuid.uuid4 (urandom16 sample_env))
  = lit "00010203-0405-4607-8809-0a0b0c0d0eff".
Proof. vm_compute. reflexivity. Qed.

Example dumps_vector :
  dumps (JObj [ (lit "a", JInt (-5));
                (lit "b", JList [ JStr [233; 128512; 10; 127; 92]; JList []; JNull ]) ])
  = [123; 34; 97; 34; 58; 32; 45; 53; 44; 32; 34; 98; 34; 58; 32; 91; 34]
    ++ lit "\u00e9\ud83d\ude00\n\u007f\\"
    ++ [34; 44; 32; 91; 93; 44; 32] ++ lit "null]}".
Proof. vm_compute. reflexivity. Qed.

Example gzip_vector :
  Reference.gzip_compress 1700000000 [123; 34; 97; 34; 58; 32; 49; 125]
  = [31; 139; 8; 0; 0; 241; 83; 101; 0; 255; 1; 8; 0; 247; 255; 123; 34; 97; 34; 58; 32; 49; 125; 151; 142; 161; 251; 8; 0; 0; 0].
Proof. vm_compute. reflexivity. Qed.

Example date_regex_vectors :
  Re.match_ DATE_REGEX (lit "2024-01-01") = true
  /\ Re.match_ DATE_REGEX (lit "2024-1-1") = false
  /\ Re.match_ DATE_REGEX (lit "20240101") = false
  /\ Re.match_ DATE_REGEX (lit " 2024-01-01") = false
  /\ Re.match_ DATE_REGEX ([65298; 65296; 65298; 65300] ++ lit "-01-01") = true
  /\ Re.match_ DATE_REGEX (lit "2024-01-01x") = true
  /\ Re.fullmatch DATE_REGEX (lit "2024-01-01x") = false.
Proof. repeat split; vm_compute; reflexivity. Qed.

(** * Facts *)

(** ** Digits and zero padding *)

Lemma digit_char_is_digit d : 0 <= d < 10 -> is_digit (digit_char d) = true.
Proof. unfold is_digit, digit_char. intros. destruct (d <? 10) eqn:E; lia. Qed.

Lemma digit_char_is_lower_hex d : 0 <= d < 16 -> is_lower_hex (digit_char d) = true.
Proof.
  unfold is_lower_hex, is_digit, digit_char. intros.
  destruct (d <? 10) eqn:E; lia.
Qed.

Lemma digit_is_lower_hex c : is_digit c = true -> is_lower_hex c = true.
Proof. unfold is_lower_hex. intros ->. reflexivity. Qed.

Lemma lower_hex_is_ascii c : is_lower_hex c = true -> is_ascii c = true.
Proof. unfold is_lower_hex, is_digit, is_ascii. lia. Qed.

Lemma length_fixed_digits base w n : List.length (fixed_digits base w n) = w.
Proof.
  revert n. induction w as [|w IH]; intros n; simpl; [reflexivity|].
  rewrite length_app, IH. simpl. lia.
Qed.

Lemma fixed_digits_dec w n : Forall (fun c => is_digit c = true) (fixed_digits 10 w n).
Proof.
  revert n. induction w as [|w IH]; intros n; simpl; [constructor|].
  apply Forall_app. split; [apply IH|].
  constructor; [|constructor].
  apply digit_char_is_digit. apply Z.mod_pos_bound. lia.
Qed.

Lemma fixed_digits_hex w n : Forall (fun c => is_lower_hex c = true) (fixed_digits 16 w n).
Proof.
  revert n. induction w as [|w IH]; intros n; simpl; [constructor|].
  apply Forall_app. split; [apply IH|].
  constructor; [|constructor].
  apply digit_char_is_lower_hex. apply Z.mod_pos_bound. lia.
Qed.

(** Leading positions beyond the size of the number hold zeros. *)
Lemma fixed_digits_small base w :
  0 < base -> fixed_digits base w 0 = repeat 48 w.
Proof.
  intros Hb. induction w as [|w IH]; simpl; [reflexivity|].
  rewrite Z.div_0_l, Z.mod_0_l by lia. rewrite IH.
  change (digit_char 0) with 48. symmetry. apply repeat_cons.
Qed.

Lemma fixed_digits_pad base k j n :
  1 < base -> 0 <= n < base ^ Z.of_nat k ->
  fixed_digits base (j + k) n = repeat 48 j ++ fixed_digits base k n.
Proof.
  intros Hb. revert n. induction k as [|k IH]; intros n Hn.
  - simpl in Hn. assert (n = 0) by lia. subst n.
    rewrite Nat.add_0_r. simpl. rewrite app_nil_r.
    apply fixed_digits_small. lia.
  - replace (j + S k)%nat with (S (j + k)) by lia. simpl.
    rewrite IH.
    + rewrite app_assoc. reflexivity.
    + rewrite Nat2Z.inj_succ, Z.pow_succ_r in Hn by lia.
      split; [apply Z.div_pos; lia|].
      apply Z.div_lt_upper_bound; lia.
Qed.

(** The first [w] of [w + k] digits are the digits of the quotient. *)
Lemma firstn_fixed_digits base w k n :
  0 < base ->
  firstn w (fixed_digits base (w + k) n)
  = fixed_digits base w (n / base ^ Z.of_nat k).
Proof.
  intros Hb. revert n. induction k as [|k IH]; intros n.
  - rewrite Nat.add_0_r. simpl. rewrite Z.div_1_r.
    rewrite firstn_all2; [reflexivity|]. rewrite length_fixed_digits. lia.
  - replace (w + S k)%nat with (S (w + k)) by lia. simpl.
    rewrite firstn_app, length_fixed_digits.
    replace (w - (w + k))%nat with 0%nat by lia. simpl. rewrite app_nil_r.
    rewrite IH. f_equal.
    rewrite Nat2Z.inj_succ, Z.pow_succ_r by lia.
    apply Z.div_div; [lia|]. apply Z.pow_pos_nonneg; lia.
Qed.

(** [digits_from] with enough fuel writes a number without leading zero:
    some positive count [k] of digits, the least that holds the number. *)
Lemma digits_from_fixed base fuel :
  1 < base ->
  forall n acc, 0 <= n < 2 ^ Z.of_nat fuel -> (0 < fuel)%nat ->
  exists k, (0 < k)%nat /\ n < base ^ Z.of_nat k
            /\ (forall w, n < base ^ Z.of_nat w -> (0 < w)%nat -> (k <= w)%nat)
            /\ digits_from fuel base n acc = fixed_digits base k n ++ acc.
Proof.
  intros Hb. induction fuel as [|fuel IH]; intros n acc Hn Hf; [lia|].
  simpl. destruct (n <? base) eqn:E.
  - exists 1%nat. repeat split; try lia.
  - assert (Hq : 0 <= n / base < 2 ^ Z.of_nat fuel).
    { rewrite Nat2Z.inj_succ, Z.pow_succ_r in Hn by lia.
      split; [apply Z.div_pos; lia|].
      apply Z.div_lt_upper_bound; [lia|]. nia. }
    assert (Hfuel : (0 < fuel)%nat).
    { destruct fuel; [|lia]. simpl in Hq.
      assert (n / base = 0) by lia.
      apply Z.div_small_iff in H; lia. }
    destruct (IH (n / base) (digit_char (n mod base) :: acc) Hq Hfuel)
      as (k & Hk & Hlt & Hmin & Heq).
    exists (S k). repeat split; try lia.
    + rewrite Nat2Z.inj_succ, Z.pow_succ_r by lia.
      pose proof (Z.mul_div_le n base ltac:(lia)).
      pose proof (Z.mod_pos_bound n base ltac:(lia)).
      pose proof (Z.div_mod n base ltac:(lia)). nia.
    + intros w Hw Hw0. destruct w as [|w]; [lia|].
      destruct w as [|w].
      * simpl in Hw. lia.
      * enough (k <= S w)%nat by lia. apply Hmin; [|lia].
        rewrite (Nat2Z.inj_succ (S w)), Z.pow_succ_r in Hw by lia.
        apply Z.div_lt_upper_bound; lia.
    + rewrite Heq. simpl. rewrite <- app_assoc. reflexivity.
Qed.

Lemma digits_fixed base n :
  1 < base -> 0 <= n ->
  exists k, (0 < k)%nat /\ n < base ^ Z.of_nat k
            /\ (forall w, n < base ^ Z.of_nat w -> (0 < w)%nat -> (k <= w)%nat)
            /\ digits base n = fixed_digits base k n.
Proof.
  intros Hb Hn. unfold digits.
  destruct (digits_from_fixed base (S (Z.to_nat (Z.log2 n))) Hb n []) as (k & H).
  - split; [lia|]. rewrite Nat2Z.inj_succ, Z2Nat.id by apply Z.log2_nonneg.
    destruct (Z.eq_dec n 0) as [->|]; [reflexivity|].
    apply Z.log2_spec. lia.
  - lia.
  - exists k. rewrite app_nil_r in H. exact H.
Qed.

(** Zero padding to a width that holds the number gives the fixed-width
    field. *)
Lemma zfill_digits base w n :
  1 < base -> (0 < w)%nat -> 0 <= n < base ^ Z.of_nat w ->
  zfill (Z.of_nat w) (digits base n) = fixed_digits base w n.
Proof.
  intros Hb Hw Hn.
  destruct (digits_fixed base n Hb ltac:(lia)) as (k & Hk & Hlt & Hmin & ->).
  unfold zfill. rewrite length_fixed_digits, Nat2Z.id.
  specialize (Hmin w ltac:(lia) Hw).
  replace w with ((w - k) + k)%nat at 2 by lia.
  rewrite fixed_digits_pad by lia. reflexivity.
Qed.

Lemma digits_lower_hex n : 0 <= n -> Forall (fun c => is_lower_hex c = true) (digits 16 n).
Proof.
  intros Hn. destruct (digits_fixed 16 n ltac:(lia) Hn) as (k & _ & _ & _ & ->).
  apply fixed_digits_hex.
Qed.

Lemma digits_dec n : 0 <= n -> Forall (fun c => is_digit c = true) (digits 10 n).
Proof.
  intros Hn. destruct (digits_fixed 10 n ltac:(lia) Hn) as (k & _ & _ & _ & ->).
  apply fixed_digits_dec.
Qed.

(** ** Strings: equality, prefixes, suffixes, splitting *)

Lemma str_eqb_eq a b : str_eqb a b = true <-> a = b.
Proof.
  revert b. induction a as [|x a IH]; intros [|y b]; simpl; split;
    try congruence; try reflexivity.
  - intros H. apply andb_true_iff in H as [Hx Hab].
    apply Z.eqb_eq in Hx. apply IH in Hab. congruence.
  - intros [= -> ->]. rewrite Z.eqb_refl. simpl. apply IH. reflexivity.
Qed.

Lemma str_eqb_length a b : str_eqb a b = true -> List.length a = List.length b.
Proof. intros H. apply str_eqb_eq in H. congruence. Qed.

Lemma startswith_iff s p : startswith s p = true <-> exists r, s = p ++ r.
Proof.
  revert s. induction p as [|c p IH]; intros s; simpl.
  - split; [intros _; exists s; reflexivity | reflexivity].
  - destruct s as [|d s].
    + split; [discriminate | intros [r Hr]; discriminate].
    + rewrite andb_true_iff, IH, Z.eqb_eq. split.
      * intros [-> [r ->]]. exists r. reflexivity.
      * intros [r [= -> ->]]. split; [reflexivity | exists r; reflexivity].
Qed.

Lemma startswith_app p r : startswith (p ++ r) p = true.
Proof. apply startswith_iff. exists r. reflexivity. Qed.

Lemma endswith_iff s suffix : endswith s suffix = true <-> exists r, s = r ++ suffix.
Proof.
  unfold endswith. rewrite startswith_iff. split.
  - intros [r Hr]. exists (rev r).
    rewrite <- (rev_involutive s), Hr, rev_app_distr, rev_involutive. reflexivity.
  - intros [r ->]. exists (rev r). apply rev_app_distr.
Qed.

Lemma endswith_app r suffix : endswith (r ++ suffix) suffix = true.
Proof. apply endswith_iff. exists r. reflexivity. Qed.

Lemma slice_to_neg_app r suffix : slice_to_neg (r ++ suffix) (len suffix) = r.
Proof.
  unfold slice_to_neg, len. rewrite Nat2Z.id, length_app.
  replace (List.length r + List.length suffix - List.length suffix)%nat
    with (List.length r + 0)%nat by lia.
  rewrite firstn_app_2. simpl. apply app_nil_r.
Qed.

Lemma skipn_length_app {A} (p r : list A) : skipn (List.length p) (p ++ r) = r.
Proof. induction p; simpl; auto. Qed.

Lemma firstn_length_app {A} (p r : list A) : firstn (List.length p) (p ++ r) = p.
Proof. induction p; simpl; [destruct r; reflexivity | congruence]. Qed.

(** [rsplit1]: either the separator does not occur and the string comes
    back whole, or the string is cut at the last separator. *)
Lemma rsplit1_shape sep s :
  (rsplit1 sep s = [s] /\ Forall (fun c => c <> sep) s)
  \/ (exists hd tl, rsplit1 sep s = [hd; tl] /\ s = hd ++ sep :: tl
                    /\ Forall (fun c => c <> sep) tl).
Proof.
  induction s as [|c s IH]; simpl.
  - left. split; [reflexivity | constructor].
  - destruct IH as [[-> Hs] | (hd & tl & -> & -> & Htl)].
    + destruct (c =? sep) eqn:E.
      * right. exists [], s. apply Z.eqb_eq in E. subst c. auto.
      * left. apply Z.eqb_neq in E. split; [reflexivity|]. constructor; assumption.
    + right. exists (c :: hd), tl. auto.
Qed.

Lemma rsplit1_app sep hd tl :
  Forall (fun c => c <> sep) tl -> rsplit1 sep (hd ++ sep :: tl) = [hd; tl].
Proof.
  intros Htl.
  assert (Hbase : rsplit1 sep (sep :: tl) = [[]; tl]).
  { simpl. destruct (rsplit1_shape sep tl) as [[-> _] | (h & t & _ & -> & _)].
    - rewrite Z.eqb_refl. reflexivity.
    - exfalso. apply Forall_app in Htl as [_ Htl].
      inversion Htl; congruence. }
  induction hd as [|c hd IH]; [exact Hbase|].
  change ((c :: hd) ++ sep :: tl) with (c :: (hd ++ sep :: tl)).
  cbn [rsplit1]. rewrite IH. reflexivity.
Qed.

(** ** The order on strings, and [sorted] *)

Lemma str_ltb_irrefl a : str_ltb a a = false.
Proof. induction a as [|x a IH]; simpl; [reflexivity|]. rewrite IH. lia. Qed.

Lemma str_ltb_trans a b c : str_ltb a b = true -> str_ltb b c = true -> str_ltb a c = true.
Proof.
  revert b c. induction a as [|x a IH]; intros [|y b] [|z c]; simpl;
    try congruence.
  intros H1 H2.
  apply orb_true_iff in H1. apply orb_true_iff in H2. apply orb_true_iff.
  destruct H1 as [H1|H1], H2 as [H2|H2];
    rewrite ?andb_true_iff in *; try (left; lia).
  right. destruct H1, H2. split; [lia|]. eapply IH; eassumption.
Qed.

Lemma str_ltb_total a b : str_ltb a b = false -> str_ltb b a = false -> a = b.
Proof.
  revert b. induction a as [|x a IH]; intros [|y b]; simpl; try congruence.
  intros H1 H2.
  apply orb_false_iff in H1 as [H1 H1']. apply orb_false_iff in H2 as [H2 H2'].
  assert (x = y) by lia. subst y. rewrite Z.eqb_refl in *. simpl in *.
  f_equal. apply IH; assumption.
Qed.

Lemma str_ltb_asym a b : str_ltb a b = true -> str_ltb b a = false.
Proof.
  intros H. destruct (str_ltb b a) eqn:E; [|reflexivity].
  pose proof (str_ltb_trans _ _ _ H E) as C. rewrite str_ltb_irrefl in C. discriminate.
Qed.

Lemma str_le_refl a : str_le a a.
Proof. unfold str_le, str_leb. rewrite str_ltb_irrefl. reflexivity. Qed.

Lemma str_le_total a b : str_le a b \/ str_le b a.
Proof.
  unfold str_le, str_leb. destruct (str_ltb b a) eqn:E; [right | left; reflexivity].
  rewrite (str_ltb_asym _ _ E). reflexivity.
Qed.

Lemma str_le_trans a b c : str_le a b -> str_le b c -> str_le a c.
Proof.
  unfold str_le, str_leb. rewrite !negb_true_iff. intros H1 H2.
  destruct (str_ltb c a) eqn:E; [|reflexivity].
  destruct (str_ltb b c) eqn:E2.
  - pose proof (str_ltb_trans _ _ _ E2 E). congruence.
  - pose proof (str_ltb_total _ _ E2 H2). subst c. congruence.
Qed.

Lemma str_le_antisym a b : str_le a b -> str_le b a -> a = b.
Proof.
  unfold str_le, str_leb. rewrite !negb_true_iff. intros H1 H2.
  apply str_ltb_total; assumption.
Qed.

(** Behind a common suffix, strings of one length compare as they do
    without it. *)
Lemma str_ltb_common_suffix a b s :
  List.length a = List.length b -> str_ltb (a ++ s) (b ++ s) = str_ltb a b.
Proof.
  revert b. induction a as [|x a IH]; intros [|y b] Hlen; simpl in *;
    try discriminate.
  - apply str_ltb_irrefl.
  - rewrite IH by congruence. reflexivity.
Qed.

Lemma insert_sorted_perm x l : Permutation (insert_sorted x l) (x :: l).
Proof.
  induction l as [|y l IH]; simpl; [reflexivity|].
  destruct (str_leb x y); [reflexivity|].
  rewrite IH. apply perm_swap.
Qed.

Lemma sorted_perm l : Permutation (sorted l) l.
Proof.
  induction l as [|x l IH]; simpl; [reflexivity|].
  rewrite insert_sorted_perm. constructor. exact IH.
Qed.

Lemma insert_sorted_sorted x l :
  StronglySorted str_le l -> StronglySorted str_le (insert_sorted x l).
Proof.
  induction 1 as [|y l Hl IH Hy]; simpl.
  - constructor; constructor.
  - destruct (str_leb x y) eqn:E.
    + constructor; [constructor; assumption|].
      constructor; [exact E|].
      eapply Forall_impl; [exact Hy|]. intros z Hz. simpl in Hz.
      eapply str_le_trans; [exact E | exact Hz].
    + constructor; [exact IH|].
      eapply Permutation_Forall; [symmetry; apply insert_sorted_perm|].
      constructor; [|exact Hy].
      destruct (str_le_total x y) as [C|C]; [unfold str_le in C; congruence | exact C].
Qed.

Lemma sorted_sorted l : StronglySorted str_le (sorted l).
Proof.
  induction l as [|x l IH]; simpl; [constructor|].
  apply insert_sorted_sorted, IH.
Qed.

Lemma in_sorted x l : In x (sorted l) <-> In x l.
Proof.
  split; apply Permutation_in; [apply sorted_perm | symmetry; apply sorted_perm].
Qed.

(** ** The JSON text is ASCII, so encoding it cannot fail *)

Lemma digits_from_chars (P : Z -> Prop) base fuel :
  (forall d, 0 <= d < base -> P (digit_char d)) -> 0 < base ->
  forall n acc, Forall P acc -> Forall P (digits_from fuel base n acc).
Proof.
  intros HP Hb. induction fuel as [|fuel IH]; intros n acc Hacc; simpl; [exact Hacc|].
  assert (Forall P (digit_char (n mod base) :: acc)).
  { constructor; [|exact Hacc]. apply HP. apply Z.mod_pos_bound. exact Hb. }
  destruct (n <? base); [assumption | apply IH; assumption].
Qed.

Lemma digits_all_lower_hex n : Forall (fun c => is_lower_hex c = true) (digits 16 n).
Proof.
  apply digits_from_chars; [apply digit_char_is_lower_hex | lia | constructor].
Qed.

Lemma digits_all_digit n : Forall (fun c => is_digit c = true) (digits 10 n).
Proof.
  apply digits_from_chars; [apply digit_char_is_digit | lia | constructor].
Qed.

Lemma zfill_chars (P : Z -> Prop) w s : P 48 -> Forall P s -> Forall P (zfill w s).
Proof.
  intros H0 Hs. unfold zfill. apply Forall_app. split; [|exact Hs].
  apply Forall_forall. intros x Hx. apply list_elem_of_In, repeat_spec in Hx.
  subst x. exact H0.
Qed.

Lemma length_zfill w s : (Z.to_nat w <= List.length (zfill w s))%nat.
Proof. unfold zfill. rewrite length_app, repeat_length. lia. Qed.

Lemma all_ascii_app a b : all_ascii a -> all_ascii b -> all_ascii (a ++ b).
Proof. intros. apply Forall_app. split; assumption. Qed.

Lemma all_ascii_lit s :
  forallb is_ascii (lit s) = true -> all_ascii (lit s).
Proof. intros H. apply Forall_forall. intros x Hx.
  rewrite forallb_forall in H. apply H. apply list_elem_of_In. exact Hx. Qed.

Lemma all_ascii_hex s : Forall (fun c => is_lower_hex c = true) s -> all_ascii s.
Proof. intros H. eapply Forall_impl; [exact H|]. apply lower_hex_is_ascii. Qed.

Lemma all_ascii_str_of_int n : all_ascii (str_of_int n).
Proof.
  unfold str_of_int. destruct (n <? 0).
  - constructor; [reflexivity|]. apply all_ascii_hex.
    eapply Forall_impl; [apply digits_all_digit|]. apply digit_is_lower_hex.
  - apply all_ascii_hex.
    eapply Forall_impl; [apply digits_all_digit|]. apply digit_is_lower_hex.
Qed.

Lemma all_ascii_fmt_0x w n : all_ascii (fmt_0x w n).
Proof.
  apply zfill_chars; [reflexivity|]. apply all_ascii_hex, digits_all_lower_hex.
Qed.

Lemma all_ascii_escape_char c : all_ascii (escape_char c).
Proof.
  unfold escape_char.
  repeat match goal with
         | |- all_ascii (if ?b then _ else _) => destruct b eqn:?
         end;
    repeat first [ apply all_ascii_fmt_0x
                 | apply all_ascii_lit; reflexivity
                 | apply all_ascii_app ].
  - repeat constructor.
  - constructor; [|constructor]. unfold is_ascii. lia.
Qed.

Lemma all_ascii_dumps_str s : all_ascii (dumps_str s).
Proof.
  unfold dumps_str. apply all_ascii_app; [repeat constructor|].
  apply all_ascii_app; [|repeat constructor].
  induction s as [|c s IH]; simpl; [constructor|].
  apply all_ascii_app; [apply all_ascii_escape_char | exact IH].
Qed.

(** Induction on JSON values, with the hypothesis for every element of a
    list and every value of a dictionary. *)
Lemma json_nested_ind (P : json -> Prop) :
  P JNull -> (forall b, P (JBool b)) -> (forall n, P (JInt n)) ->
  (forall s, P (JStr s)) ->
  (forall l, Forall P l -> P (JList l)) ->
  (forall l, Forall (fun kv => P (snd kv)) l -> P (JObj l)) ->
  forall v, P v.
Proof.
  intros Hnull Hbool Hint Hstr Hlist Hobj.
  fix IH 1. intros [ | b | n | s | l | l ].
  - exact Hnull.
  - apply Hbool.
  - apply Hint.
  - apply Hstr.
  - apply Hlist. induction l as [|x l IHl]; constructor; [apply IH | exact IHl].
  - apply Hobj. induction l as [|[k x] l IHl]; constructor; [apply IH | exact IHl].
Qed.

Lemma all_ascii_dumps v : all_ascii (dumps v).
Proof.
  induction v as [ | b | n | s | l IH | l IH ] using json_nested_ind.
  - apply all_ascii_lit. reflexivity.
  - destruct b; apply all_ascii_lit; reflexivity.
  - apply all_ascii_str_of_int.
  - apply all_ascii_dumps_str.
  - cbn [dumps]. apply all_ascii_app; [apply all_ascii_lit; reflexivity|].
    apply all_ascii_app; [|apply all_ascii_lit; reflexivity].
    induction IH as [|x l Hx Hl IHl]; [constructor|].
    apply all_ascii_app; [exact Hx|].
    destruct l; [constructor|].
    apply all_ascii_app; [apply all_ascii_lit; reflexivity | exact IHl].
  - cbn [dumps]. apply all_ascii_app; [apply all_ascii_lit; reflexivity|].
    apply all_ascii_app; [|apply all_ascii_lit; reflexivity].
    induction IH as [|[k x] l Hx Hl IHl]; [constructor|].
    apply all_ascii_app; [apply all_ascii_dumps_str|].
    apply all_ascii_app; [apply all_ascii_lit; reflexivity|].
    apply all_ascii_app; [exact Hx|].
    destruct l; [constructor|].
    apply all_ascii_app; [apply all_ascii_lit; reflexivity | exact IHl].
Qed.

(** ** UTF-8 *)

Lemma encode_utf8_ascii s : all_ascii s -> encode_utf8 s = Some s.
Proof.
  induction 1 as [|c s Hc Hs IH]; simpl; [reflexivity|].
  rewrite IH. unfold utf8_char. unfold is_ascii in Hc.
  destruct (c <? 128) eqn:E; [reflexivity | lia].
Qed.

(** A string without surrogate code points can be encoded. *)
Lemma encode_utf8_total s :
  Forall (fun c => is_surrogate c = false) s -> exists b, encode_utf8 s = Some b.
Proof.
  induction 1 as [|c s Hc Hs [b IH]]; simpl; [eexists; reflexivity|].
  rewrite IH. unfold utf8_char. rewrite Hc.
  destruct (c <? 128); [eexists; reflexivity|].
  destruct (c <? 2048); [eexists; reflexivity|].
  destruct (c <? 65536); eexists; reflexivity.
Qed.

(** Conversely a surrogate anywhere makes the encoding fail. *)
Lemma encode_utf8_surrogate s :
  Exists (fun c => is_surrogate c = true) s -> encode_utf8 s = None.
Proof.
  induction 1 as [c s Hc | c s Hs IH]; simpl.
  - unfold utf8_char. rewrite Hc. unfold is_surrogate in Hc.
    destruct (c <? 128) eqn:E1; [lia|]. destruct (c <? 2048) eqn:E2; [lia|].
    reflexivity.
  - rewrite IH. destruct (utf8_char c); reflexivity.
Qed.

(** ** The digest *)

Lemma length_sha3_256 msg : List.length (Sha3.sha3_256 msg) = 32%nat.
Proof. unfold Sha3.sha3_256. rewrite length_map, length_seq. reflexivity. Qed.

Lemma sha3_256_bytes msg : Forall (fun b => 0 <= b < 256) (Sha3.sha3_256 msg).
Proof.
  unfold Sha3.sha3_256. apply Forall_forall. intros b Hb.
  apply list_elem_of_In, in_map_iff in Hb as (i & <- & _).
  unfold Sha3.squeeze_byte.
  change 255 with (Z.ones 8). rewrite Z.land_ones by lia.
  apply Z.mod_pos_bound. lia.
Qed.

Lemma length_hexlify b : List.length (hexlify b) = (2 * List.length b)%nat.
Proof.
  unfold hexlify. induction b as [|x b IH]; simpl; [reflexivity|]. rewrite IH. lia.
Qed.

Lemma hexlify_lower_hex b :
  Forall (fun x => 0 <= x < 256) b -> Forall (fun c => is_lower_hex c = true) (hexlify b).
Proof.
  unfold hexlify. induction 1 as [|x b Hx Hb IH]; simpl; [constructor|].
  constructor; [|constructor; [|exact IH]].
  - apply digit_char_is_lower_hex. split; [apply Z.div_pos; lia|].
    apply Z.div_lt_upper_bound; lia.
  - apply digit_char_is_lower_hex. apply Z.mod_pos_bound. lia.
Qed.

(** The hex digest is 64 lowercase hexadecimal characters, whatever the
    message. *)
Lemma hexdigest_shape msg :
  List.length (Sha3.hexdigest msg) = 64%nat
  /\ Forall (fun c => is_lower_hex c = true) (Sha3.hexdigest msg).
Proof.
  unfold Sha3.hexdigest. split.
  - rewrite length_hexlify, length_sha3_256. reflexivity.
  - apply hexlify_lower_hex, sha3_256_bytes.
Qed.

(** ** [create_batch], step by step *)

Lemma encode_json b : encode (HashedBatch_json b) = Returns (HashedBatch_json b).
Proof.
  unfold encode, HashedBatch_json. rewrite encode_utf8_ascii; [reflexivity|].
  apply all_ascii_dumps.
Qed.

(** The whole of [create_batch] as one case analysis: the two checks, the
    encoding of the identifier, the write, the assignment. *)
Lemma create_batch_cases e batch st :
  create_batch e batch st =
  if MAX_BATCH_SIZE <? len (items batch) then
    (Raises (HTTPException 400
               (lit "Batch size too large (maximum " ++ str_of_int MAX_BATCH_SIZE
                ++ lit "), got " ++ str_of_int (len (items batch)))), st)
  else if negb (len (user_id batch) =? USER_ID_LENGTH) then
    (Raises (HTTPException 400
               (lit "User ID length is incorrect, should be "
                ++ str_of_int USER_ID_LENGTH ++ lit " characters")), st)
  else
    match encode_utf8 (user_id batch) with
    | None => (Raises UnicodeEncodeError, st)
    | Some id_bytes =>
        let h := Sha3.hexdigest id_bytes in
        if put_accepted e then
          (Returns (ok_response h),
           mk_state (Some (batch_hashed e h batch))
                    (<[batch_filename e h :=
                         gzip_compress (gzip_mtime e) (stored_text e h batch)]>
                       (bucket st)))
        else (Raises StorageError, st)
    end.
Proof.
  unfold create_batch.
  destruct (MAX_BATCH_SIZE <? len (items batch)); [reflexivity|].
  destruct (negb (len (user_id batch) =? USER_ID_LENGTH)); [reflexivity|].
  unfold bind, lift, encode at 1.
  destruct (encode_utf8 (user_id batch)) as [id_bytes|]; [|reflexivity].
  rewrite encode_json. unfold upload, set_last_batch, ret, stored_text. cbn.
  destruct (put_accepted e); reflexivity.
Qed.

(** C1, as amended. For every batch of 1 to 100 items whose [user_id] has
    36 characters, none of them a surrogate code point, and whenever the
    store completes the write, [create_batch] returns
    [{status: "ok", public_user_id: h}] where [h] is the hexadecimal SHA3-256
    digest of the UTF-8 encoding of [user_id]: 64 characters, each a
    lowercase hexadecimal digit. Any other successful submission with the
    same [user_id] returns the same [h]. *)
Theorem create_batch_returns_digest e batch st :
  1 <= len (items batch) <= 100 ->
  len (user_id batch) = 36 ->
  Forall (fun c => is_surrogate c = false) (user_id batch) ->
  put_accepted e = true ->
  exists id_bytes st',
    encode_utf8 (user_id batch) = Some id_bytes
    /\ create_batch e batch st
       = (Returns (ok_response (hexlify (Sha3.sha3_256 id_bytes))), st')
    /\ len (hexlify (Sha3.sha3_256 id_bytes)) = 64
    /\ Forall (fun c => is_lower_hex c = true) (hexlify (Sha3.sha3_256 id_bytes))
    /\ forall e' batch' st0 r st1,
         user_id batch' = user_id batch ->
         create_batch e' batch' st0 = (Returns r, st1) ->
         r = ok_response (hexlify (Sha3.sha3_256 id_bytes)).
Proof.
  intros Hitems Hid Hsur Hput.
  destruct (encode_utf8_total _ Hsur) as [id_bytes Henc].
  exists id_bytes. eexists. split; [exact Henc|].
  destruct (hexdigest_shape id_bytes) as [Hlen Hhex].
  split; [|split; [|split]].
  - rewrite create_batch_cases. unfold MAX_BATCH_SIZE, USER_ID_LENGTH.
    destruct (100 <? len (items batch)) eqn:E1; [lia|].
    rewrite Hid. cbn [Z.eqb negb Pos.eqb]. rewrite Henc, Hput. reflexivity.
  - unfold len. fold (Sha3.hexdigest id_bytes). rewrite Hlen. reflexivity.
  - exact Hhex.
  - intros e' batch' st0 r st1 Hsame Hrun.
    rewrite create_batch_cases in Hrun.
    destruct (MAX_BATCH_SIZE <? len (items batch')); [discriminate|].
    destruct (negb (len (user_id batch') =? USER_ID_LENGTH)); [discriminate|].
    rewrite Hsame, Henc in Hrun. cbn zeta in Hrun.
    destruct (put_accepted e'); [|discriminate].
    injection Hrun as <- _. reflexivity.
Qed.

(** C2. A batch of more than 100 items, or one whose [user_id] is not 36
    characters long, is answered with an [HTTPException] of status 400, and
    the state after the call is the state before it: nothing is written to
    the bucket and [last_batch] keeps its value. *)
Theorem create_batch_rejects e batch st :
  100 < len (items batch) \/ len (user_id batch) <> 36 ->
  exists detail,
    create_batch e batch st = (Raises (HTTPException 400 detail), st)
    /\ response_status (fst (create_batch e batch st)) = 400.
Proof.
  intros H. rewrite create_batch_cases. unfold MAX_BATCH_SIZE, USER_ID_LENGTH.
  destruct (100 <? len (items batch)) eqn:E1.
  - eexists. split; reflexivity.
  - destruct (len (user_id batch) =? 36) eqn:E2; [lia|].
    eexists. split; reflexivity.
Qed.

(** C7. The write to the store comes before the assignment to
    [last_batch]: when the store raises, [create_batch] raises the same
    exception, the response is a 500, and [last_batch] is what it was; and
    whenever a call leaves [last_batch] changed, it has returned and the
    bucket holds, under the key of the batch, the data that was written. *)
Theorem create_batch_store_before_cache e batch st :
  (put_accepted e = false ->
   len (items batch) <= 100 -> len (user_id batch) = 36 ->
   Forall (fun c => is_surrogate c = false) (user_id batch) ->
   exists st',
     create_batch e batch st = (Raises StorageError, st')
     /\ response_status (fst (create_batch e batch st)) = 500
     /\ last_batch st' = last_batch st)
  /\ (forall o st',
        create_batch e batch st = (o, st') ->
        last_batch st' <> last_batch st ->
        put_accepted e = true
        /\ exists h, o = Returns (ok_response h)
                     /\ last_batch st' = Some (batch_hashed e h batch)
                     /\ bucket st' !! batch_filename e h
                        = Some (gzip_compress (gzip_mtime e) (stored_text e h batch))).
Proof.
  split.
  - intros Hput Hitems Hid Hsur.
    destruct (encode_utf8_total _ Hsur) as [id_bytes Henc].
    exists st. rewrite create_batch_cases. unfold MAX_BATCH_SIZE, USER_ID_LENGTH.
    destruct (100 <? len (items batch)) eqn:E1; [lia|].
    rewrite Hid. cbn [Z.eqb negb Pos.eqb]. rewrite Henc, Hput. cbn. auto.
  - intros o st' Hrun Hchanged. rewrite create_batch_cases in Hrun.
    destruct (MAX_BATCH_SIZE <? len (items batch));
      [injection Hrun as <- <-; congruence|].
    destruct (negb (len (user_id batch) =? USER_ID_LENGTH));
      [injection Hrun as <- <-; congruence|].
    destruct (encode_utf8 (user_id batch)) as [id_bytes|];
      [|injection Hrun as <- <-; congruence].
    cbn zeta in Hrun.
    destruct (put_accepted e); [|injection Hrun as <- <-; congruence].
    injection Hrun as <- <-. split; [reflexivity|].
    eexists. split; [reflexivity|]. split; [reflexivity|].
    cbn [bucket]. apply lookup_insert_eq.
Qed.

(** ** Handlers that only read *)

Lemma reads_only_ret {A} (a : A) : reads_only (ret a).
Proof. intros st. reflexivity. Qed.

Lemma reads_only_raise {A} (e : exn) : reads_only (@raise A e).
Proof. intros st. reflexivity. Qed.

Lemma reads_only_lift {A} (o : outcome A) : reads_only (lift o).
Proof. intros st. reflexivity. Qed.

Lemma reads_only_bind {A B} (c : M A) (k : A -> M B) :
  reads_only c -> (forall a, reads_only (k a)) -> reads_only (bind c k).
Proof.
  intros Hc Hk st. unfold bind. specialize (Hc st).
  destruct (c st) as [[a|e] st']; simpl in *; subst st'; [apply Hk | reflexivity].
Qed.

Lemma reads_only_objects_filter prefix : reads_only (objects_filter prefix).
Proof. intros st. reflexivity. Qed.

Lemma reads_only_requests_get_content u : reads_only (requests_get_content u).
Proof. intros st. reflexivity. Qed.

Lemma reads_only_get_latest_batch : reads_only get_latest_batch.
Proof. intros st. reflexivity. Qed.

Create HintDb reads.
#[local] Hint Resolve reads_only_ret reads_only_raise reads_only_lift
  reads_only_objects_filter reads_only_requests_get_content
  reads_only_get_latest_batch : reads.

Ltac reads :=
  repeat first
    [ progress auto with reads
    | apply reads_only_bind
    | match goal with
      | |- reads_only (match ?x with _ => _ end) => destruct x
      | |- forall _, reads_only _ => intros ?
      end ].

Lemma reads_only_get_batches_for_prefix prefix :
  reads_only (get_batches_for_prefix prefix).
Proof. unfold get_batches_for_prefix. reads. Qed.

Lemma reads_only_get_batches_for_date_and_user d u :
  reads_only (get_batches_for_date_and_user d u).
Proof.
  unfold get_batches_for_date_and_user. reads.
Qed.

Lemma reads_only_get_batch_from_id d u b : reads_only (get_batch_from_id d u b).
Proof. unfold get_batch_from_id. reads. Qed.

Lemma reads_only_get_user_id_hashes_for_date d :
  reads_only (get_user_id_hashes_for_date d).
Proof.
  unfold get_user_id_hashes_for_date, get_subfolders, common_prefixes. reads.
Qed.

(** Every request but a submission leaves the whole state unchanged. *)
Lemma handle_reads_only r :
  (forall e batch, r <> PostBatch e batch) -> reads_only (handle r).
Proof.
  intros Hr. destruct r as [e batch| d u | d u b | | d |]; simpl.
  - exfalso. eapply Hr. reflexivity.
  - apply reads_only_get_batches_for_date_and_user.
  - apply reads_only_get_batch_from_id.
  - reads.
  - apply reads_only_get_user_id_hashes_for_date.
  - unfold status. reads.
Qed.

(** ** The slot [last_batch] *)

Lemma handle_last_batch r st :
  last_batch (snd (handle r st))
  = match submitted r (fst (handle r st)) with
    | Some b => Some b
    | None => last_batch st
    end.
Proof.
  destruct r as [e batch| d u | d u b | | d |];
    try (rewrite handle_reads_only by congruence; reflexivity).
  simpl. rewrite create_batch_cases.
  destruct (MAX_BATCH_SIZE <? len (items batch)); [reflexivity|].
  destruct (negb (len (user_id batch) =? USER_ID_LENGTH)); [reflexivity|].
  destruct (encode_utf8 (user_id batch)); [|reflexivity].
  cbn zeta. destruct (put_accepted e); reflexivity.
Qed.

Lemma run_last_batch rs : forall st,
  last_batch (snd (run rs st)) = last_submitted rs (fst (run rs st)) (last_batch st).
Proof.
  induction rs as [|r rs IH]; intros st; simpl; [reflexivity|].
  pose proof (handle_last_batch r st) as Hstep.
  destruct (handle r st) as [o st'] eqn:Hr. simpl in Hstep.
  specialize (IH st'). destruct (run rs st') as [os st''] eqn:Hrs.
  simpl in *. rewrite IH, Hstep. reflexivity.
Qed.

(** C8. [get_latest_batch] returns the empty list in a process that has
    handled no request, and never more than one element. After any sequence
    of requests the slot holds the [HashedBatch] of the last submission that
    returned, or what it held before if there was none: every successful
    submission overwrites it, and no other request, and no failed
    submission, touches it. In particular after a sequence that ends with a
    successful submission [get_latest_batch] returns exactly that
    submission's [HashedBatch]. *)
Theorem last_batch_is_latest_submission :
  (forall b, get_latest_batch (start b) = (Returns [], start b))
  /\ (forall st l, fst (get_latest_batch st) = Returns l -> (List.length l <= 1)%nat)
  /\ (forall r st,
        last_batch (snd (handle r st))
        = match submitted r (fst (handle r st)) with
          | Some b => Some b
          | None => last_batch st
          end)
  /\ (forall rs st,
        last_batch (snd (run rs st))
        = last_submitted rs (fst (run rs st)) (last_batch st))
  /\ (forall rs e batch st resp st',
        handle (PostBatch e batch) (snd (run rs st)) = (Returns resp, st') ->
        exists h,
          resp = ok_response h
          /\ snd (run (rs ++ [PostBatch e batch]) st) = st'
          /\ get_latest_batch st' = (Returns [batch_hashed e h batch], st')
          /\ user_id_hash (batch_hashed e h batch) = h
          /\ hb_items (batch_hashed e h batch) = items batch).
Proof.
  split; [reflexivity|].
  split.
  { intros st l H. unfold get_latest_batch in H. simpl in H.
    destruct (last_batch st); injection H as <-; simpl; lia. }
  split; [apply handle_last_batch|].
  split; [intros; apply run_last_batch|].
  intros rs e batch st resp st' Hpost.
  assert (Hrun : forall rs st0, snd (run (rs ++ [PostBatch e batch]) st0)
                 = snd (handle (PostBatch e batch) (snd (run rs st0)))).
  { clear. induction rs as [|r rs IH]; intros st0; simpl.
    - destruct (create_batch e batch st0); reflexivity.
    - destruct (handle r st0) as [o st1]. specialize (IH st1).
      destruct (run rs st1) as [os st2].
      destruct (run (rs ++ [PostBatch e batch]) st1) as [os' st3].
      simpl in *. exact IH. }
  specialize (Hrun rs st). rewrite Hpost in Hrun. simpl in Hrun.
  simpl in Hpost. rewrite create_batch_cases in Hpost.
  destruct (MAX_BATCH_SIZE <? len (items batch)); [discriminate|].
  destruct (negb (len (user_id batch) =? USER_ID_LENGTH)); [discriminate|].
  destruct (encode_utf8 (user_id batch)) as [id_bytes|]; [|discriminate].
  cbn zeta in Hpost. destruct (put_accepted e); [|discriminate].
  injection Hpost as <- <-.
  eexists. split; [reflexivity|]. split; [exact Hrun|].
  split; [reflexivity|]. split; reflexivity.
Qed.

(** ** The object key *)

Lemma valid_bounds t :
  Datetime.valid t = true ->
  1 <= year t <= 9999 /\ 1 <= month t <= 12 /\ 1 <= day t <= 31
  /\ 0 <= hour t <= 23 /\ 0 <= minute t <= 59 /\ 0 <= second t <= 59
  /\ 0 <= microsecond t <= 999999.
Proof.
  unfold Datetime.valid. rewrite !andb_true_iff, !Z.leb_le.
  intros [[[[[[[[[[[[[? ?] ?] ?] ?] Hd] ?] ?] ?] ?] ?] ?] ?] ?].
  assert (days_in_month (year t) (month t) <= 31).
  { unfold days_in_month.
    destruct ((month t =? 2) && is_leap (year t)); [lia|].
    assert (Hm : month t = 1 \/ month t = 2 \/ month t = 3 \/ month t = 4
                 \/ month t = 5 \/ month t = 6 \/ month t = 7 \/ month t = 8
                 \/ month t = 9 \/ month t = 10 \/ month t = 11 \/ month t = 12) by lia.
    repeat (destruct Hm as [-> | Hm]; [simpl; lia|]). rewrite Hm. simpl. lia. }
  lia.
Qed.

(** [(now - midnight).seconds] is the second of the day. *)
Lemma seconds_of_day t :
  Datetime.valid t = true ->
  seconds (sub t (midnight t)) = seconds_since_midnight t
  /\ 0 <= seconds_since_midnight t <= 86399.
Proof.
  intros Hv. apply valid_bounds in Hv.
  unfold sub, midnight, new_timedelta, seconds_since_midnight.
  cbn [seconds year month day hour minute second microsecond].
  assert (Hus : (microsecond t - 0) / 1000000 = 0) by (apply Z.div_small; lia).
  rewrite Hus. split; [|lia]. rewrite Z.mod_small; lia.
Qed.

Lemma date_str_iso t : Datetime.valid t = true -> date_str t = iso_date t.
Proof.
  intros Hv. apply valid_bounds in Hv. unfold date_str, iso_date.
  assert (Hy : fmt_0d 4 (year t) = fixed_digits 10 4 (year t)).
  { apply (zfill_digits 10 4); [lia | lia |]. change (10 ^ Z.of_nat 4) with 10000. lia. }
  assert (Hm : fmt_0d 2 (month t) = fixed_digits 10 2 (month t)).
  { apply (zfill_digits 10 2); [lia | lia |]. change (10 ^ Z.of_nat 2) with 100. lia. }
  assert (Hd : fmt_0d 2 (day t) = fixed_digits 10 2 (day t)).
  { apply (zfill_digits 10 2); [lia | lia |]. change (10 ^ Z.of_nat 2) with 100. lia. }
  rewrite Hy, Hm, Hd. reflexivity.
Qed.

Lemma padded_seconds_fixed n :
  0 <= n <= 86399 -> zfill 5 (str_of_int n) = fixed_digits 10 5 n.
Proof.
  intros Hn. unfold str_of_int. destruct (n <? 0) eqn:E; [lia|].
  apply (zfill_digits 10 5); [lia | lia |].
  change (10 ^ Z.of_nat 5) with 100000. lia.
Qed.

Lemma int_from_bytes_bound b :
  Forall (fun x => 0 <= x <= 255) b ->
  0 <= Uuid.int_from_bytes b < 256 ^ Z.of_nat (List.length b).
Proof.
  unfold Uuid.int_from_bytes. intros Hb.
  enough (forall acc, 0 <= acc ->
            0 <= fold_left (fun acc x => acc * 256 + x) b acc
            < (acc + 1) * 256 ^ Z.of_nat (List.length b)) as H.
  { specialize (H 0 ltac:(lia)). lia. }
  induction Hb as [|x b Hx Hb IH]; intros acc Hacc; simpl fold_left.
  - simpl. lia.
  - specialize (IH (acc * 256 + x) ltac:(lia)).
    change (List.length (x :: b)) with (S (List.length b)).
    rewrite Nat2Z.inj_succ, Z.pow_succ_r by lia.
    assert (0 < 256 ^ Z.of_nat (List.length b)) by (apply Z.pow_pos_nonneg; lia).
    nia.
Qed.

Lemma land_lnot_bound a m n : 0 <= a < n -> 0 <= Z.land a (Z.lnot m) < n.
Proof.
  intros Ha. rewrite <- Z.sub_land_same_l.
  assert (0 <= Z.land a m) by (apply Z.land_nonneg; lia).
  assert (0 <= Z.land a (Z.lnot m)) by (apply Z.land_nonneg; lia).
  rewrite <- Z.sub_land_same_l in H0. lia.
Qed.

Lemma lor_bound a b n :
  0 <= n -> 0 <= a < 2 ^ n -> 0 <= b < 2 ^ n -> 0 <= Z.lor a b < 2 ^ n.
Proof.
  intros Hn Ha Hb.
  assert (H0 : 0 <= Z.lor a b) by (apply Z.lor_nonneg; lia).
  split; [exact H0|].
  destruct (Z.eq_dec (Z.lor a b) 0) as [->|Hne]; [lia|].
  assert (0 < n).
  { destruct (Z.eq_dec n 0) as [->|]; [|lia].
    assert (a = 0) by (simpl in Ha; lia). assert (b = 0) by (simpl in Hb; lia).
    subst. exfalso. exact (Hne eq_refl). }
  apply Z.log2_lt_pow2; [lia|]. rewrite Z.log2_lor by lia.
  apply Z.max_lub_lt.
  - destruct (Z.eq_dec a 0) as [->|]; [simpl; lia|]. apply Z.log2_lt_pow2; lia.
  - destruct (Z.eq_dec b 0) as [->|]; [simpl; lia|]. apply Z.log2_lt_pow2; lia.
Qed.

Lemma uuid4_bound r :
  List.length r = 16%nat -> forallb is_byte r = true ->
  0 <= Uuid.uuid4 r < 2 ^ 128.
Proof.
  intros Hlen Hb.
  assert (Hi : 0 <= Uuid.int_from_bytes r < 2 ^ 128).
  { pose proof (int_from_bytes_bound r) as H. rewrite Hlen in H. apply H.
    apply Forall_forall. intros x Hx. rewrite forallb_forall in Hb.
    apply list_elem_of_In, Hb in Hx. unfold is_byte in Hx. lia. }
  unfold Uuid.uuid4.
  assert (Hconst : forall c, (0 <=? c) && (c <? 2 ^ 128) = true -> 0 <= c < 2 ^ 128).
  { intros c Hc. apply andb_true_iff in Hc as [H1 H2].
    apply Z.leb_le in H1. apply Z.ltb_lt in H2. split; assumption. }
  apply lor_bound; [lia | | apply Hconst; reflexivity].
  apply land_lnot_bound.
  apply lor_bound; [lia | | apply Hconst; reflexivity].
  apply land_lnot_bound. exact Hi.
Qed.

(** The first eight characters of [str(u)] are the eight leading
    hexadecimal digits of [u]. *)
Lemma uuid_head u :
  0 <= u < 2 ^ 128 ->
  slice_to (Uuid.to_str u) 8 = fixed_digits 16 8 (u / 2 ^ 96).
Proof.
  intros Hu. unfold Uuid.to_str, fmt_0x.
  assert (Hhex : zfill 32 (digits 16 u) = fixed_digits 16 32 u).
  { apply (zfill_digits 16 32); [lia | lia |].
    change (16 ^ Z.of_nat 32) with (2 ^ 128). exact Hu. }
  rewrite Hhex. unfold slice_to. change (Z.to_nat 8) with 8%nat.
  set (hex := fixed_digits 16 32 u).
  assert (Hlen : List.length (firstn 8 hex) = 8%nat).
  { rewrite length_firstn. unfold hex. rewrite length_fixed_digits. lia. }
  rewrite <- Hlen at 1. rewrite firstn_length_app.
  unfold hex. change 32%nat with (8 + 24)%nat.
  rewrite firstn_fixed_digits by lia. reflexivity.
Qed.

(** The shape of the key, field by field. *)
Lemma batch_filename_shape e public_id :
  valid_env e = true ->
  let secs := seconds_since_midnight (now e) in
  let u := Uuid.uuid4 (urandom16 e) in
  let rand8 := slice_to (Uuid.to_str u) 8 in
  batch_filename e public_id
  = lit "1/v1/" ++ iso_date (now e) ++ lit "/1/" ++ public_id ++ lit "/"
    ++ fixed_digits 10 5 secs ++ lit "__" ++ rand8 ++ lit ".json.gz"
  /\ secs = seconds (sub (now e) (midnight (now e)))
  /\ 0 <= secs <= 86399
  /\ 0 <= u < 2 ^ 128
  /\ rand8 = fixed_digits 16 8 (u / 2 ^ 96).
Proof.
  intros Hv secs u rand8.
  unfold valid_env in Hv. rewrite !andb_true_iff in Hv.
  destruct Hv as [[Hnow Hlen] Hbytes]. apply Nat.eqb_eq in Hlen.
  destruct (seconds_of_day (now e) Hnow) as [Hsecs Hrange].
  pose proof (uuid4_bound _ Hlen Hbytes) as Hu. fold u in Hu.
  split.
  { unfold batch_filename. cbv zeta. rewrite Hsecs, date_str_iso by exact Hnow.
    rewrite padded_seconds_fixed by exact Hrange. reflexivity. }
  split; [symmetry; exact Hsecs|].
  split; [exact Hrange|].
  split; [exact Hu|].
  apply uuid_head, Hu.
Qed.

(** C3. The key under which a submission is stored is
    [1/v1/{YYYY-MM-DD}/1/{public_id}/{SSSSS}__{rand8}.json.gz]: the date is
    the UTC date of [now] in four, two and two decimal digits; [SSSSS] is
    the number of seconds since midnight of that date, at most 86399, in
    exactly five decimal digits; [rand8] is the first eight characters of
    the string form of the 128-bit identifier [uuid4()], eight lowercase
    hexadecimal digits. A submission that returns has written its data
    under that key, with the returned public identifier in it. *)
Theorem batch_filename_form e public_id :
  valid_env e = true ->
  let secs := seconds_since_midnight (now e) in
  let u := Uuid.uuid4 (urandom16 e) in
  let rand8 := slice_to (Uuid.to_str u) 8 in
  batch_filename e public_id
  = lit "1/v1/" ++ iso_date (now e) ++ lit "/1/" ++ public_id ++ lit "/"
    ++ fixed_digits 10 5 secs ++ lit "__" ++ rand8 ++ lit ".json.gz"
  /\ List.length (iso_date (now e)) = 10%nat
  /\ secs = seconds (sub (now e) (midnight (now e)))
  /\ 0 <= secs <= 86399
  /\ List.length (fixed_digits 10 5 secs) = 5%nat
  /\ Forall (fun c => is_digit c = true) (fixed_digits 10 5 secs)
  /\ 0 <= u < 2 ^ 128
  /\ rand8 = fixed_digits 16 8 (u / 2 ^ 96)
  /\ List.length rand8 = 8%nat
  /\ Forall (fun c => is_lower_hex c = true) rand8
  /\ forall batch st r st',
       create_batch e batch st = (Returns r, st') ->
       exists h data,
         r = ok_response h
         /\ bucket st' = <[batch_filename e h := data]> (bucket st).
Proof.
  intros Hv secs u rand8.
  destruct (batch_filename_shape e public_id Hv) as (Hkey & Hsecs & Hrange & Hu & Hrand).
  fold secs in Hkey, Hsecs, Hrange. fold u in Hu, Hrand. fold rand8 in Hkey, Hrand.
  split; [exact Hkey|].
  split.
  { unfold iso_date. rewrite !length_app, !length_fixed_digits. reflexivity. }
  split; [exact Hsecs|].
  split; [exact Hrange|].
  split; [apply length_fixed_digits|].
  split; [apply fixed_digits_dec|].
  split; [exact Hu|].
  split; [exact Hrand|].
  split; [rewrite Hrand; apply length_fixed_digits|].
  split; [rewrite Hrand; apply fixed_digits_hex|].
  intros batch st r st' Hrun. rewrite create_batch_cases in Hrun.
  destruct (MAX_BATCH_SIZE <? len (items batch)); [discriminate|].
  destruct (negb (len (user_id batch) =? USER_ID_LENGTH)); [discriminate|].
  destruct (encode_utf8 (user_id batch)) as [id_bytes|]; [|discriminate].
  cbn zeta in Hrun. destruct (put_accepted e); [|discriminate].
  injection Hrun as <- <-. eexists. eexists. split; reflexivity.
Qed.

(** ** Listing *)

Lemma in_keys (k : str) (b : gmap str bytes) : In k (keys b) <-> is_Some (b !! k).
Proof.
  unfold keys. rewrite in_sorted, in_map_iff. split.
  - intros [[k' v] [<- H]]. apply list_elem_of_In, elem_of_map_to_list in H.
    simpl. eauto.
  - intros [v H]. exists (k, v). split; [reflexivity|].
    apply list_elem_of_In, elem_of_map_to_list. exact H.
Qed.

Lemma in_listed k prefix st :
  In k (listed prefix st)
  <-> is_Some (bucket st !! k) /\ exists rest, k = prefix ++ rest.
Proof.
  unfold listed. rewrite filter_In, in_keys, startswith_iff. reflexivity.
Qed.

Lemma basename_app dir name :
  Forall (fun c => c <> 47) name -> basename (dir ++ 47 :: name) = name.
Proof. intros H. unfold basename. rewrite rsplit1_app by exact H. reflexivity. Qed.

Lemma key_file_name_slash k :
  In 47 k -> key_file_name k = Returns (basename k).
Proof.
  intros Hin. unfold key_file_name, basename.
  destruct (rsplit1_shape 47 k) as [[_ Hno] | (hd & tl & -> & _ & _)]; [|reflexivity].
  exfalso. rewrite Forall_forall in Hno.
  apply (Hno 47); [apply list_elem_of_In; exact Hin | reflexivity].
Qed.

Lemma key_file_name_app dir name :
  Forall (fun c => c <> 47) name -> key_file_name (dir ++ 47 :: name) = Returns name.
Proof. intros H. unfold key_file_name. rewrite rsplit1_app by exact H. reflexivity. Qed.

Lemma map_outcome_returns {A B} (f : A -> outcome B) (g : A -> B) l :
  (forall x, In x l -> f x = Returns (g x)) ->
  map_outcome f l = Returns (List.map g l).
Proof.
  induction l as [|x l IH]; intros H; simpl; [reflexivity|].
  rewrite (H x) by (left; reflexivity).
  rewrite IH by (intros y Hy; apply H; right; exact Hy). reflexivity.
Qed.

Lemma map_outcome_raises {A B} (f : A -> outcome B) e l :
  (forall x, In x l -> f x = Raises e \/ exists y, f x = Returns y) ->
  (exists x, In x l /\ f x = Raises e) ->
  map_outcome f l = Raises e.
Proof.
  induction l as [|x l IH]; intros Hall [x0 [Hin Hx0]]; [destruct Hin|].
  simpl. destruct (Hall x (or_introl eq_refl)) as [-> | [y Hy]]; [reflexivity|].
  rewrite Hy. rewrite IH; [reflexivity | |].
  - intros z Hz. apply Hall. right. exact Hz.
  - destruct Hin as [-> | Hin]; [congruence|]. exists x0. auto.
Qed.

Lemma get_batch_id_suffix name :
  endswith name FILE_NAME_SUFFIX = true ->
  exists id, name = id ++ FILE_NAME_SUFFIX
             /\ id = firstn (List.length name - 8) name
             /\ get_batch_id_from_file_name name = Returns id.
Proof.
  intros H. unfold get_batch_id_from_file_name. rewrite H. simpl negb. cbv iota.
  apply endswith_iff in H as [id ->]. exists id.
  split; [reflexivity|]. rewrite slice_to_neg_app.
  split; [|reflexivity].
  rewrite length_app. change (List.length FILE_NAME_SUFFIX) with 8%nat.
  replace (List.length id + 8 - 8)%nat with (List.length id) by lia.
  symmetry. apply firstn_length_app.
Qed.

Lemma get_batch_id_no_suffix name :
  endswith name FILE_NAME_SUFFIX = false ->
  get_batch_id_from_file_name name = Raises AssertionError.
Proof. intros H. unfold get_batch_id_from_file_name. rewrite H. reflexivity. Qed.

(** [get_batches_for_prefix] for a prefix with a slash in it: every key
    listed has a file name, and the outcome is that of taking the batch
    identifier of each name in sorted order. *)
Lemma get_batches_for_prefix_cases prefix st :
  In 47 prefix ->
  get_batches_for_prefix prefix st
  = (match map_outcome get_batch_id_from_file_name
             (sorted (List.map basename (listed prefix st))) with
     | Returns ids => Returns (batch_ids_response ids)
     | Raises e => Raises e
     end, st).
Proof.
  intros Hslash. unfold get_batches_for_prefix, bind, objects_filter, lift.
  fold (listed prefix st).
  rewrite (map_outcome_returns key_file_name basename).
  - destruct (map_outcome _ _); reflexivity.
  - intros k Hk. apply key_file_name_slash.
    apply in_listed in Hk as [_ [rest ->]]. apply in_or_app. left. exact Hslash.
Qed.

Lemma batches_prefix_slash d u : In 47 (batches_prefix d u).
Proof. unfold batches_prefix. simpl. right. left. reflexivity. Qed.

Lemma get_batches_for_date_and_user_cases d u st :
  check_date_str d = Returns tt -> check_public_user_id u = Returns tt ->
  get_batches_for_date_and_user d u st
  = (match map_outcome get_batch_id_from_file_name
             (sorted (List.map basename (listed (batches_prefix d u) st))) with
     | Returns ids => Returns (batch_ids_response ids)
     | Raises e => Raises e
     end, st).
Proof.
  intros Hd Hu. unfold get_batches_for_date_and_user, bind, lift.
  rewrite Hd, Hu. fold (batches_prefix d u).
  apply get_batches_for_prefix_cases, batches_prefix_slash.
Qed.

Lemma digit_not_slash c : is_lower_hex c = true -> c <> 47.
Proof. unfold is_lower_hex, is_digit. lia. Qed.

Lemma batch_file_name_no_slash e :
  valid_env e = true -> Forall (fun c => c <> 47) (batch_file_name e).
Proof.
  intros Hv.
  destruct (batch_filename_shape e [] Hv) as (_ & _ & _ & _ & Hr).
  pose proof (fixed_digits_dec 5 (seconds_since_midnight (now e))) as Hs.
  pose proof (fixed_digits_hex 8 (Uuid.uuid4 (urandom16 e) / 2 ^ 96)) as Hr'.
  rewrite <- Hr in Hr'. clear Hr. rename Hr' into Hr.
  unfold batch_file_name.
  apply Forall_app. split.
  { eapply Forall_impl; [exact Hs|]. intros c Hc. simpl in Hc.
    apply digit_not_slash, digit_is_lower_hex, Hc. }
  apply Forall_app. split; [repeat constructor; discriminate|].
  apply Forall_app. split; [|repeat constructor; discriminate].
  eapply Forall_impl; [exact Hr|]. intros c Hc. apply digit_not_slash, Hc.
Qed.

Lemma batch_filename_split e h :
  valid_env e = true ->
  batch_filename e h
  = (lit "1/v1/" ++ iso_date (now e) ++ lit "/1/" ++ h) ++ 47 :: batch_file_name e.
Proof.
  intros Hv. destruct (batch_filename_shape e h Hv) as (-> & _).
  unfold batch_file_name. rewrite <- !app_assoc. reflexivity.
Qed.

(** C10. [get_batch_id_from_file_name] asserts the suffix [.json.gz]: on
    a name that ends with it, it returns the name without its last eight
    characters; on any other name it raises [AssertionError]. For a listing
    with a well-formed date and public identifier: if the file name of
    every key listed ends with the suffix, the listing returns; if the file
    name of some key listed does not, the listing raises [AssertionError]
    and returns nothing. The file name of every key written by a submission
    ends with the suffix. *)
Theorem listing_asserts_suffix :
  (forall name,
     endswith name FILE_NAME_SUFFIX = true ->
     exists id, name = id ++ FILE_NAME_SUFFIX
                /\ id = firstn (List.length name - 8) name
                /\ get_batch_id_from_file_name name = Returns id)
  /\ (forall name,
        endswith name FILE_NAME_SUFFIX = false ->
        get_batch_id_from_file_name name = Raises AssertionError)
  /\ (forall d u st,
        check_date_str d = Returns tt -> check_public_user_id u = Returns tt ->
        ((forall k, In k (listed (batches_prefix d u) st) ->
                    endswith (basename k) FILE_NAME_SUFFIX = true) ->
         exists ids, get_batches_for_date_and_user d u st
                     = (Returns (batch_ids_response ids), st))
        /\ ((exists k, In k (listed (batches_prefix d u) st)
                       /\ endswith (basename k) FILE_NAME_SUFFIX = false) ->
            get_batches_for_date_and_user d u st = (Raises AssertionError, st)))
  /\ (forall e h,
        valid_env e = true ->
        exists name, key_file_name (batch_filename e h) = Returns name
                     /\ basename (batch_filename e h) = name
                     /\ endswith name FILE_NAME_SUFFIX = true).
Proof.
  split; [exact get_batch_id_suffix|].
  split; [exact get_batch_id_no_suffix|].
  split.
  - intros d u st Hd Hu.
    rewrite (get_batches_for_date_and_user_cases d u st Hd Hu). split.
    + intros Hall.
      rewrite (map_outcome_returns _ (fun n => slice_to_neg n (len FILE_NAME_SUFFIX))).
      * eexists. reflexivity.
      * intros n Hn. apply in_sorted, in_map_iff in Hn as (k & <- & Hk).
        unfold get_batch_id_from_file_name. rewrite (Hall k Hk). reflexivity.
    + intros (k & Hk & Hbad).
      rewrite (map_outcome_raises _ AssertionError); [reflexivity | |].
      * intros n _. unfold get_batch_id_from_file_name.
        destruct (endswith n FILE_NAME_SUFFIX); simpl; eauto.
      * exists (basename k). split.
        -- apply in_sorted, in_map. exact Hk.
        -- apply get_batch_id_no_suffix, Hbad.
  - intros e h Hv. exists (batch_file_name e).
    rewrite (batch_filename_split e h Hv).
    pose proof (batch_file_name_no_slash e Hv) as Hno.
    split; [apply key_file_name_app, Hno|].
    split; [apply basename_app, Hno|].
    unfold batch_file_name. rewrite !app_assoc. apply endswith_app.
Qed.

(** ** The order of a listing *)

Lemma strip_suffix_app id : strip_suffix (id ++ FILE_NAME_SUFFIX) = id.
Proof.
  unfold strip_suffix. rewrite length_app.
  change (List.length FILE_NAME_SUFFIX) with 8%nat.
  replace (List.length id + 8 - 8)%nat with (List.length id) by lia.
  apply firstn_length_app.
Qed.

(** Names of one length that all carry the suffix keep their order when
    the suffix is taken away. *)
Lemma strip_suffix_sorted names :
  StronglySorted str_le names ->
  (forall n, In n names -> endswith n FILE_NAME_SUFFIX = true) ->
  (forall a b, In a names -> In b names -> List.length a = List.length b) ->
  StronglySorted str_le (List.map strip_suffix names).
Proof.
  induction 1 as [|n names Hs IH Hn]; intros Hsuf Hlen; simpl; [constructor|].
  constructor.
  - apply IH; intros; [apply Hsuf | apply Hlen]; simpl; auto.
  - apply Forall_forall. intros x Hx.
    apply list_elem_of_In, in_map_iff in Hx as (m & <- & Hm).
    rewrite Forall_forall in Hn. specialize (Hn m (proj2 (list_elem_of_In _ _) Hm)).
    pose proof (Hsuf n (or_introl eq_refl)) as Hn1.
    pose proof (Hsuf m (or_intror Hm)) as Hm1.
    apply endswith_iff in Hn1 as [i ->]. apply endswith_iff in Hm1 as [j ->].
    rewrite !strip_suffix_app.
    specialize (Hlen (i ++ FILE_NAME_SUFFIX) (j ++ FILE_NAME_SUFFIX)
                  (or_introl eq_refl) (or_intror Hm)).
    rewrite !length_app in Hlen.
    unfold str_le, str_leb in *.
    rewrite str_ltb_common_suffix in Hn by lia. exact Hn.
Qed.

(** The listing when every file name listed carries the suffix. *)
Lemma listing_returns_names d u st :
  check_date_str d = Returns tt ->
  check_public_user_id u = Returns tt ->
  (forall k, In k (listed (batches_prefix d u) st) ->
             endswith (basename k) FILE_NAME_SUFFIX = true) ->
  get_batches_for_date_and_user d u st
  = (Returns (batch_ids_response
                (List.map strip_suffix
                   (sorted (List.map basename (listed (batches_prefix d u) st))))),
     st).
Proof.
  intros Hd Hu Hall.
  rewrite (get_batches_for_date_and_user_cases d u st Hd Hu).
  rewrite (map_outcome_returns _ strip_suffix); [reflexivity|].
  intros n Hn. apply in_sorted, in_map_iff in Hn as (k & <- & Hk).
  destruct (get_batch_id_suffix _ (Hall k Hk)) as (id & _ & -> & H). exact H.
Qed.

(** *** The order of the seconds in the file names *)

Lemma str_ltb_common_prefix p a b : str_ltb (p ++ a) (p ++ b) = str_ltb a b.
Proof.
  induction p as [|x p IH]; [reflexivity|].
  change (((x <? x) || ((x =? x) && str_ltb (p ++ a) (p ++ b))) = str_ltb a b).
  rewrite Z.ltb_irrefl, Z.eqb_refl. exact IH.
Qed.

(** Of two strings of one length, the smaller stays the smaller whatever
    is written after them. *)
Lemma str_ltb_app_tails p q x y :
  List.length p = List.length q ->
  str_ltb p q = true -> str_ltb (p ++ x) (q ++ y) = true.
Proof.
  revert q. induction p as [|a p IH]; intros [|b q] Hlen H; simpl in *;
    try discriminate.
  injection Hlen as Hlen.
  destruct (a <? b); [reflexivity|]. simpl in *.
  destruct (a =? b); [|discriminate]. simpl in *. apply IH; assumption.
Qed.

(** Fixed-width decimal fields compare as the numbers they spell. *)
Lemma fixed_digits_lt w a b :
  0 <= a < b -> b < 10 ^ Z.of_nat w ->
  str_ltb (fixed_digits 10 w a) (fixed_digits 10 w b) = true.
Proof.
  revert a b. induction w as [|w IH]; intros a b Hab Hb.
  - simpl in Hb. lia.
  - cbn [fixed_digits].
    rewrite Nat2Z.inj_succ, Z.pow_succ_r in Hb by lia.
    assert (Hqa : 0 <= a / 10) by (apply Z.div_pos; lia).
    assert (Hq : a / 10 <= b / 10) by (apply Z.div_le_mono; lia).
    assert (Hqb : b / 10 < 10 ^ Z.of_nat w) by (apply Z.div_lt_upper_bound; lia).
    pose proof (Z.mod_pos_bound a 10 ltac:(lia)) as Hma.
    pose proof (Z.mod_pos_bound b 10 ltac:(lia)) as Hmb.
    destruct (Z.eq_dec (a / 10) (b / 10)) as [Heq|Hne].
    + rewrite Heq, str_ltb_common_prefix. simpl.
      assert (Hlt : a mod 10 < b mod 10).
      { pose proof (Z.div_mod a 10 ltac:(lia)). pose proof (Z.div_mod b 10 ltac:(lia)). lia. }
      unfold digit_char.
      destruct (a mod 10 <? 10) eqn:Ea, (b mod 10 <? 10) eqn:Eb; lia.
    + apply str_ltb_app_tails; [rewrite !length_fixed_digits; reflexivity|].
      apply IH; lia.
Qed.

(** The file names of two submissions are in the order of their seconds
    of the day, whatever their random parts. *)
Lemma batch_file_name_order e1 e2 :
  valid_env e1 = true -> valid_env e2 = true ->
  str_le (batch_file_name e1) (batch_file_name e2) ->
  seconds_since_midnight (now e1) <= seconds_since_midnight (now e2).
Proof.
  intros H1 H2 Hle.
  assert (Hn1 : Datetime.valid (now e1) = true).
  { unfold valid_env in H1. rewrite !andb_true_iff in H1.
    destruct H1 as [[H1 _] _]. exact H1. }
  assert (Hn2 : Datetime.valid (now e2) = true).
  { unfold valid_env in H2. rewrite !andb_true_iff in H2.
    destruct H2 as [[H2 _] _]. exact H2. }
  destruct (seconds_of_day _ Hn1) as [_ Hs1].
  destruct (seconds_of_day _ Hn2) as [_ Hs2].
  destruct (Z_le_gt_dec (seconds_since_midnight (now e1))
              (seconds_since_midnight (now e2))) as [Hok|Hgt]; [exact Hok|].
  exfalso. unfold str_le, str_leb, batch_file_name in Hle.
  rewrite str_ltb_app_tails in Hle; [discriminate | |].
  - rewrite !length_fixed_digits. reflexivity.
  - apply fixed_digits_lt; [lia|]. change (10 ^ Z.of_nat 5) with 100000. lia.
Qed.

Lemma batch_file_name_suffix e :
  batch_file_name e = batch_id_of e ++ FILE_NAME_SUFFIX.
Proof. unfold batch_file_name, batch_id_of. rewrite <- !app_assoc. reflexivity. Qed.

(** The identifiers of a listing of keys that submissions built are the
    identifiers of submissions in the order of their seconds of the day. *)
Lemma submission_names_by_second names :
  StronglySorted str_le names ->
  (forall n, In n names -> exists e, valid_env e = true /\ n = batch_file_name e) ->
  exists es,
    Forall (fun e => valid_env e = true) es
    /\ names = List.map batch_file_name es
    /\ List.map strip_suffix names = List.map batch_id_of es
    /\ StronglySorted
         (fun e1 e2 => seconds_since_midnight (now e1)
                       <= seconds_since_midnight (now e2)) es.
Proof.
  induction 1 as [|n names Hs IH Hn]; intros Hall.
  - exists []. repeat split; constructor.
  - destruct IH as (es & Hes & Hnames & Hids & Hsorted).
    { intros m Hm. apply Hall. right. exact Hm. }
    destruct (Hall n (or_introl eq_refl)) as (e & He & Hne).
    exists (e :: es). split; [constructor; assumption|].
    split; [simpl; congruence|].
    split.
    { simpl. rewrite Hids, Hne, batch_file_name_suffix, strip_suffix_app. reflexivity. }
    constructor; [exact Hsorted|].
    apply Forall_forall. intros e' He'.
    rewrite Forall_forall in Hes. pose proof (Hes e' He') as Hv'.
    apply batch_file_name_order; [exact He | exact Hv' |].
    rewrite Forall_forall in Hn. rewrite <- Hne. apply Hn.
    rewrite Hnames. apply list_elem_of_In, in_map, list_elem_of_In, He'.
Qed.

(** C6, as amended. For a well-formed date and a 64-character public
    identifier, and when every file name listed ends with [.json.gz], the
    listing returns, for the keys of the bucket that start with
    [1/v1/{date}/1/{public_id}/], the file name of each key (what follows
    its last slash, which is the key without the prefix when nothing but
    the file name follows the prefix) without the suffix, in the order of
    the sorted file names. When the file names all have one length, as
    those written by submissions do, the identifiers returned are
    themselves in lexicographic order. When the keys listed are keys that
    submissions built, the identifiers returned are those of submissions
    taken in the order of their second of the day, which never decreases
    along the list: the order is that of time up to the second, and within
    one second it is the order of the random parts. *)
Theorem listing_returns_sorted_names d u st :
  check_date_str d = Returns tt ->
  check_public_user_id u = Returns tt ->
  (forall k, In k (listed (batches_prefix d u) st) ->
             endswith (basename k) FILE_NAME_SUFFIX = true) ->
  let names := sorted (List.map basename (listed (batches_prefix d u) st)) in
  get_batches_for_date_and_user d u st
  = (Returns (batch_ids_response (List.map strip_suffix names)), st)
  /\ (forall k, In k (listed (batches_prefix d u) st)
                <-> is_Some (bucket st !! k)
                    /\ exists rest, k = batches_prefix d u ++ rest)
  /\ (forall rest, Forall (fun c => c <> 47) rest ->
                   basename (batches_prefix d u ++ rest) = rest)
  /\ Permutation names (List.map basename (listed (batches_prefix d u) st))
  /\ StronglySorted str_le names
  /\ ((forall a b, In a names -> In b names -> List.length a = List.length b) ->
      StronglySorted str_le (List.map strip_suffix names))
  /\ ((forall k, In k (listed (batches_prefix d u) st) -> submission_key k) ->
      exists es,
        Forall (fun e => valid_env e = true) es
        /\ List.map strip_suffix names = List.map batch_id_of es
        /\ StronglySorted
             (fun e1 e2 => seconds_since_midnight (now e1)
                           <= seconds_since_midnight (now e2)) es).
Proof.
  intros Hd Hu Hall names.
  assert (Hsuf : forall n, In n names -> endswith n FILE_NAME_SUFFIX = true).
  { intros n Hn. apply in_sorted, in_map_iff in Hn as (k & <- & Hk). auto. }
  split; [apply listing_returns_names; assumption|].
  split; [intros k; apply in_listed|].
  split.
  { intros rest Hrest.
    replace (batches_prefix d u ++ rest)
      with ((lit "1/" ++ VERSION ++ lit "/" ++ d ++ lit "/1/" ++ u) ++ 47 :: rest).
    - apply basename_app, Hrest.
    - unfold batches_prefix. rewrite <- !app_assoc. reflexivity. }
  split; [apply sorted_perm|].
  split; [apply sorted_sorted|].
  split.
  { intros Hlen.
    apply strip_suffix_sorted; [apply sorted_sorted | exact Hsuf | exact Hlen]. }
  intros Hkeys.
  destruct (submission_names_by_second names (sorted_sorted _))
    as (es & Hes & _ & Hids & Hsorted).
  { intros n Hn. apply in_sorted, in_map_iff in Hn as (k & <- & Hk).
    destruct (Hkeys k Hk) as (e & h & Hv & ->). exists e. split; [exact Hv|].
    rewrite (batch_filename_split e h Hv).
    apply basename_app, batch_file_name_no_slash, Hv. }
  exists es. auto.
Qed.

(** ** Dates *)

Lemma consume_date_is_prefix s rest :
  Re.consume DATE_REGEX s = Some rest ->
  exists d, s = d ++ rest /\ List.length d = 10%nat
            /\ Re.consume DATE_REGEX d = Some [].
Proof.
  unfold DATE_REGEX. cbn [Re.consume].
  destruct s as [|c0 [|c1 [|c2 [|c3 [|c4 [|c5 [|c6 [|c7 [|c8 [|c9 s]]]]]]]]]];
    repeat match goal with
      | |- context [if ?b then _ else _] => destruct b eqn:?; try discriminate
      end; try discriminate.
  intros [= <-]. exists [c0; c1; c2; c3; c4; c5; c6; c7; c8; c9].
  split; [reflexivity|]. split; [reflexivity|].
  repeat match goal with H : _ = true |- _ => rewrite H; clear H end.
  reflexivity.
Qed.

Lemma consume_date_app d rest :
  Re.consume DATE_REGEX d = Some [] ->
  Re.consume DATE_REGEX (d ++ rest) = Some rest.
Proof.
  unfold DATE_REGEX. cbn [Re.consume].
  destruct d as [|c0 [|c1 [|c2 [|c3 [|c4 [|c5 [|c6 [|c7 [|c8 [|c9 s]]]]]]]]]];
    cbn [app];
    repeat match goal with
      | |- context [if ?b then _ else _] => destruct b eqn:?; try discriminate
      end; try discriminate.
  intros [= ->]. reflexivity.
Qed.

(** The strings the pattern matches as a whole: four digits, a hyphen, two
    digits, a hyphen, two digits. *)
Lemma fullmatch_date_form s :
  Re.fullmatch DATE_REGEX s = true
  <-> exists y1 y2 y3 y4 m1 m2 d1 d2,
        s = [y1; y2; y3; y4; 45; m1; m2; 45; d1; d2]
        /\ forallb Re.is_decimal_digit [y1; y2; y3; y4; m1; m2; d1; d2] = true.
Proof.
  unfold Re.fullmatch. split.
  - destruct (Re.consume DATE_REGEX s) as [[|]|] eqn:E; try discriminate.
    intros _. revert E. unfold DATE_REGEX. cbn [Re.consume].
    destruct s as [|c0 [|c1 [|c2 [|c3 [|c4 [|c5 [|c6 [|c7 [|c8 [|c9 s]]]]]]]]]];
      repeat match goal with
        | |- context [if ?b then _ else _] => destruct b eqn:?; try discriminate
        end; try discriminate.
    intros [= ->].
    repeat match goal with H : (_ =? 45) = true |- _ => apply Z.eqb_eq in H; subst end.
    do 8 eexists. split; [reflexivity|]. cbn [forallb].
    repeat match goal with H : Re.is_decimal_digit _ = true |- _ => rewrite H; clear H end.
    reflexivity.
  - intros (y1 & y2 & y3 & y4 & m1 & m2 & d1 & d2 & -> & H).
    cbn [forallb] in H. rewrite !andb_true_iff in H.
    destruct H as (H1 & H2 & H3 & H4 & H5 & H6 & H7 & H8 & _).
    unfold DATE_REGEX. cbn [Re.consume].
    rewrite H1, H2, H3, H4. cbn [Z.eqb Pos.eqb]. rewrite H5, H6.
    cbn [Z.eqb Pos.eqb]. rewrite H7, H8. reflexivity.
Qed.

(** What [check_date_str] accepts: the strings that begin with ten
    characters of the form [\d{4}-\d{2}-\d{2}], whatever follows. Anything
    else raises the exception with status 400. *)
Lemma check_date_str_accepts s :
  check_date_str s = Returns tt
  <-> exists d rest, s = d ++ rest /\ Re.fullmatch DATE_REGEX d = true.
Proof.
  unfold check_date_str, Re.match_, Re.fullmatch. split.
  - destruct (Re.consume DATE_REGEX s) as [rest|] eqn:E; [|discriminate].
    intros _. destruct (consume_date_is_prefix s rest E) as (d & -> & _ & Hd).
    exists d, rest. rewrite Hd. auto.
  - intros (d & rest & -> & H).
    destruct (Re.consume DATE_REGEX d) as [[|]|] eqn:E; try discriminate.
    rewrite (consume_date_app d rest E). reflexivity.
Qed.

Lemma check_date_str_rejects s :
  check_date_str s <> Returns tt ->
  check_date_str s
  = Raises (HTTPException 400 (lit "Incorrect date format, should be YYYY-MM-DD")).
Proof.
  unfold check_date_str. destruct (Re.match_ DATE_REGEX s); simpl; congruence.
Qed.

(** X6. A date that [check_date_str] rejects is rejected by the three
    handlers that take one, with status 400, before any look at the store
    and with the state unchanged. *)
Lemma rejected_date_everywhere s u b st :
  check_date_str s <> Returns tt ->
  let bad := Raises (HTTPException 400
                       (lit "Incorrect date format, should be YYYY-MM-DD")) in
  get_batches_for_date_and_user s u st = (bad, st)
  /\ get_user_id_hashes_for_date s st = (bad, st)
  /\ get_batch_from_id s u b st = (bad, st).
Proof.
  intros H bad. apply check_date_str_rejects in H.
  unfold get_batches_for_date_and_user, get_user_id_hashes_for_date,
    get_batch_from_id, bind, lift. rewrite H. auto.
Qed.

Example rejects_short_fields :
  response_status (check_date_str (lit "2024-1-1")) = 400
  /\ response_status (check_date_str (lit "20240101")) = 400
  /\ check_date_str (lit "2024-01-01") = Returns tt.
Proof. repeat split; reflexivity. Qed.

(** C5, at the input where the code departs from it. The string
    [2024-01-01x] is not of the form YYYY-MM-DD, yet [check_date_str]
    accepts it, and none of the three handlers answers it with a 400: the
    listing of batches returns an empty list, the listing of users fails on
    the missing entry of the store's answer, and the fetch goes on to the
    download. *)
Theorem check_date_str_accepts_trailing_text :
  let d := lit "2024-01-01x" in
  let u := repeat 97 64 in
  Re.fullmatch DATE_REGEX d = false
  /\ check_date_str d = Returns tt
  /\ get_batches_for_date_and_user d u (start ∅)
     = (Returns (batch_ids_response []), start ∅)
  /\ get_user_id_hashes_for_date d (start ∅) = (Raises KeyError, start ∅)
  /\ forall b st, response_status (fst (get_batch_from_id d u b st)) <> 400.
Proof.
  intros d u.
  split; [reflexivity|]. split; [reflexivity|].
  split; [reflexivity|]. split; [reflexivity|].
  intros b st. unfold get_batch_from_id, bind, lift.
  change (check_date_str d) with (Returns tt).
  change (check_public_user_id u) with (Returns tt).
  cbv iota beta. unfold requests_get_content.
  match goal with
  | |- context [gzip_decompress ?x] => destruct (gzip_decompress x) as [text|]
  end; [|simpl; lia].
  destruct (json_loads text); simpl; lia.
Qed.

(** ** Fetching what was stored *)

Lemma is_digit_decimal c : is_digit c = true -> Re.is_decimal_digit c = true.
Proof.
  unfold is_digit, Re.is_decimal_digit, Re.decimal_digit_ranges. intros H.
  cbn [existsb]. rewrite H. reflexivity.
Qed.

Lemma decimal_digit_char x : Re.is_decimal_digit (digit_char (x mod 10)) = true.
Proof. apply is_digit_decimal, digit_char_is_digit, Z.mod_pos_bound. lia. Qed.

(** The date written by [str(now.date())] passes the date check, whole. *)
Lemma iso_date_matches t : Re.consume DATE_REGEX (iso_date t) = Some [].
Proof.
  unfold iso_date, DATE_REGEX. change (lit "-") with [45].
  cbn [fixed_digits app Re.consume].
  repeat first [ rewrite decimal_digit_char
               | progress change (45 =? 45) with true
               | progress cbv iota beta ].
  reflexivity.
Qed.

Lemma check_date_str_now t :
  Datetime.valid t = true -> check_date_str (date_str t) = Returns tt.
Proof.
  intros Hv. rewrite (date_str_iso t Hv). unfold check_date_str, Re.match_.
  rewrite iso_date_matches. reflexivity.
Qed.

Lemma check_public_user_id_digest msg :
  check_public_user_id (Sha3.hexdigest msg) = Returns tt.
Proof.
  unfold check_public_user_id, len.
  rewrite (proj1 (hexdigest_shape msg)). reflexivity.
Qed.

Lemma segments_app a b cur :
  Forall (fun c => c <> 47) a ->
  segments (a ++ 47 :: b) cur = (rev cur ++ a) :: segments b [].
Proof.
  intros Ha. revert cur. induction Ha as [|c a Hc Ha IH]; intros cur; simpl.
  - rewrite app_nil_r. reflexivity.
  - destruct (c =? 47) eqn:E; [lia|]. rewrite IH. simpl.
    rewrite <- app_assoc. reflexivity.
Qed.

Lemma segments_last a cur :
  Forall (fun c => c <> 47) a -> segments a cur = [rev cur ++ a].
Proof.
  intros Ha. revert cur. induction Ha as [|c a Hc Ha IH]; intros cur; simpl.
  - rewrite app_nil_r. reflexivity.
  - destruct (c =? 47) eqn:E; [lia|]. rewrite IH. simpl.
    rewrite <- app_assoc. reflexivity.
Qed.

Lemma str_eqb_other_length a b :
  List.length a <> List.length b -> str_eqb a b = false.
Proof.
  intros H. destruct (str_eqb a b) eqn:E; [|reflexivity].
  apply str_eqb_length in E. contradiction.
Qed.

Lemma not_dot_segment seg :
  (2 < List.length seg)%nat ->
  negb (str_eqb seg (lit ".") || str_eqb seg (lit "..")) = true.
Proof.
  intros H. rewrite !str_eqb_other_length; [reflexivity | |];
    change (List.length (lit "..")) with 2%nat;
    change (List.length (lit ".")) with 1%nat; lia.
Qed.

Lemma lower_hex_unreserved c : is_lower_hex c = true -> unreserved c = true.
Proof. unfold is_lower_hex, is_digit, unreserved. lia. Qed.

Lemma forallb_app_true {A} (f : A -> bool) a b :
  forallb f a = true -> forallb f b = true -> forallb f (a ++ b) = true.
Proof. intros Ha Hb. rewrite forallb_app, Ha, Hb. reflexivity. Qed.

Lemma forallb_Forall_hex s :
  Forall (fun c => is_lower_hex c = true) s -> forallb unreserved s = true.
Proof.
  induction 1 as [|c s Hc Hs IH]; simpl; [reflexivity|].
  rewrite IH, (lower_hex_unreserved c Hc). reflexivity.
Qed.

Lemma iso_date_digits t :
  forallb unreserved (iso_date t) = true
  /\ Forall (fun c => c <> 47) (iso_date t).
Proof.
  assert (Hd : forall w n, Forall (fun c => is_lower_hex c = true) (fixed_digits 10 w n)).
  { intros w n. eapply Forall_impl; [apply fixed_digits_dec|].
    intros c Hc. apply digit_is_lower_hex, Hc. }
  assert (Hs : forall w n, Forall (fun c => c <> 47) (fixed_digits 10 w n)).
  { intros w n. eapply Forall_impl; [apply Hd|].
    intros c Hc. apply digit_not_slash, Hc. }
  unfold iso_date. split.
  - apply forallb_app_true; [apply forallb_Forall_hex, Hd|].
    apply forallb_app_true; [reflexivity|].
    apply forallb_app_true; [apply forallb_Forall_hex, Hd|].
    apply forallb_app_true; [reflexivity|].
    apply forallb_Forall_hex, Hd.
  - apply Forall_app; split; [apply Hs|].
    apply Forall_app; split; [repeat constructor; discriminate|].
    apply Forall_app; split; [apply Hs|].
    apply Forall_app; split; [repeat constructor; discriminate|].
    apply Hs.
Qed.

(** The key of a submission is a URL path that stands for itself. *)
Lemma plain_batch_filename e h :
  valid_env e = true ->
  List.length h = 64%nat -> Forall (fun c => is_lower_hex c = true) h ->
  plain_path (batch_filename e h) = true.
Proof.
  intros Hv Hlen Hhex.
  pose proof (batch_file_name_no_slash e Hv) as Hname.
  destruct (batch_filename_shape e h Hv) as (_ & _ & _ & _ & Hrand).
  pose proof (fixed_digits_dec 5 (seconds_since_midnight (now e))) as Hs.
  pose proof (length_fixed_digits 10 5 (seconds_since_midnight (now e))) as Hs5.
  pose proof (fixed_digits_hex 8 (Uuid.uuid4 (urandom16 e) / 2 ^ 96)) as Hr.
  pose proof (length_fixed_digits 16 8 (Uuid.uuid4 (urandom16 e) / 2 ^ 96)) as Hr8.
  rewrite <- Hrand in Hr, Hr8. clear Hrand.
  destruct (iso_date_digits (now e)) as [Hiso Hiso'].
  assert (Hh : Forall (fun c => c <> 47) h).
  { eapply Forall_impl; [exact Hhex|]. intros c Hc. apply digit_not_slash, Hc. }
  assert (Huname : forallb unreserved (batch_file_name e) = true).
  { unfold batch_file_name.
    apply forallb_app_true.
    { apply forallb_Forall_hex. eapply Forall_impl; [exact Hs|].
      intros c Hc. apply digit_is_lower_hex, Hc. }
    apply forallb_app_true; [reflexivity|].
    apply forallb_app_true; [apply forallb_Forall_hex, Hr | reflexivity]. }
  rewrite (batch_filename_split e h Hv).
  unfold plain_path. apply andb_true_iff. split.
  - rewrite forallb_app. apply andb_true_iff. split.
    + apply forallb_app_true; [reflexivity|].
      apply forallb_app_true; [exact Hiso|].
      apply forallb_app_true; [reflexivity | apply forallb_Forall_hex, Hhex].
    + simpl. exact Huname.
  - replace ((lit "1/v1/" ++ iso_date (now e) ++ lit "/1/" ++ h)
             ++ 47 :: batch_file_name e)
      with ([49] ++ 47 :: [118; 49] ++ 47 :: iso_date (now e) ++ 47 :: [49]
            ++ 47 :: h ++ 47 :: batch_file_name e)
      by (rewrite <- !app_assoc; reflexivity).
    rewrite !segments_app, segments_last
      by (try assumption; repeat constructor; discriminate).
    cbn [rev app forallb].
    rewrite (not_dot_segment (iso_date (now e))), (not_dot_segment h),
      (not_dot_segment (batch_file_name e)); [reflexivity | | |].
    + unfold batch_file_name. rewrite !length_app, Hs5, Hr8. simpl. lia.
    + lia.
    + unfold iso_date. rewrite !length_app, !length_fixed_digits. simpl. lia.
Qed.

Lemma get_batch_id_app id :
  get_batch_id_from_file_name (id ++ FILE_NAME_SUFFIX) = Returns id.
Proof.
  unfold get_batch_id_from_file_name. rewrite endswith_app, slice_to_neg_app.
  reflexivity.
Qed.

Lemma map_outcome_in {A B} (f : A -> outcome B) l ys x y :
  map_outcome f l = Returns ys -> In x l -> f x = Returns y -> In y ys.
Proof.
  revert ys. induction l as [|a l IH]; intros ys Hm Hin Hx; [destruct Hin|].
  simpl in Hm. destruct (f a) as [b|] eqn:Ea; [|discriminate].
  destruct (map_outcome f l) as [bs|] eqn:El; [|discriminate].
  injection Hm as <-. destruct Hin as [-> | Hin].
  - left. congruence.
  - right. eapply IH; eauto.
Qed.

Lemma batch_file_name_id e : batch_file_name e = batch_id_of e ++ FILE_NAME_SUFFIX.
Proof. unfold batch_file_name, batch_id_of. rewrite <- !app_assoc. reflexivity. Qed.

(** [get_batch_from_id] when the object it names is in the bucket. *)
Lemma get_batch_from_id_found d u b st data :
  check_date_str d = Returns tt -> check_public_user_id u = Returns tt ->
  let key := lit "1/" ++ VERSION ++ lit "/" ++ d ++ lit "/1/" ++ u ++ lit "/"
             ++ b ++ FILE_NAME_SUFFIX in
  plain_path key = true -> bucket st !! key = Some data ->
  get_batch_from_id d u b st
  = (match gzip_decompress data with
     | None => Raises GzipError
     | Some text =>
         match json_loads text with
         | None => Raises JSONDecodeError
         | Some v => Returns v
         end
     end, st).
Proof.
  intros Hd Hu key Hplain Hfound.
  unfold get_batch_from_id, bind, lift. rewrite Hd, Hu.
  fold key. unfold requests_get_content.
  rewrite startswith_app, skipn_length_app, Hplain, Hfound. cbn [andb].
  destruct (gzip_decompress data) as [text|]; [|reflexivity].
  destruct (json_loads text); reflexivity.
Qed.

(** After a submission that returned, take the date of [now], the public
    identifier that was returned and the batch identifier that the listing
    derives from the key of the batch. If [gzip.decompress] undoes
    [gzip.compress] on the text that was stored, and [json.loads] reads that
    text back as the dictionary it was written from, then [get_batch_from_id]
    returns that dictionary, and its [items] are the items submitted. The
    batch identifier is among those the listing returns for that date and
    public identifier. *)
Lemma submit_then_fetch_given_reader e batch st r st' :
  valid_env e = true ->
  create_batch e batch st = (Returns r, st') ->
  (forall h, r = ok_response h ->
     gzip_decompress (gzip_compress (gzip_mtime e) (stored_text e h batch))
     = Some (stored_text e h batch)) ->
  (forall h, r = ok_response h ->
     json_loads (stored_text e h batch)
     = Some (HashedBatch_dict (batch_hashed e h batch))) ->
  exists h name batch_id data,
    r = ok_response h
    /\ key_file_name (batch_filename e h) = Returns name
    /\ get_batch_id_from_file_name name = Returns batch_id
    /\ get_batch_from_id (date_str (now e)) h batch_id st' = (Returns data, st')
    /\ data = HashedBatch_dict (batch_hashed e h batch)
    /\ Json.get (lit "items") data = Some (JList (List.map Item_dict (items batch)))
    /\ forall ids,
         get_batches_for_date_and_user (date_str (now e)) h st'
         = (Returns (batch_ids_response ids), st') ->
         In batch_id ids.
Proof.
  intros Hv Hrun Hgz Hjson.
  assert (Hnow : Datetime.valid (now e) = true).
  { unfold valid_env in Hv. rewrite !andb_true_iff in Hv. tauto. }
  rewrite create_batch_cases in Hrun.
  destruct (MAX_BATCH_SIZE <? len (items batch)); [discriminate|].
  destruct (negb (len (user_id batch) =? USER_ID_LENGTH)); [discriminate|].
  destruct (encode_utf8 (user_id batch)) as [id_bytes|]; [|discriminate].
  cbn zeta in Hrun. destruct (put_accepted e); [|discriminate].
  injection Hrun as <- <-.
  set (h := Sha3.hexdigest id_bytes) in *.
  destruct (hexdigest_shape id_bytes) as [Hlen Hhex]. fold h in Hlen, Hhex.
  specialize (Hgz h eq_refl). specialize (Hjson h eq_refl).
  pose proof (batch_file_name_no_slash e Hv) as Hname.
  assert (Hkey : batch_filename e h
                 = lit "1/" ++ VERSION ++ lit "/" ++ date_str (now e) ++ lit "/1/"
                   ++ h ++ lit "/" ++ batch_id_of e ++ FILE_NAME_SUFFIX).
  { rewrite (batch_filename_split e h Hv), batch_file_name_id,
      (date_str_iso _ Hnow). rewrite <- !app_assoc. reflexivity. }
  assert (Hd : check_date_str (date_str (now e)) = Returns tt)
    by (apply check_date_str_now, Hnow).
  assert (Hu : check_public_user_id h = Returns tt)
    by (apply check_public_user_id_digest).
  exists h, (batch_file_name e), (batch_id_of e). eexists.
  split; [reflexivity|].
  split; [rewrite (batch_filename_split e h Hv); apply key_file_name_app, Hname|].
  split; [rewrite batch_file_name_id; apply get_batch_id_app|].
  split.
  { rewrite (get_batch_from_id_found _ _ _ _
               (gzip_compress (gzip_mtime e) (stored_text e h batch)) Hd Hu).
    - rewrite Hgz, Hjson. reflexivity.
    - rewrite <- Hkey. apply plain_batch_filename; assumption.
    - rewrite <- Hkey. cbn [bucket]. apply lookup_insert_eq. }
  split; [reflexivity|]. split; [reflexivity|].
  intros ids Hlist.
  rewrite (get_batches_for_date_and_user_cases _ _ _ Hd Hu) in Hlist.
  match type of Hlist with
  | context [map_outcome ?f ?l] => destruct (map_outcome f l) as [ids'|] eqn:Hm
  end; [|discriminate].
  injection Hlist as Hids.
  assert (ids' = ids).
  { clear -Hids. revert ids Hids. induction ids' as [|i ids' IH]; intros [|j ids] H;
      simpl in H; try discriminate; [reflexivity|].
    injection H as -> H. f_equal. apply IH. exact H. }
  subst ids'.
  apply (map_outcome_in _ _ _ (batch_file_name e) (batch_id_of e) Hm).
  - apply in_sorted, in_map_iff. exists (batch_filename e h). split.
    + rewrite (batch_filename_split e h Hv). apply basename_app, Hname.
    + apply in_listed. cbn [bucket]. split.
      * rewrite lookup_insert_eq. eauto.
      * exists (batch_file_name e). rewrite (batch_filename_split e h Hv).
        unfold batches_prefix. rewrite (date_str_iso _ Hnow).
        rewrite <- !app_assoc. reflexivity.
  - rewrite batch_file_name_id. apply get_batch_id_app.
Qed.

(** ** The timestamp of a [HashedBatch] *)

Lemma round_half_even_ge a b q :
  0 < b -> q * b <= a -> q <= Float.round_half_even a b.
Proof.
  intros Hb Hq. unfold Float.round_half_even.
  assert (q <= a / b) by (apply Z.div_le_lower_bound; lia).
  destruct (2 * (a mod b) <? b); [lia|].
  destruct (b <? 2 * (a mod b)); [lia|].
  destruct (Z.even (a / b)); lia.
Qed.

Lemma round_half_even_le a b q :
  0 < b -> a <= q * b -> Float.round_half_even a b <= q.
Proof.
  intros Hb Hq. unfold Float.round_half_even.
  pose proof (Z.div_mod a b ltac:(lia)) as Hdm.
  pose proof (Z.mod_pos_bound a b Hb) as Hm.
  assert (Hfloor : a / b <= q) by (apply Z.div_le_upper_bound; lia).
  assert (Hstrict : 0 < a mod b -> a / b < q) by nia.
  destruct (2 * (a mod b) <? b) eqn:E1; [lia|].
  destruct (b <? 2 * (a mod b)) eqn:E2; [lia|].
  destruct (Z.even (a / b)); lia.
Qed.

(** Dividing a count of microseconds by a million and converting the
    float to [int] gives the whole seconds, as long as the count is below
    2^33 seconds: the float then has at least twenty fractional bits, more
    than a microsecond needs. *)
Lemma to_int_truediv_microseconds a :
  0 <= a < 2 ^ 33 * 1000000 ->
  Float.to_int (Float.int_truediv a 1000000) = a / 1000000.
Proof.
  intros Ha. unfold Float.int_truediv.
  destruct (a =? 0) eqn:E0.
  { apply Z.eqb_eq in E0. subst a. reflexivity. }
  apply Z.eqb_neq in E0. assert (Hpos : 0 < a) by lia.
  rewrite Z.abs_eq by lia. rewrite (Z.sgn_pos a Hpos).
  change (Z.log2 1000000) with 19.
  set (k := Z.log2 a - 19).
  assert (Hlog : Z.log2 a < 53).
  { apply Z.log2_lt_pow2; [lia|]. change (2 ^ 53) with (2 ^ 33 * 2 ^ 20). lia. }
  match goal with
  | |- context [if ?c then k - 53 else k - 52] => set (below := c)
  end.
  set (e := if below then k - 53 else k - 52).
  assert (He : e <= -20).
  { unfold e. destruct below eqn:Eb; [lia|].
    unfold below in Eb. destruct (0 <=? k) eqn:Ek; [|lia].
    apply Z.leb_le in Ek. apply Z.ltb_ge in Eb.
    assert (2 ^ k < 2 ^ 33) by nia.
    apply Z.pow_lt_mono_r_iff in H; lia. }
  destruct (0 <=? e) eqn:Ee; [lia|].
  unfold Float.to_int. cbn [Float.mantissa Float.exponent]. rewrite Ee.
  rewrite Z.mul_1_l.
  set (s := - e). assert (Hs : 20 <= s) by (unfold s; lia).
  assert (Hp : 2 ^ 20 <= 2 ^ s) by (apply Z.pow_le_mono_r; lia).
  change (2 ^ 20) with 1048576 in Hp.
  set (N := a / 1000000).
  pose proof (Z.div_mod a 1000000 ltac:(lia)) as Hdm. fold N in Hdm.
  pose proof (Z.mod_pos_bound a 1000000 ltac:(lia)) as Hm.
  assert (Hlow : N * 2 ^ s <= Float.round_half_even (a * 2 ^ s) 1000000).
  { apply round_half_even_ge; nia. }
  assert (Hhigh : Float.round_half_even (a * 2 ^ s) 1000000 <= (N + 1) * 2 ^ s - 1).
  { apply round_half_even_le; nia. }
  assert (HN : 0 <= N) by (apply Z.div_pos; lia).
  assert (HN' : 0 <= N * 2 ^ s) by nia.
  rewrite Z.quot_div_nonneg by lia.
  symmetry. apply Z.div_unique with
    (r := Float.round_half_even (a * 2 ^ s) 1000000 - N * 2 ^ s); lia.
Qed.

Lemma total_microseconds_whole td :
  0 <= microseconds td < 1000000 ->
  total_microseconds td / 1000000 = days td * 86400 + seconds td.
Proof.
  intros H. unfold total_microseconds.
  symmetry. apply Z.div_unique with (r := microseconds td); lia.
Qed.

Lemma sub_microseconds a b : 0 <= microseconds (sub a b) < 1000000.
Proof. unfold sub, new_timedelta. cbn [microseconds]. apply Z.mod_pos_bound. lia. Qed.

(** C4, as amended. The [HashedBatch] of a submission carries an integer
    timestamp: the field is declared [int], and the float of the seconds
    elapsed since the Unix epoch is converted to it, which drops the
    fraction. For an instant of ingestion up to 2^33 seconds after the
    epoch the field is the whole number of seconds elapsed, and in the JSON
    of the batch it is an integer, written in decimal digits. *)
Theorem hashed_batch_timestamp_whole_seconds e h batch :
  let td := sub (now e) epoch in
  0 <= days td * 86400 + seconds td < 2 ^ 33 ->
  let b := batch_hashed e h batch in
  hb_timestamp b = Float.to_int (total_seconds td)
  /\ hb_timestamp b = days td * 86400 + seconds td
  /\ Json.get (lit "timestamp") (HashedBatch_dict b)
     = Some (JInt (days td * 86400 + seconds td))
  /\ dumps (JInt (hb_timestamp b)) = str_of_int (days td * 86400 + seconds td)
  /\ user_id_hash b = h
  /\ hb_items b = items batch.
Proof.
  intros td Hrange b.
  pose proof (sub_microseconds (now e) epoch) as Hus. fold td in Hus.
  assert (Hts : hb_timestamp b = days td * 86400 + seconds td).
  { unfold b, batch_hashed, new_HashedBatch. cbn [hb_timestamp]. fold td.
    unfold total_seconds. rewrite to_int_truediv_microseconds.
    - apply total_microseconds_whole, Hus.
    - unfold total_microseconds. lia. }
  split; [reflexivity|]. split; [exact Hts|].
  split; [rewrite <- Hts; reflexivity|].
  split; [rewrite <- Hts; reflexivity|].
  split; reflexivity.
Qed.

(** ** A bucket that only submissions have written to *)

(** The keys of a bucket filled by submissions are keys of submissions:
    the invariant is kept by every request. *)
Lemma handle_keys_of_submissions r st :
  match r with PostBatch e _ => valid_env e = true | _ => True end ->
  (forall k, is_Some (bucket st !! k) -> submission_key k) ->
  forall k, is_Some (bucket (snd (handle r st)) !! k) -> submission_key k.
Proof.
  intros Hr Hst k.
  destruct r as [e batch| d u | d u b | | d |];
    try (rewrite handle_reads_only by congruence; apply Hst).
  simpl. rewrite create_batch_cases.
  destruct (MAX_BATCH_SIZE <? len (items batch)); [apply Hst|].
  destruct (negb (len (user_id batch) =? USER_ID_LENGTH)); [apply Hst|].
  destruct (encode_utf8 (user_id batch)) as [id_bytes|]; [|apply Hst].
  cbn zeta. destruct (put_accepted e); [|apply Hst].
  cbn [snd bucket]. intros Hk.
  destruct (decide (batch_filename e (Sha3.hexdigest id_bytes) = k)) as [<-|Hne].
  - exists e, (Sha3.hexdigest id_bytes). auto.
  - rewrite lookup_insert_ne in Hk by exact Hne. apply Hst, Hk.
Qed.

Lemma run_keys_of_submissions rs : forall st,
  Forall (fun r => match r with PostBatch e _ => valid_env e = true | _ => True end) rs ->
  (forall k, is_Some (bucket st !! k) -> submission_key k) ->
  forall k, is_Some (bucket (snd (run rs st)) !! k) -> submission_key k.
Proof.
  induction rs as [|r rs IH]; intros st Hrs Hst k; simpl; [apply Hst|].
  apply Forall_cons in Hrs as [Hr Hrs].
  pose proof (handle_keys_of_submissions r st Hr Hst) as Hstep.
  destruct (handle r st) as [o st1]. simpl in Hstep.
  specialize (IH st1 Hrs Hstep k).
  destruct (run rs st1) as [os st2]. exact IH.
Qed.

Lemma submission_key_basename k :
  submission_key k ->
  endswith (basename k) FILE_NAME_SUFFIX = true
  /\ List.length (basename k) = 23%nat.
Proof.
  intros (e & h & Hv & ->).
  rewrite (batch_filename_split e h Hv).
  rewrite basename_app by (apply batch_file_name_no_slash, Hv).
  split.
  - rewrite batch_file_name_id. apply endswith_app.
  - destruct (batch_filename_shape e h Hv) as (_ & _ & _ & _ & Hrand).
    unfold batch_file_name. rewrite Hrand, !length_app, !length_fixed_digits.
    reflexivity.
Qed.

(** X12. In a process that starts on an empty bucket, after any sequence
    of requests, every listing for a date that passes the check and a
    64-character public identifier returns (the assertion on the suffix
    never fails), and the identifiers it returns are in lexicographic
    order. *)
Theorem listing_after_submissions rs d u :
  Forall (fun r => match r with PostBatch e _ => valid_env e = true | _ => True end) rs ->
  check_date_str d = Returns tt ->
  check_public_user_id u = Returns tt ->
  let st := snd (run rs (start ∅)) in
  exists ids,
    get_batches_for_date_and_user d u st = (Returns (batch_ids_response ids), st)
    /\ StronglySorted str_le ids.
Proof.
  intros Hrs Hd Hu st.
  assert (Hkeys : forall k, In k (listed (batches_prefix d u) st) -> submission_key k).
  { intros k Hk. apply in_listed in Hk as [Hk _].
    apply (run_keys_of_submissions rs (start ∅) Hrs); [|exact Hk].
    intros k' Hk'. simpl in Hk'. rewrite lookup_empty in Hk'.
    destruct Hk' as [? [=]]. }
  assert (Hsuf : forall k, In k (listed (batches_prefix d u) st) ->
                           endswith (basename k) FILE_NAME_SUFFIX = true).
  { intros k Hk. apply submission_key_basename, Hkeys, Hk. }
  eexists. split; [apply listing_returns_names; assumption|].
  apply strip_suffix_sorted; [apply sorted_sorted | |].
  - intros n Hn. apply in_sorted, in_map_iff in Hn as (k & <- & Hk). auto.
  - intros a b Ha Hb.
    apply in_sorted, in_map_iff in Ha as (ka & <- & Hka).
    apply in_sorted, in_map_iff in Hb as (kb & <- & Hkb).
    rewrite (proj2 (submission_key_basename ka (Hkeys ka Hka))).
    rewrite (proj2 (submission_key_basename kb (Hkeys kb Hkb))). reflexivity.
Qed.

(** * Further properties of the handlers *)

(** ** The outcomes of [create_batch] *)

Lemma encode_utf8_some_iff s :
  (exists b, encode_utf8 s = Some b)
  <-> Forall (fun c => is_surrogate c = false) s.
Proof.
  split; [|apply encode_utf8_total].
  intros [b Hb]. apply Forall_forall. intros c Hc.
  destruct (is_surrogate c) eqn:E; [|reflexivity].
  rewrite encode_utf8_surrogate in Hb; [discriminate|].
  apply Exists_exists. exists c. auto.
Qed.

(** X1. [create_batch] returns exactly when the batch has at most 100
    items (an empty batch included), its [user_id] has 36 characters, none
    of them a surrogate, and the store completes the write. Otherwise it
    raises: the size error when there are more than 100 items, whatever the
    identifier; else the identifier-length error; else [UnicodeEncodeError];
    else the store's exception. *)
Theorem create_batch_outcomes e batch st :
  ((exists r st', create_batch e batch st = (Returns r, st'))
   <-> len (items batch) <= 100
       /\ len (user_id batch) = 36
       /\ Forall (fun c => is_surrogate c = false) (user_id batch)
       /\ put_accepted e = true)
  /\ (100 < len (items batch) ->
      create_batch e batch st
      = (Raises (batch_size_error (len (items batch))), st))
  /\ (len (items batch) <= 100 -> len (user_id batch) <> 36 ->
      create_batch e batch st = (Raises user_id_length_error, st))
  /\ (len (items batch) <= 100 -> len (user_id batch) = 36 ->
      Exists (fun c => is_surrogate c = true) (user_id batch) ->
      create_batch e batch st = (Raises UnicodeEncodeError, st))
  /\ (len (items batch) <= 100 -> len (user_id batch) = 36 ->
      Forall (fun c => is_surrogate c = false) (user_id batch) ->
      put_accepted e = false ->
      fst (create_batch e batch st) = Raises StorageError).
Proof.
  rewrite create_batch_cases. unfold MAX_BATCH_SIZE, USER_ID_LENGTH.
  assert (Hex : Exists (fun c => is_surrogate c = true) (user_id batch) ->
                encode_utf8 (user_id batch) = None)
    by apply encode_utf8_surrogate.
  pose proof (encode_utf8_some_iff (user_id batch)) as Hall.
  destruct (100 <? len (items batch)) eqn:E1;
    [apply Z.ltb_lt in E1 | apply Z.ltb_ge in E1];
    (destruct (len (user_id batch) =? 36) eqn:E2;
     [apply Z.eqb_eq in E2 | apply Z.eqb_neq in E2]); cbn [negb];
    destruct (encode_utf8 (user_id batch)) as [id_bytes|] eqn:E3; cbn zeta;
    destruct (put_accepted e) eqn:E4;
    repeat split; intros;
    repeat match goal with
      | H : exists _, _ |- _ => destruct H
      | H : _ /\ _ |- _ => destruct H
      end;
    try discriminate; try lia; try congruence;
    try (apply Hall; eauto; fail);
    try (exfalso; match goal with
                  | H : Forall _ _ |- _ => apply Hall in H; destruct H; congruence
                  end);
    try (match goal with H : Exists _ _ |- _ => apply Hex in H; congruence end);
    eauto.
Qed.

(** ** The check of the public identifier *)

Lemma check_public_user_id_cases u :
  check_public_user_id u
  = if len u =? 64 then Returns tt else Raises public_id_length_error.
Proof.
  unfold check_public_user_id, PUBLIC_USER_ID_LENGTH.
  destruct (len u =? 64); reflexivity.
Qed.

(** X2. A public identifier whose length is not 64 is refused by the two
    handlers that take one, with status 400 and without a look at the
    store, once the date has passed its own check; when the date fails too,
    it is the error of the date that is raised. *)
Theorem public_user_id_length_checked d u b st :
  len u <> 64 ->
  (check_date_str d = Returns tt ->
   get_batches_for_date_and_user d u st = (Raises public_id_length_error, st)
   /\ get_batch_from_id d u b st = (Raises public_id_length_error, st))
  /\ (check_date_str d <> Returns tt ->
      get_batches_for_date_and_user d u st = (Raises date_format_error, st)
      /\ get_batch_from_id d u b st = (Raises date_format_error, st))
  /\ response_status (fst (get_batches_for_date_and_user d u st)) = 400
  /\ response_status (fst (get_batch_from_id d u b st)) = 400.
Proof.
  intros Hlen.
  assert (Hu : check_public_user_id u = Raises public_id_length_error).
  { rewrite check_public_user_id_cases. destruct (len u =? 64) eqn:E; [lia|reflexivity]. }
  unfold get_batches_for_date_and_user, get_batch_from_id, bind, lift.
  rewrite Hu.
  destruct (check_date_str d) as [[]|x] eqn:Hd.
  - split; [intros _; split; reflexivity|].
    split; [intros C; congruence|]. split; reflexivity.
  - assert (Hx : Raises x = Raises date_format_error :> outcome unit).
    { rewrite <- Hd. apply check_date_str_rejects. congruence. }
    injection Hx as ->.
    split; [discriminate|].
    split; [intros _; split; reflexivity|]. split; reflexivity.
Qed.

(** ** The bucket only grows *)

Lemma handle_bucket r st k :
  bucket (snd (handle r st)) !! k = bucket st !! k
  \/ exists e batch h,
       r = PostBatch e batch
       /\ fst (handle r st) = Returns (ok_response h)
       /\ k = batch_filename e h
       /\ bucket (snd (handle r st)) !! k
          = Some (gzip_compress (gzip_mtime e) (stored_text e h batch)).
Proof.
  destruct r as [e batch| d u | d u b | | d |];
    try (left; rewrite handle_reads_only by congruence; reflexivity).
  simpl. rewrite create_batch_cases.
  destruct (MAX_BATCH_SIZE <? len (items batch)); [left; reflexivity|].
  destruct (negb (len (user_id batch) =? USER_ID_LENGTH)); [left; reflexivity|].
  destruct (encode_utf8 (user_id batch)) as [id_bytes|]; [|left; reflexivity].
  cbn zeta. destruct (put_accepted e); [|left; reflexivity].
  cbn [fst snd bucket].
  destruct (decide (batch_filename e (Sha3.hexdigest id_bytes) = k)) as [<-|Hne].
  - right. exists e, batch, (Sha3.hexdigest id_bytes).
    rewrite lookup_insert_eq. auto.
  - left. apply lookup_insert_ne, Hne.
Qed.

(** X3. No request removes an object: a key that is in the bucket is
    still there after any sequence of requests. A single request leaves
    every object as it was, except that a submission that returns stores its
    data under its own key, replacing what that key held. *)
Theorem bucket_only_grows :
  (forall rs st k,
     is_Some (bucket st !! k) -> is_Some (bucket (snd (run rs st)) !! k))
  /\ (forall r st k,
        bucket (snd (handle r st)) !! k = bucket st !! k
        \/ exists e batch h,
             r = PostBatch e batch
             /\ fst (handle r st) = Returns (ok_response h)
             /\ k = batch_filename e h
             /\ bucket (snd (handle r st)) !! k
                = Some (gzip_compress (gzip_mtime e) (stored_text e h batch))).
Proof.
  split; [|apply handle_bucket].
  induction rs as [|r rs IH]; intros st k Hk; simpl; [exact Hk|].
  pose proof (handle_bucket r st k) as Hstep.
  destruct (handle r st) as [o st1]. simpl in Hstep.
  specialize (IH st1 k). destruct (run rs st1) as [os st2]. simpl in *.
  apply IH. destruct Hstep as [-> | (e & batch & h & _ & _ & _ & ->)]; eauto.
Qed.

(** ** [IndexError] in the listing *)

Lemma key_file_name_no_slash k :
  ~ In 47 k -> key_file_name k = Raises IndexError.
Proof.
  intros Hno. unfold key_file_name.
  destruct (rsplit1_shape 47 k) as [[-> _] | (hd & tl & _ & -> & _)]; [reflexivity|].
  exfalso. apply Hno. apply in_or_app. right. left. reflexivity.
Qed.

Lemma key_file_name_cases k :
  (In 47 k /\ key_file_name k = Returns (basename k))
  \/ (~ In 47 k /\ key_file_name k = Raises IndexError).
Proof.
  destruct (in_dec Z.eq_dec 47 k) as [H|H].
  - left. split; [exact H | apply key_file_name_slash, H].
  - right. split; [exact H | apply key_file_name_no_slash, H].
Qed.

Lemma map_key_file_name_raises l x :
  map_outcome key_file_name l = Raises x ->
  exists k, In k l /\ ~ In 47 k.
Proof.
  revert x. induction l as [|k l IH]; intros x; simpl; [discriminate|].
  destruct (key_file_name_cases k) as [[_ ->] | [Hno _]].
  - destruct (map_outcome key_file_name l) as [ns|y]; [discriminate|].
    intros _. destruct (IH y eq_refl) as (k' & Hin & Hno). exists k'. auto.
  - intros _. exists k. auto.
Qed.

Lemma map_get_batch_id_raises l x :
  map_outcome get_batch_id_from_file_name l = Raises x -> x = AssertionError.
Proof.
  revert x. induction l as [|n l IH]; intros x; simpl; [discriminate|].
  unfold get_batch_id_from_file_name at 1.
  destruct (negb (endswith n FILE_NAME_SUFFIX)); [congruence|].
  destruct (map_outcome get_batch_id_from_file_name l); [discriminate|].
  intros [= <-]. apply IH. reflexivity.
Qed.

(** X4. [get_batches_for_prefix] raises [IndexError] exactly when a key
    listed under the prefix contains no slash, so that [rsplit('/', 1)] has
    no second element. The handler always passes a prefix with a slash in
    it and never raises [IndexError]. *)
Theorem listing_index_error :
  (forall prefix st,
     get_batches_for_prefix prefix st = (Raises IndexError, st)
     <-> exists k, In k (listed prefix st) /\ ~ In 47 k)
  /\ (forall d u st,
        fst (get_batches_for_date_and_user d u st) <> Raises IndexError).
Proof.
  split.
  - intros prefix st.
    unfold get_batches_for_prefix, bind, objects_filter, lift.
    fold (listed prefix st). split.
    + destruct (map_outcome key_file_name (listed prefix st)) as [names|x] eqn:Hm.
      * destruct (map_outcome get_batch_id_from_file_name (sorted names)) as [ids|y] eqn:Hi;
          [discriminate|].
        apply map_get_batch_id_raises in Hi. subst y. discriminate.
      * intros _. eapply map_key_file_name_raises, Hm.
    + intros (k & Hin & Hno).
      rewrite (map_outcome_raises key_file_name IndexError); [reflexivity | |].
      * intros x _. destruct (key_file_name_cases x) as [[_ ->] | [_ ->]]; eauto.
      * exists k. split; [exact Hin | apply key_file_name_no_slash, Hno].
  - intros d u st.
    unfold get_batches_for_date_and_user, bind, lift.
    destruct (check_date_str d) as [[]|x] eqn:Hd.
    2:{ rewrite (check_date_str_rejects d) in Hd by congruence.
        injection Hd as <-. discriminate. }
    rewrite check_public_user_id_cases.
    destruct (len u =? 64); [|discriminate].
    fold (batches_prefix d u).
    rewrite get_batches_for_prefix_cases by apply batches_prefix_slash.
    match goal with
    | |- context [map_outcome ?f ?l] => destruct (map_outcome f l) as [ids|y] eqn:Hi
    end; [discriminate|].
    apply map_get_batch_id_raises in Hi. subst y. discriminate.
Qed.

(** ** The timestamp and the key tell the same time *)

Lemma days_before_month_bounds y m :
  1 <= m <= 12 -> 0 <= days_before_month y m <= 335.
Proof.
  intros Hm. unfold days_before_month.
  assert (H : m = 1 \/ m = 2 \/ m = 3 \/ m = 4 \/ m = 5 \/ m = 6 \/ m = 7
              \/ m = 8 \/ m = 9 \/ m = 10 \/ m = 11 \/ m = 12) by lia.
  destruct H as [-> | [-> | [-> | [-> | [-> | [-> | [-> | [-> | [-> | [-> | [-> | ->]]]]]]]]]]];
    destruct (is_leap y); vm_compute; split; discriminate.
Qed.

(** The number of days from 1970-01-01 to a date of the years 1970 to
    2241 is not negative and below 2^33 / 86400. *)
Lemma day_number_bounds t :
  Datetime.valid t = true -> 1970 <= year t <= 2241 ->
  0 <= ymd2ord (year t) (month t) (day t) - ymd2ord 1970 1 1 < 99420.
Proof.
  intros Hv Hy. apply valid_bounds in Hv.
  pose proof (days_before_month_bounds (year t) (month t) ltac:(lia)) as Hm.
  change (ymd2ord 1970 1 1) with 719163.
  unfold ymd2ord, days_before_year.
  pose proof (Z.div_mod (year t - 1) 4 ltac:(lia)).
  pose proof (Z.mod_pos_bound (year t - 1) 4 ltac:(lia)).
  pose proof (Z.div_mod (year t - 1) 100 ltac:(lia)).
  pose proof (Z.mod_pos_bound (year t - 1) 100 ltac:(lia)).
  pose proof (Z.div_mod (year t - 1) 400 ltac:(lia)).
  pose proof (Z.mod_pos_bound (year t - 1) 400 ltac:(lia)).
  lia.
Qed.

Lemma sub_epoch t :
  Datetime.valid t = true ->
  sub t epoch
  = mk_timedelta (ymd2ord (year t) (month t) (day t) - ymd2ord 1970 1 1)
                 (seconds_since_midnight t) (microsecond t).
Proof.
  intros Hv. apply valid_bounds in Hv.
  unfold sub, epoch, new_timedelta, seconds_since_midnight.
  cbn [year month day hour minute second microsecond].
  assert (Hus : (microsecond t - 0) / 1000000 = 0) by (apply Z.div_small; lia).
  rewrite Hus.
  replace (second t + minute t * 60 + hour t * 3600 - (0 + 0 * 60 + 0 * 3600) + 0)
    with (hour t * 3600 + minute t * 60 + second t) by lia.
  rewrite Z.div_small, Z.mod_small, Z.mod_small by lia.
  f_equal; lia.
Qed.

(** X7. The two readings of the clock in [create_batch] agree: for an
    instant of the years 1970 to 2241, the timestamp of the [HashedBatch] is
    86400 times the number of days from 1970-01-01 to the date in the key,
    plus the seconds in the key; so the five digits of the key are the
    timestamp modulo 86400, and the date of the key is the day of the
    timestamp. *)
Theorem timestamp_agrees_with_key e h batch :
  valid_env e = true ->
  1970 <= year (now e) <= 2241 ->
  let t := hb_timestamp (batch_hashed e h batch) in
  let day_number :=
    ymd2ord (year (now e)) (month (now e)) (day (now e)) - ymd2ord 1970 1 1 in
  t = day_number * 86400 + seconds_since_midnight (now e)
  /\ t / 86400 = day_number
  /\ t mod 86400 = seconds_since_midnight (now e)
  /\ batch_filename e h
     = lit "1/v1/" ++ iso_date (now e) ++ lit "/1/" ++ h ++ lit "/"
       ++ fixed_digits 10 5 (t mod 86400) ++ lit "__"
       ++ slice_to (Uuid.to_str (Uuid.uuid4 (urandom16 e))) 8 ++ lit ".json.gz".
Proof using.
  intros Hv Hy t day_number.
  assert (Hnow : Datetime.valid (now e) = true).
  { unfold valid_env in Hv. rewrite !andb_true_iff in Hv.
    destruct Hv as [[Hnow _] _]. exact Hnow. }
  pose proof (day_number_bounds (now e) Hnow Hy) as Hd. fold day_number in Hd.
  destruct (seconds_of_day (now e) Hnow) as [_ Hs].
  pose proof (valid_bounds (now e) Hnow) as Hb.
  assert (Ht : t = day_number * 86400 + seconds_since_midnight (now e)).
  { unfold t, batch_hashed, new_HashedBatch. cbn [hb_timestamp].
    rewrite (sub_epoch (now e) Hnow). fold day_number.
    unfold total_seconds. rewrite to_int_truediv_microseconds.
    - apply total_microseconds_whole. cbn [microseconds]. lia.
    - unfold total_microseconds. cbn [days seconds microseconds].
      change (2 ^ 33) with 8589934592. lia. }
  assert (Hdiv : t / 86400 = day_number).
  { rewrite Ht. symmetry.
    apply Z.div_unique with (r := seconds_since_midnight (now e)); lia. }
  assert (Hmod : t mod 86400 = seconds_since_midnight (now e)).
  { rewrite Ht. symmetry.
    apply Z.mod_unique with (q := day_number); lia. }
  split; [exact Ht|]. split; [exact Hdiv|]. split; [exact Hmod|].
  rewrite Hmod. apply (batch_filename_shape e h Hv).
Qed.

(** ** The random part of the key *)

Lemma int_from_bytes_app a b :
  Uuid.int_from_bytes (a ++ b)
  = Uuid.int_from_bytes a * 256 ^ Z.of_nat (List.length b) + Uuid.int_from_bytes b.
Proof.
  unfold Uuid.int_from_bytes.
  enough (forall acc,
            fold_left (fun acc x => acc * 256 + x) b acc
            = acc * 256 ^ Z.of_nat (List.length b)
              + fold_left (fun acc x => acc * 256 + x) b 0) as H.
  { rewrite fold_left_app. apply H. }
  induction b as [|x b IH]; intros acc; simpl fold_left.
  - simpl. lia.
  - rewrite (IH (acc * 256 + x)), (IH (0 * 256 + x)).
    change (List.length (x :: b)) with (S (List.length b)).
    rewrite Nat2Z.inj_succ, Z.pow_succ_r by lia. ring.
Qed.

(** The bits that [uuid4] forces lie below bit 96. *)
Lemma uuid4_top r :
  Z.shiftr (Uuid.uuid4 r) 96 = Z.shiftr (Uuid.int_from_bytes r) 96.
Proof.
  unfold Uuid.uuid4. rewrite <- !Z.ldiff_land.
  rewrite !Z.shiftr_lor, !Z.shiftr_ldiff, !Z.shiftr_lor, !Z.shiftr_ldiff.
  change (Z.shiftr (Z.shiftl 4 76) 96) with 0.
  change (Z.shiftr (Z.shiftl 61440 64) 96) with 0.
  change (Z.shiftr (Z.shiftl 32768 48) 96) with 0.
  change (Z.shiftr (Z.shiftl 49152 48) 96) with 0.
  rewrite !Z.lor_0_r, !Z.ldiff_0_r. reflexivity.
Qed.

Lemma bytes_Forall r :
  forallb is_byte r = true -> Forall (fun x => 0 <= x <= 255) r.
Proof.
  intros Hb. apply Forall_forall. intros x Hx. rewrite forallb_forall in Hb.
  apply list_elem_of_In, Hb in Hx. unfold is_byte in Hx. lia.
Qed.

Lemma uuid4_top_bytes r :
  List.length r = 16%nat -> forallb is_byte r = true ->
  Uuid.uuid4 r / 2 ^ 96 = Uuid.int_from_bytes (firstn 4 r).
Proof.
  intros Hlen Hb. apply bytes_Forall in Hb.
  rewrite <- Z.shiftr_div_pow2, uuid4_top, Z.shiftr_div_pow2 by lia.
  rewrite <- (firstn_skipn 4 r) at 1. rewrite int_from_bytes_app.
  assert (Hl : List.length (skipn 4 r) = 12%nat) by (rewrite length_skipn; lia).
  rewrite Hl.
  pose proof (int_from_bytes_bound (skipn 4 r) (Forall_drop _ 4 _ Hb)) as Hlow.
  rewrite Hl in Hlow.
  change (256 ^ Z.of_nat 12) with (2 ^ 96) in *.
  symmetry. apply Z.div_unique with (r := Uuid.int_from_bytes (skipn 4 r)); lia.
Qed.

Lemma fixed_digits_two_more w v :
  fixed_digits 16 (S (S w)) v
  = fixed_digits 16 w (v / 256)
    ++ [digit_char ((v / 16) mod 16); digit_char (v mod 16)].
Proof.
  cbn [fixed_digits]. rewrite <- app_assoc.
  rewrite Z.div_div by lia. reflexivity.
Qed.

(** The hexadecimal digits of the integer of some bytes are the
    hexadecimal digits of the bytes. *)
Lemma fixed_digits_hexlify b :
  Forall (fun x => 0 <= x <= 255) b ->
  fixed_digits 16 (2 * List.length b) (Uuid.int_from_bytes b) = hexlify b.
Proof.
  induction b as [|x b IH] using rev_ind; intros Hb; [reflexivity|].
  apply Forall_app in Hb as [Hb Hx]. apply Forall_inv in Hx.
  rewrite int_from_bytes_app, length_app. cbn [List.length].
  replace (2 * (List.length b + 1))%nat with (S (S (2 * List.length b))) by lia.
  rewrite fixed_digits_two_more.
  change (Uuid.int_from_bytes [x]) with (0 * 256 + x).
  change (256 ^ Z.of_nat 1) with 256.
  set (n := Uuid.int_from_bytes b) in *.
  replace ((n * 256 + (0 * 256 + x)) / 256) with n
    by (apply Z.div_unique with (r := x); lia).
  replace ((n * 256 + (0 * 256 + x)) mod 16) with (x mod 16).
  2:{ apply Z.mod_unique with (q := n * 16 + x / 16);
        [pose proof (Z.mod_pos_bound x 16); lia|].
      pose proof (Z.div_mod x 16 ltac:(lia)). lia. }
  replace (((n * 256 + (0 * 256 + x)) / 16) mod 16) with (x / 16).
  2:{ replace ((n * 256 + (0 * 256 + x)) / 16) with (n * 16 + x / 16).
      - apply Z.mod_unique with (q := n); [|lia].
        left. split; [apply Z.div_pos; lia | apply Z.div_lt_upper_bound; lia].
      - apply Z.div_unique with (r := x mod 16);
          [pose proof (Z.mod_pos_bound x 16); lia|].
        pose proof (Z.div_mod x 16 ltac:(lia)). lia. }
  rewrite IH by exact Hb. unfold hexlify. rewrite flat_map_app. reflexivity.
Qed.

(** X8. The eight characters between [__] and [.json.gz] are the
    hexadecimal digits of the first four of the sixteen random bytes: the
    version and variant bits that [uuid4] forces do not reach them, so the
    discriminator carries 32 random bits. *)
Theorem random_suffix_is_first_four_bytes e :
  valid_env e = true ->
  slice_to (Uuid.to_str (Uuid.uuid4 (urandom16 e))) 8
  = hexlify (firstn 4 (urandom16 e))
  /\ forall h,
       batch_filename e h
       = lit "1/v1/" ++ iso_date (now e) ++ lit "/1/" ++ h ++ lit "/"
         ++ fixed_digits 10 5 (seconds_since_midnight (now e)) ++ lit "__"
         ++ hexlify (firstn 4 (urandom16 e)) ++ lit ".json.gz".
Proof.
  intros Hv.
  assert (Hr : slice_to (Uuid.to_str (Uuid.uuid4 (urandom16 e))) 8
               = hexlify (firstn 4 (urandom16 e))).
  { destruct (batch_filename_shape e [] Hv) as (_ & _ & _ & _ & ->).
    unfold valid_env in Hv. rewrite !andb_true_iff in Hv.
    destruct Hv as [[_ Hlen] Hb]. apply Nat.eqb_eq in Hlen.
    rewrite (uuid4_top_bytes _ Hlen Hb).
    rewrite <- fixed_digits_hexlify by (apply Forall_take, bytes_Forall, Hb).
    rewrite length_firstn, Hlen. reflexivity. }
  split; [exact Hr|].
  intros h. rewrite <- Hr. apply (batch_filename_shape e h Hv).
Qed.

(** ** When two submissions get the same key *)

Lemma digit_char_inj d1 d2 :
  0 <= d1 < 16 -> 0 <= d2 < 16 -> digit_char d1 = digit_char d2 -> d1 = d2.
Proof.
  unfold digit_char. intros H1 H2.
  destruct (d1 <? 10) eqn:E1, (d2 <? 10) eqn:E2; lia.
Qed.

Lemma fixed_digits_inj base w n m :
  1 < base <= 16 ->
  0 <= n < base ^ Z.of_nat w -> 0 <= m < base ^ Z.of_nat w ->
  fixed_digits base w n = fixed_digits base w m -> n = m.
Proof.
  intros Hb. revert n m. induction w as [|w IH]; intros n m Hn Hm Heq.
  - simpl in Hn, Hm. lia.
  - cbn [fixed_digits] in Heq. apply app_inj_tail in Heq as [Hhi Hlo].
    rewrite Nat2Z.inj_succ, Z.pow_succ_r in Hn, Hm by lia.
    pose proof (Z.mod_pos_bound n base ltac:(lia)) as Hn'.
    pose proof (Z.mod_pos_bound m base ltac:(lia)) as Hm'.
    apply digit_char_inj in Hlo; [|lia|lia].
    apply IH in Hhi.
    + rewrite (Z.div_mod n base), (Z.div_mod m base) by lia. congruence.
    + split; [apply Z.div_pos; lia | apply Z.div_lt_upper_bound; lia].
    + split; [apply Z.div_pos; lia | apply Z.div_lt_upper_bound; lia].
Qed.

Lemma hexlify_inj a b :
  Forall (fun x => 0 <= x <= 255) a -> Forall (fun x => 0 <= x <= 255) b ->
  hexlify a = hexlify b -> a = b.
Proof.
  intros Ha. revert b. induction Ha as [|x a Hx Ha IH]; intros b Hb Heq.
  - destruct b; [reflexivity | discriminate].
  - destruct Hb as [|y b Hy Hb]; [discriminate|].
    unfold hexlify in Heq. cbn [flat_map app] in Heq.
    injection Heq as Hhi Hlo Hrest.
    apply digit_char_inj in Hhi;
      [| split; [apply Z.div_pos; lia | apply Z.div_lt_upper_bound; lia]
       | split; [apply Z.div_pos; lia | apply Z.div_lt_upper_bound; lia]].
    apply digit_char_inj in Hlo; [| apply Z.mod_pos_bound; lia | apply Z.mod_pos_bound; lia].
    f_equal; [|apply IH; assumption].
    rewrite (Z.div_mod x 16), (Z.div_mod y 16) by lia. congruence.
Qed.

Lemma iso_date_inj t1 t2 :
  Datetime.valid t1 = true -> Datetime.valid t2 = true ->
  iso_date t1 = iso_date t2 ->
  year t1 = year t2 /\ month t1 = month t2 /\ day t1 = day t2.
Proof.
  intros H1 H2 Heq. apply valid_bounds in H1, H2. unfold iso_date in Heq.
  apply app_inj_1 in Heq as [Hy Heq]; [|rewrite !length_fixed_digits; reflexivity].
  apply app_inv_head in Heq.
  apply app_inj_1 in Heq as [Hm Heq]; [|rewrite !length_fixed_digits; reflexivity].
  apply app_inv_head in Heq.
  apply (fixed_digits_inj 10 4) in Hy;
    [| lia | change (10 ^ Z.of_nat 4) with 10000; lia
     | change (10 ^ Z.of_nat 4) with 10000; lia].
  apply (fixed_digits_inj 10 2) in Hm;
    [| lia | change (10 ^ Z.of_nat 2) with 100; lia
     | change (10 ^ Z.of_nat 2) with 100; lia].
  apply (fixed_digits_inj 10 2) in Heq;
    [| lia | change (10 ^ Z.of_nat 2) with 100; lia
     | change (10 ^ Z.of_nat 2) with 100; lia].
  auto.
Qed.

(** X9. Two submissions of identifiers of one length get the same key
    exactly when they agree on the public identifier, on the UTC date, on
    the second of the day and on the first four random bytes. Nothing else
    of the request enters the key: neither the microsecond, nor the items,
    nor the other twelve random bytes. *)
Theorem batch_filename_collision e1 e2 h1 h2 :
  valid_env e1 = true -> valid_env e2 = true ->
  List.length h1 = List.length h2 ->
  batch_filename e1 h1 = batch_filename e2 h2
  <-> h1 = h2
      /\ (year (now e1) = year (now e2) /\ month (now e1) = month (now e2)
          /\ day (now e1) = day (now e2))
      /\ seconds_since_midnight (now e1) = seconds_since_midnight (now e2)
      /\ firstn 4 (urandom16 e1) = firstn 4 (urandom16 e2).
Proof.
  intros Hv1 Hv2 Hlen.
  assert (Hparts : forall e, valid_env e = true ->
            Datetime.valid (now e) = true
            /\ 0 <= seconds_since_midnight (now e) <= 86399
            /\ Forall (fun x => 0 <= x <= 255) (firstn 4 (urandom16 e))
            /\ List.length (firstn 4 (urandom16 e)) = 4%nat
            /\ forall h, batch_filename e h
                 = lit "1/v1/" ++ iso_date (now e) ++ lit "/1/" ++ h ++ lit "/"
                   ++ fixed_digits 10 5 (seconds_since_midnight (now e)) ++ lit "__"
                   ++ hexlify (firstn 4 (urandom16 e)) ++ lit ".json.gz").
  { intros e Hv.
    destruct (batch_filename_shape e [] Hv) as (_ & _ & Hs & _ & Hrand).
    assert (Hv' := Hv). unfold valid_env in Hv'. rewrite !andb_true_iff in Hv'.
    destruct Hv' as [[Hnow Hl] Hb]. apply Nat.eqb_eq in Hl.
    split; [exact Hnow|]. split; [exact Hs|].
    split; [apply Forall_take, bytes_Forall, Hb|].
    split; [rewrite length_firstn; lia|].
    intros h. destruct (batch_filename_shape e h Hv) as (-> & _).
    rewrite Hrand, (uuid4_top_bytes _ Hl Hb).
    rewrite <- fixed_digits_hexlify by (apply Forall_take, bytes_Forall, Hb).
    rewrite length_firstn, Hl. reflexivity. }
  destruct (Hparts e1 Hv1) as (Hn1 & Hs1 & Hb1 & Hl1 & Hk1).
  destruct (Hparts e2 Hv2) as (Hn2 & Hs2 & Hb2 & Hl2 & Hk2).
  rewrite Hk1, Hk2. split.
  - intros Heq. apply app_inv_head in Heq.
    apply app_inj_1 in Heq as [Hdate Heq];
      [|unfold iso_date; rewrite !length_app, !length_fixed_digits; reflexivity].
    apply app_inv_head in Heq.
    apply app_inj_1 in Heq as [Hh Heq]; [|exact Hlen].
    apply app_inv_head in Heq.
    apply app_inj_1 in Heq as [Hsecs Heq]; [|rewrite !length_fixed_digits; reflexivity].
    apply app_inv_head in Heq.
    apply app_inv_tail in Heq.
    split; [exact Hh|]. split; [apply iso_date_inj; assumption|].
    split.
    + apply (fixed_digits_inj 10 5) in Hsecs;
        [exact Hsecs | lia | change (10 ^ Z.of_nat 5) with 100000; lia
         | change (10 ^ Z.of_nat 5) with 100000; lia].
    + apply hexlify_inj; assumption.
  - intros (-> & (Hy & Hm & Hd) & Hs & Hr).
    unfold iso_date. rewrite Hy, Hm, Hd, Hs, Hr. reflexivity.
Qed.

(** ** The listing of users *)

Lemma in_dedup_adjacent x l : In x (dedup_adjacent l) <-> In x l.
Proof.
  induction l as [|a l IH]; [reflexivity|].
  cbn [dedup_adjacent]. destruct l as [|b l'].
  - reflexivity.
  - destruct (Bool.eqb (fst a) (fst b) && str_eqb (snd a) (snd b)) eqn:E.
    + rewrite IH. split; [right; assumption|].
      intros [<- | H]; [|exact H]. left.
      apply andb_true_iff in E as [E1 E2].
      apply Bool.eqb_prop in E1. apply str_eqb_eq in E2.
      destruct a, b; simpl in *; congruence.
    + split.
      * intros [<- | H]; [left; reflexivity | right; apply IH, H].
      * intros [<- | H]; [left; reflexivity | right; apply IH, H].
Qed.

Lemma in_firstn {A} (x : A) n l : In x (firstn n l) -> In x l.
Proof using.
  revert l. induction n as [|n IH]; intros [|a l]; simpl;
    try (intros []; fail); try (intros H; exact H).
  intros [<- | H]; [left; reflexivity | right; apply IH, H].
Qed.

Lemma length_dedup_adjacent l : (List.length (dedup_adjacent l) <= List.length l)%nat.
Proof.
  induction l as [|a l IH]; [reflexivity|].
  cbn [dedup_adjacent]. destruct l as [|b l']; [reflexivity|].
  destruct (Bool.eqb (fst a) (fst b) && str_eqb (snd a) (snd b));
    simpl in *; lia.
Qed.

Lemma up_to_slash_none s : up_to_slash s = None <-> ~ In 47 s.
Proof.
  induction s as [|c s IH]; simpl.
  - split; [intros _ [] | reflexivity].
  - destruct (c =? 47) eqn:E.
    + apply Z.eqb_eq in E. subst c. split; [discriminate | intros H; exfalso; auto].
    + apply Z.eqb_neq in E. destruct (up_to_slash s) as [p|].
      * split; [discriminate|]. intros H. exfalso. apply H. right.
        destruct (in_dec Z.eq_dec 47 s) as [Hin|Hno]; [exact Hin|].
        apply IH in Hno. discriminate.
      * split; [|reflexivity]. intros _ [Hc | Hin]; [congruence|].
        apply (proj1 IH eq_refl), Hin.
Qed.

Lemma up_to_slash_app h rest :
  Forall (fun c => c <> 47) h -> up_to_slash (h ++ 47 :: rest) = Some (h ++ [47]).
Proof.
  induction 1 as [|c h Hc Hh IH]; simpl; [reflexivity|].
  destruct (c =? 47) eqn:E; [lia|]. rewrite IH. reflexivity.
Qed.

Lemma lstrip1_no_slash s : Forall (fun c => c <> 47) s -> lstrip1 47 s = s.
Proof.
  destruct 1 as [|c s Hc Hs]; simpl; [reflexivity|].
  destruct (c =? 47) eqn:E; [lia | reflexivity].
Qed.

Lemma strip1_group h : Forall (fun c => c <> 47) h -> strip1 47 (h ++ [47]) = h.
Proof.
  intros Hh. unfold strip1.
  assert (Hrev : Forall (fun c => c <> 47) (rev h)).
  { apply Forall_forall. intros c Hc. apply list_elem_of_In, in_rev in Hc.
    rewrite Forall_forall in Hh. apply Hh, list_elem_of_In, Hc. }
  destruct h as [|c h'].
  - reflexivity.
  - assert (lstrip1 47 ((c :: h') ++ [47]) = (c :: h') ++ [47]) as ->.
    { simpl. apply Forall_inv in Hh. destruct (c =? 47) eqn:E; [lia | reflexivity]. }
    rewrite rev_app_distr.
    change (rev [47] ++ rev (c :: h')) with (47 :: rev (c :: h')).
    change (lstrip1 47 (47 :: rev (c :: h'))) with (lstrip1 47 (rev (c :: h'))).
    rewrite lstrip1_no_slash by exact Hrev.
    apply rev_involutive.
Qed.

(** The outcome of [common_prefixes], by whether the first page of the
    listing holds a group. *)
Lemma common_prefixes_cases prefix st :
  let entry k :=
    match up_to_slash (skipn (List.length prefix) k) with
    | Some group => (true, prefix ++ group)
    | None => (false, k)
    end in
  let groups :=
    List.filter fst (firstn 1000 (dedup_adjacent (List.map entry (listed prefix st)))) in
  common_prefixes prefix st
  = (match groups with
     | [] => Raises KeyError
     | _ :: _ => Returns (List.map snd groups)
     end, st).
Proof.
  intros entry groups. unfold common_prefixes, bind, objects_filter.
  fold (listed prefix st). fold entry. fold groups.
  destruct groups; reflexivity.
Qed.

(** X10. The listing of users never returns an empty list. When no key
    under [1/v1/{date}/1/] continues with a slash (in particular when the
    bucket holds nothing for that date) the store's answer has no
    ['CommonPrefixes'] and the handler raises [KeyError], a status 500; when
    it returns, the list has at least one element. *)
Theorem users_listing_never_empty d st :
  check_date_str d = Returns tt ->
  ((forall k, In k (listed (users_prefix d) st) ->
              ~ In 47 (skipn (List.length (users_prefix d)) k)) ->
   get_user_id_hashes_for_date d st = (Raises KeyError, st)
   /\ response_status (fst (get_user_id_hashes_for_date d st)) = 500)
  /\ (forall v st',
        get_user_id_hashes_for_date d st = (Returns v, st') ->
        exists u us, v = JList (List.map JStr (u :: us)) /\ st' = st).
Proof using.
  intros Hd.
  unfold get_user_id_hashes_for_date, get_subfolders, bind, lift.
  rewrite Hd. fold (users_prefix d).
  rewrite common_prefixes_cases. cbv zeta.
  set (entry := fun k : str =>
         match up_to_slash (skipn (List.length (users_prefix d)) k) with
         | Some group => (true, users_prefix d ++ group)
         | None => (false, k)
         end).
  set (groups := List.filter fst _).
  split.
  - intros Hno.
    assert (Hg : groups = []).
    { destruct groups as [|g gs] eqn:Eg; [reflexivity|]. exfalso.
      assert (Hin : In g groups) by (rewrite Eg; left; reflexivity).
      unfold groups in Hin. apply filter_In in Hin as [Hin Hfst].
      apply in_firstn, in_dedup_adjacent, in_map_iff in Hin as (k & <- & Hk).
      unfold entry in Hfst.
      destruct (up_to_slash _) eqn:E; [|discriminate].
      apply Hno in Hk. apply up_to_slash_none in Hk. congruence. }
    rewrite Hg. split; reflexivity.
  - intros v st'. destruct groups as [|g gs]; [discriminate|].
    intros [= <- <-]. cbn [List.map]. eauto.
Qed.

(** X11. After a submission that returned, and as long as the day has no
    more than 1000 objects (the one listing call the handler makes answers
    with its first 1000 entries), the listing of users for the date of the
    submission returns a list that holds the public identifier returned. *)
Theorem submit_then_list_users e batch st r st' :
  valid_env e = true ->
  create_batch e batch st = (Returns r, st') ->
  (List.length (listed (users_prefix (date_str (now e))) st') <= 1000)%nat ->
  exists h us,
    r = ok_response h
    /\ get_user_id_hashes_for_date (date_str (now e)) st'
       = (Returns (JList (List.map JStr us)), st')
    /\ In h us.
Proof using.
  intros Hv Hrun Hpage.
  assert (Hnow : Datetime.valid (now e) = true).
  { unfold valid_env in Hv. rewrite !andb_true_iff in Hv.
    destruct Hv as [[Hnow _] _]. exact Hnow. }
  rewrite create_batch_cases in Hrun.
  destruct (MAX_BATCH_SIZE <? len (items batch)); [discriminate|].
  destruct (negb (len (user_id batch) =? USER_ID_LENGTH)); [discriminate|].
  destruct (encode_utf8 (user_id batch)) as [id_bytes|]; [|discriminate].
  cbn zeta in Hrun. destruct (put_accepted e); [|discriminate].
  injection Hrun as <- <-.
  set (h := Sha3.hexdigest id_bytes) in *.
  set (st' := mk_state _ _) in *.
  assert (Hh : Forall (fun c => c <> 47) h).
  { eapply Forall_impl; [apply (hexdigest_shape id_bytes)|].
    intros c Hc. apply digit_not_slash, Hc. }
  set (prefix := users_prefix (date_str (now e))) in *.
  assert (Hkey : batch_filename e h = prefix ++ h ++ 47 :: batch_file_name e).
  { rewrite (batch_filename_split e h Hv). unfold prefix, users_prefix.
    rewrite (date_str_iso _ Hnow). rewrite <- !app_assoc. reflexivity. }
  exists h. unfold get_user_id_hashes_for_date, get_subfolders, bind, lift.
  rewrite (check_date_str_now _ Hnow). fold prefix.
  rewrite common_prefixes_cases. cbv zeta.
  set (entry := fun k : str =>
         match up_to_slash (skipn (List.length prefix) k) with
         | Some group => (true, prefix ++ group)
         | None => (false, k)
         end).
  set (groups := List.filter fst _).
  assert (Hin : In (true, prefix ++ h ++ [47]) groups).
  { unfold groups. apply filter_In. split; [|reflexivity].
    rewrite firstn_all2.
    - apply in_dedup_adjacent, in_map_iff. exists (batch_filename e h). split.
      + unfold entry. rewrite Hkey, skipn_length_app, up_to_slash_app by exact Hh.
        reflexivity.
      + apply in_listed. split.
        * unfold st'. cbn [bucket]. rewrite lookup_insert_eq. eauto.
        * rewrite Hkey. eauto.
    - etransitivity; [apply length_dedup_adjacent|].
      rewrite length_map. exact Hpage. }
  destruct groups as [|g gs] eqn:Eg; [destruct Hin|].
  eexists. split; [reflexivity|]. split; [reflexivity|].
  apply in_map_iff. exists (prefix ++ h ++ [47]). split.
  - rewrite skipn_length_app. apply strip1_group, Hh.
  - apply in_map_iff. exists (true, prefix ++ h ++ [47]). split; [reflexivity | exact Hin].
Qed.

(** ** What the date check accepts *)

(** X5. [check_date_str] returns exactly on the strings that begin with
    four decimal digits, a hyphen, two decimal digits, a hyphen and two
    decimal digits, whatever follows them and whatever number the digits
    spell (no month or day is checked, and a digit is any Unicode decimal
    digit); on every other string it raises the exception with status
    400. *)
Theorem check_date_str_accepts_exactly s :
  (check_date_str s = Returns tt
   <-> exists y1 y2 y3 y4 m1 m2 d1 d2 rest,
         s = [y1; y2; y3; y4; 45; m1; m2; 45; d1; d2] ++ rest
         /\ forallb Re.is_decimal_digit [y1; y2; y3; y4; m1; m2; d1; d2] = true)
  /\ (check_date_str s = Returns tt
      \/ check_date_str s = Raises date_format_error).
Proof.
  split.
  - rewrite check_date_str_accepts. split.
    + intros (d & rest & -> & Hd). apply fullmatch_date_form in Hd.
      destruct Hd as (y1 & y2 & y3 & y4 & m1 & m2 & d1 & d2 & -> & Hdigits).
      exists y1, y2, y3, y4, m1, m2, d1, d2, rest. auto.
    + intros (y1 & y2 & y3 & y4 & m1 & m2 & d1 & d2 & rest & -> & Hdigits).
      exists [y1; y2; y3; y4; 45; m1; m2; 45; d1; d2], rest.
      split; [reflexivity|]. apply fullmatch_date_form.
      exists y1, y2, y3, y4, m1, m2, d1, d2. auto.
  - unfold check_date_str. destruct (Re.match_ DATE_REGEX s); simpl; auto.
Qed.

(** ** From a listing to the batch *)

(** Every object of a bucket that only submissions have written to is the
    object of one of them: the invariant is kept by every request. *)
Lemma handle_objects (Q : env -> Batch -> Prop) r st :
  match r with PostBatch e b => valid_env e = true /\ Q e b | _ => True end ->
  (forall k v, bucket st !! k = Some v ->
     exists e b, Q e b /\ valid_env e = true /\ object_of e b k v) ->
  forall k v, bucket (snd (handle r st)) !! k = Some v ->
    exists e b, Q e b /\ valid_env e = true /\ object_of e b k v.
Proof.
  intros Hr Hst k v.
  destruct r as [e batch| d u | d u b | | d |];
    try (rewrite handle_reads_only by congruence; apply Hst).
  destruct Hr as [Hv HQ]. simpl. rewrite create_batch_cases.
  destruct (MAX_BATCH_SIZE <? len (items batch)); [apply Hst|].
  destruct (negb (len (user_id batch) =? USER_ID_LENGTH)); [apply Hst|].
  destruct (encode_utf8 (user_id batch)) as [id_bytes|] eqn:Eid; [|apply Hst].
  cbn zeta. destruct (put_accepted e); [|apply Hst].
  cbn [snd bucket]. intros Hk.
  destruct (decide (batch_filename e (Sha3.hexdigest id_bytes) = k)) as [<-|Hne].
  - rewrite lookup_insert_eq in Hk. injection Hk as <-.
    exists e, batch. split; [exact HQ|]. split; [exact Hv|].
    exists id_bytes. auto.
  - rewrite lookup_insert_ne in Hk by exact Hne. apply Hst, Hk.
Qed.

Lemma run_objects (Q : env -> Batch -> Prop) rs : forall st,
  Forall (fun r => match r with
                   | PostBatch e b => valid_env e = true /\ Q e b
                   | _ => True
                   end) rs ->
  (forall k v, bucket st !! k = Some v ->
     exists e b, Q e b /\ valid_env e = true /\ object_of e b k v) ->
  forall k v, bucket (snd (run rs st)) !! k = Some v ->
    exists e b, Q e b /\ valid_env e = true /\ object_of e b k v.
Proof.
  induction rs as [|r rs IH]; intros st Hrs Hst k v; simpl; [apply Hst|].
  apply Forall_cons in Hrs as [Hr Hrs].
  pose proof (handle_objects Q r st Hr Hst) as Hstep.
  destruct (handle r st) as [o st1]. simpl in Hstep.
  specialize (IH st1 Hrs Hstep k v).
  destruct (run rs st1) as [os st2]. exact IH.
Qed.

Lemma map_outcome_in_inv {A B} (f : A -> outcome B) l ys y :
  map_outcome f l = Returns ys -> In y ys ->
  exists x, In x l /\ f x = Returns y.
Proof.
  revert ys. induction l as [|a l IH]; intros ys Hm Hin; simpl in Hm.
  - injection Hm as <-. destruct Hin.
  - destruct (f a) as [b|] eqn:Ea; [|discriminate].
    destruct (map_outcome f l) as [bs|] eqn:El; [|discriminate].
    injection Hm as <-. destruct Hin as [<- | Hin].
    + exists a. split; [left; reflexivity | exact Ea].
    + destruct (IH bs eq_refl Hin) as (x & Hx & Hfx).
      exists x. split; [right; exact Hx | exact Hfx].
Qed.

Lemma map_JStr_inj a b : List.map JStr a = List.map JStr b -> a = b.
Proof.
  revert b. induction a as [|x a IH]; intros [|y b] H; simpl in H;
    try discriminate; [reflexivity|].
  injection H as -> H. f_equal. apply IH, H.
Qed.

Lemma length_iso_date t : List.length (iso_date t) = 10%nat.
Proof. unfold iso_date. rewrite !length_app, !length_fixed_digits. reflexivity. Qed.

(** A key of a submission that begins with the prefix of a date that
    passes the check and a public identifier of 64 characters: the date is
    the date of the key and nothing more, the identifier is that of the
    key, and what follows the prefix is the file name. *)
Lemma submission_under_prefix e h d u rest :
  valid_env e = true -> List.length h = 64%nat ->
  check_date_str d = Returns tt -> check_public_user_id u = Returns tt ->
  batch_filename e h = batches_prefix d u ++ rest ->
  d = iso_date (now e) /\ u = h /\ rest = batch_file_name e.
Proof.
  intros Hv Hh Hd Hu Hkey.
  pose proof (batch_file_name_no_slash e Hv) as Hname.
  apply check_date_str_accepts in Hd as (d10 & drest & -> & Hd).
  assert (Hd10 : List.length d10 = 10%nat).
  { apply fullmatch_date_form in Hd
      as (y1 & y2 & y3 & y4 & m1 & m2 & d1 & d2 & -> & _). reflexivity. }
  assert (Hu64 : List.length u = 64%nat).
  { unfold check_public_user_id, len, PUBLIC_USER_ID_LENGTH in Hu.
    destruct (Z.of_nat (List.length u) =? 64) eqn:E; [lia|discriminate]. }
  rewrite (batch_filename_split e h Hv) in Hkey. unfold batches_prefix in Hkey.
  change VERSION with (lit "v1") in Hkey.
  change (lit "1/" ++ lit "v1" ++ lit "/" ++ (d10 ++ drest) ++ lit "/1/" ++ u ++ lit "/")
    with (lit "1/v1/" ++ (d10 ++ drest) ++ lit "/1/" ++ u ++ lit "/") in Hkey.
  rewrite <- !app_assoc in Hkey.
  apply app_inv_head in Hkey.
  apply app_inj_1 in Hkey as [Hiso Hkey];
    [|rewrite length_iso_date, Hd10; reflexivity].
  destruct drest as [|c drest].
  - simpl in Hkey. injection Hkey as Hkey.
    change (h ++ 47 :: batch_file_name e = u ++ 47 :: rest) in Hkey.
    apply app_inj_1 in Hkey as [-> Hkey]; [|congruence].
    injection Hkey as <-. rewrite Hiso, app_nil_r. auto.
  - exfalso.
    assert (Hl : ((lit "/1/" ++ h ++ [47]) ++ batch_file_name e)
                 !! (List.length ((c :: drest) ++ lit "/1/" ++ u)) = Some 47).
    { replace ((lit "/1/" ++ h ++ [47]) ++ batch_file_name e)
        with (((c :: drest) ++ lit "/1/" ++ u) ++ 47 :: rest).
      - apply list_lookup_middle. reflexivity.
      - rewrite <- !app_assoc. symmetry. exact Hkey. }
    rewrite lookup_app_r in Hl
      by (rewrite !length_app, Hh, Hu64; simpl; lia).
    apply (Forall_lookup_1 _ _ _ _ Hname) in Hl. congruence.
Qed.

(** X13. After any sequence of requests on a bucket that was empty at the
    start, every batch identifier that a listing returns can be fetched
    with the date and the public identifier of that listing:
    [get_batch_from_id] finds the object that one of the submissions of the
    sequence wrote (never the answer of the file server for a missing
    object) and returns what [gzip.decompress] and [json.loads] make of it.
    The date of the listing is then the date of that submission, exactly,
    and the public identifier is the digest of its [user_id]. *)
Theorem listed_batch_is_fetched rs d u ids id :
  Forall (fun r => match r with PostBatch e _ => valid_env e = true | _ => True end) rs ->
  let st := snd (run rs (start ∅)) in
  get_batches_for_date_and_user d u st = (Returns (batch_ids_response ids), st) ->
  In id ids ->
  exists e batch id_bytes,
    In (PostBatch e batch) rs
    /\ encode_utf8 (user_id batch) = Some id_bytes
    /\ d = date_str (now e)
    /\ u = Sha3.hexdigest id_bytes
    /\ id = batch_id_of e
    /\ get_batch_from_id d u id st
       = (decoded (gzip_compress (gzip_mtime e) (stored_text e u batch)), st).
Proof.
  intros Hrs st Hlist Hid.
  assert (Hd : check_date_str d = Returns tt).
  { destruct (check_date_str d) as [[]|x] eqn:E; [reflexivity|].
    unfold get_batches_for_date_and_user, bind, lift in Hlist.
    rewrite E in Hlist. discriminate. }
  assert (Hu : check_public_user_id u = Returns tt).
  { destruct (check_public_user_id u) as [[]|x] eqn:E; [reflexivity|].
    unfold get_batches_for_date_and_user, bind, lift in Hlist.
    rewrite Hd, E in Hlist. discriminate. }
  rewrite (get_batches_for_date_and_user_cases _ _ _ Hd Hu) in Hlist.
  match type of Hlist with
  | context [map_outcome ?f ?l] => destruct (map_outcome f l) as [ids'|] eqn:Hm
  end; [|discriminate].
  injection Hlist as Hids. apply map_JStr_inj in Hids. subst ids'.
  destruct (map_outcome_in_inv _ _ _ _ Hm Hid) as (name & Hname & Hstrip).
  apply in_sorted, in_map_iff in Hname as (k & <- & Hk).
  apply in_listed in Hk as [[v Hv] [rest Hrest]].
  assert (Hobj : exists e b, In (PostBatch e b) rs /\ valid_env e = true
                             /\ object_of e b k v).
  { apply (run_objects (fun e b => In (PostBatch e b) rs) rs (start ∅)).
    - clear -Hrs. rewrite Forall_forall in Hrs. apply Forall_forall.
      intros [e b| | | | |] Hin; try exact I.
      split; [apply (Hrs _ Hin) | apply list_elem_of_In, Hin].
    - intros k' v' H'. simpl in H'. rewrite lookup_empty in H'. discriminate.
    - exact Hv. }
  destruct Hobj as (e & batch & Hin & Hve & id_bytes & Hid_bytes & Hkey & Hdata).
  set (h := Sha3.hexdigest id_bytes) in *.
  destruct (hexdigest_shape id_bytes) as [Hlen Hhex]. fold h in Hlen, Hhex.
  assert (Hnow : Datetime.valid (now e) = true).
  { unfold valid_env in Hve. rewrite !andb_true_iff in Hve.
    destruct Hve as [[Hnow _] _]. exact Hnow. }
  rewrite Hkey in Hrest.
  destruct (submission_under_prefix e h d u rest Hve Hlen Hd Hu Hrest)
    as (Hdate & -> & ->).
  rewrite Hkey, (batch_filename_split e h Hve) in Hstrip.
  rewrite basename_app in Hstrip by (apply batch_file_name_no_slash, Hve).
  rewrite batch_file_name_id, get_batch_id_app in Hstrip.
  injection Hstrip as <-.
  exists e, batch, id_bytes.
  split; [exact Hin|]. split; [exact Hid_bytes|].
  split; [rewrite (date_str_iso _ Hnow); exact Hdate|].
  split; [reflexivity|]. split; [reflexivity|].
  assert (Hfull : lit "1/" ++ VERSION ++ lit "/" ++ d ++ lit "/1/" ++ h ++ lit "/"
                  ++ batch_id_of e ++ FILE_NAME_SUFFIX = k).
  { rewrite Hkey, (batch_filename_split e h Hve), batch_file_name_id, Hdate.
    rewrite <- !app_assoc. reflexivity. }
  rewrite (get_batch_from_id_found d h (batch_id_of e) st v Hd Hu).
  - rewrite Hdata. reflexivity.
  - rewrite Hfull, Hkey. apply plain_batch_filename; assumption.
  - rewrite Hfull. exact Hv.
Qed.

(** ** From the users of a day to their batches *)

(** The slashes of what follows [1/v1/{date}] in the key of a submission. *)
Lemma slashes_of_key_tail (h name : str) i :
  List.length h = 64%nat ->
  Forall (fun c => c <> 47) h -> Forall (fun c => c <> 47) name ->
  (lit "/1/" ++ h ++ 47 :: name) !! i = Some 47 ->
  i = 0%nat \/ i = 2%nat \/ i = 67%nat.
Proof.
  intros Hlen Hh Hname Hi.
  destruct i as [|[|[|i]]]; [auto | discriminate | auto |].
  change ((h ++ 47 :: name) !! i = Some 47) in Hi.
  destruct (decide (i < 64)%nat) as [Hlt|Hge].
  - rewrite lookup_app_l in Hi by lia.
    apply (Forall_lookup_1 _ _ _ _ Hh) in Hi. congruence.
  - rewrite lookup_app_r in Hi by lia. rewrite Hlen in Hi.
    destruct (i - 64)%nat as [|j] eqn:Ej; [right; right; lia|].
    simpl in Hi. apply (Forall_lookup_1 _ _ _ _ Hname) in Hi. congruence.
Qed.

(** A key of a submission that begins with the prefix of the users of a
    date that passes the check: the date is the date of the key and nothing
    more, and the prefix is followed by the public identifier, a slash and
    the file name. *)
Lemma submission_under_users_prefix e h d rest :
  valid_env e = true -> List.length h = 64%nat ->
  Forall (fun c => c <> 47) h ->
  check_date_str d = Returns tt ->
  batch_filename e h = users_prefix d ++ rest ->
  d = iso_date (now e) /\ rest = h ++ 47 :: batch_file_name e.
Proof.
  intros Hv Hlen Hh Hd Hkey.
  pose proof (batch_file_name_no_slash e Hv) as Hname.
  apply check_date_str_accepts in Hd as (d10 & drest & -> & Hd).
  assert (Hd10 : List.length d10 = 10%nat).
  { apply fullmatch_date_form in Hd
      as (y1 & y2 & y3 & y4 & m1 & m2 & d1 & d2 & -> & _). reflexivity. }
  rewrite (batch_filename_split e h Hv) in Hkey. unfold users_prefix in Hkey.
  change VERSION with (lit "v1") in Hkey.
  change (lit "1/" ++ lit "v1" ++ lit "/" ++ (d10 ++ drest) ++ lit "/1/")
    with (lit "1/v1/" ++ (d10 ++ drest) ++ lit "/1/") in Hkey.
  rewrite <- !app_assoc in Hkey.
  apply app_inv_head in Hkey.
  apply app_inj_1 in Hkey as [Hiso Hkey];
    [|rewrite length_iso_date, Hd10; reflexivity].
  destruct drest as [|c drest].
  - simpl in Hkey. injection Hkey as Hkey.
    rewrite Hiso, app_nil_r. split; [reflexivity|]. symmetry. exact Hkey.
  - exfalso.
    change (lit "/1/" ++ h ++ 47 :: batch_file_name e
            = (c :: drest) ++ 47 :: 49 :: 47 :: rest) in Hkey.
    assert (H1 : (lit "/1/" ++ h ++ 47 :: batch_file_name e)
                 !! List.length (c :: drest) = Some 47).
    { rewrite Hkey. apply list_lookup_middle. reflexivity. }
    assert (H2 : (lit "/1/" ++ h ++ 47 :: batch_file_name e)
                 !! List.length ((c :: drest) ++ [47; 49]) = Some 47).
    { rewrite Hkey.
      change ((c :: drest) ++ 47 :: 49 :: 47 :: rest)
        with ((c :: drest) ++ [47; 49] ++ 47 :: rest).
      rewrite app_assoc. apply list_lookup_middle. reflexivity. }
    apply slashes_of_key_tail in H1; [|assumption..].
    apply slashes_of_key_tail in H2; [|assumption..].
    rewrite length_app in H2. simpl in H1, H2. lia.
Qed.

(** X14. After any sequence of requests on a bucket that was empty at the
    start, every public identifier that the listing of the users of a date
    returns is the digest of the [user_id] of a submission of the sequence
    made on that date (the date of the listing being that date exactly),
    and the listing of the batches of that date and identifier returns and
    holds the batch identifier of that submission. *)
Theorem listed_user_has_batches rs d us u :
  Forall (fun r => match r with PostBatch e _ => valid_env e = true | _ => True end) rs ->
  let st := snd (run rs (start ∅)) in
  get_user_id_hashes_for_date d st = (Returns (JList (List.map JStr us)), st) ->
  In u us ->
  exists e batch id_bytes ids,
    In (PostBatch e batch) rs
    /\ encode_utf8 (user_id batch) = Some id_bytes
    /\ d = date_str (now e)
    /\ u = Sha3.hexdigest id_bytes
    /\ get_batches_for_date_and_user d u st = (Returns (batch_ids_response ids), st)
    /\ In (batch_id_of e) ids.
Proof.
  intros Hrs st Hlist Hu.
  assert (Hd : check_date_str d = Returns tt).
  { destruct (check_date_str d) as [[]|x] eqn:E; [reflexivity|].
    unfold get_user_id_hashes_for_date, bind, lift in Hlist.
    rewrite E in Hlist. discriminate. }
  assert (Hkeys : forall k, is_Some (bucket st !! k) -> submission_key k).
  { apply (run_keys_of_submissions rs (start ∅) Hrs).
    intros k' Hk'. simpl in Hk'. rewrite lookup_empty in Hk'.
    destruct Hk' as [? [=]]. }
  unfold get_user_id_hashes_for_date, get_subfolders, bind, lift in Hlist.
  rewrite Hd in Hlist. fold (users_prefix d) in Hlist.
  rewrite common_prefixes_cases in Hlist. cbv zeta in Hlist.
  set (prefix := users_prefix d) in *.
  set (entry := fun k : str =>
         match up_to_slash (skipn (List.length prefix) k) with
         | Some group => (true, prefix ++ group)
         | None => (false, k)
         end) in Hlist.
  set (groups := List.filter fst _) in Hlist.
  assert (Hus : us = List.map (fun p => strip1 47 (skipn (List.length prefix) p))
                       (List.map snd groups)).
  { destruct groups as [|g gs]; [discriminate|].
    apply (f_equal (fun o : outcome json * state =>
                      match o with (Returns (JList l), _) => l | _ => [] end))
      in Hlist.
    cbv beta iota in Hlist. apply map_JStr_inj in Hlist. symmetry. exact Hlist. }
  rewrite Hus in Hu.
  apply in_map_iff in Hu as (p & <- & Hp).
  apply in_map_iff in Hp as (g & <- & Hg).
  unfold groups in Hg. apply filter_In in Hg as [Hg Hfst].
  apply in_firstn, in_dedup_adjacent, in_map_iff in Hg as (k & Hgk & Hk).
  pose proof Hk as Hk'.
  apply in_listed in Hk' as [[v Hv] [rest Hrest]].
  assert (Hobj : exists e b, In (PostBatch e b) rs /\ valid_env e = true
                             /\ object_of e b k v).
  { apply (run_objects (fun e b => In (PostBatch e b) rs) rs (start ∅)).
    - clear -Hrs. rewrite Forall_forall in Hrs. apply Forall_forall.
      intros [e b| | | | |] Hin; try exact I.
      split; [apply (Hrs _ Hin) | apply list_elem_of_In, Hin].
    - intros k' v' H'. simpl in H'. rewrite lookup_empty in H'. discriminate.
    - exact Hv. }
  destruct Hobj as (e & batch & Hin & Hve & id_bytes & Hid_bytes & Hkey & Hdata).
  set (h := Sha3.hexdigest id_bytes) in *.
  destruct (hexdigest_shape id_bytes) as [Hlen Hhex]. fold h in Hlen, Hhex.
  assert (Hh : Forall (fun c => c <> 47) h).
  { eapply Forall_impl; [exact Hhex|]. intros c Hc. apply digit_not_slash, Hc. }
  assert (Hnow : Datetime.valid (now e) = true).
  { unfold valid_env in Hve. rewrite !andb_true_iff in Hve.
    destruct Hve as [[Hnow _] _]. exact Hnow. }
  rewrite Hkey in Hrest.
  destruct (submission_under_users_prefix e h d rest Hve Hlen Hh Hd Hrest)
    as (Hdate & ->).
  fold prefix in Hrest.
  assert (Hentry : entry k = (true, prefix ++ h ++ [47])).
  { unfold entry. rewrite Hkey, Hrest, skipn_length_app, up_to_slash_app by exact Hh.
    reflexivity. }
  assert (Hg' : g = (true, prefix ++ h ++ [47]))
    by (rewrite <- Hgk; exact Hentry).
  rewrite Hg'. cbn [snd].
  rewrite skipn_length_app, strip1_group by exact Hh.
  assert (Hu64 : check_public_user_id h = Returns tt)
    by apply check_public_user_id_digest.
  assert (Hsuf : forall k0, In k0 (listed (batches_prefix d h) st) ->
                            endswith (basename k0) FILE_NAME_SUFFIX = true).
  { intros k0 Hk0. apply in_listed in Hk0 as [Hk0 _].
    apply submission_key_basename, Hkeys, Hk0. }
  exists e, batch, id_bytes. eexists.
  split; [exact Hin|]. split; [exact Hid_bytes|].
  split; [rewrite (date_str_iso _ Hnow); exact Hdate|].
  split; [reflexivity|].
  split; [apply (listing_returns_names d h st Hd Hu64 Hsuf)|].
  apply in_map_iff. exists (batch_file_name e). split.
  - rewrite batch_file_name_id. apply strip_suffix_app.
  - apply in_sorted, in_map_iff. exists k. split.
    + rewrite Hkey, (batch_filename_split e h Hve).
      apply basename_app, batch_file_name_no_slash, Hve.
    + apply in_listed. split; [eauto|].
      exists (batch_file_name e). rewrite Hkey, Hrest.
      unfold prefix, users_prefix, batches_prefix.
      rewrite <- !app_assoc. reflexivity.
Qed.

End App.

(** * The reference JSON reader on what [json.dumps] writes

    [json.dumps] with [ensure_ascii] writes a character outside ASCII as
    one escape, or as the escapes of a surrogate pair when it lies above
    U+FFFF; [json.loads] reads two escapes that form a surrogate pair as
    one character. A string is therefore read back as it was written
    exactly when it holds no high surrogate immediately followed by a low
    surrogate. *)

Lemma dumps_list l : dumps (JList l) = lit "[" ++ dumps_items l ++ lit "]".
Proof. reflexivity. Qed.

Lemma dumps_obj l : dumps (JObj l) = lit "{" ++ dumps_entries l ++ lit "}".
Proof. reflexivity. Qed.

Lemma read_value_S fuel s :
  Reference.read_value (S fuel) s =
  let s := Reference.skip_ws s in
  if startswith s (lit "null") then Some (JNull, skipn 4 s)
  else if startswith s (lit "true") then Some (JBool true, skipn 4 s)
  else if startswith s (lit "false") then Some (JBool false, skipn 5 s)
  else match s with
  | [] => None
  | c :: r =>
      if c =? 34 then
        match Reference.read_string (S (List.length r)) r [] with
        | Some (t, r') => Some (JStr t, r')
        | None => None
        end
      else if c =? 91 then
        match Reference.skip_ws r with
        | 93 :: r' => Some (JList [], r')
        | _ => read_elements (Reference.read_value fuel) (List.length r) r []
        end
      else if c =? 123 then
        match Reference.skip_ws r with
        | 125 :: r' => Some (JObj [], r')
        | _ => read_entries (Reference.read_value fuel) (List.length r) r []
        end
      else
        match Reference.read_int s with
        | Some (n, r') => Some (JInt n, r')
        | None => None
        end
  end.
Proof. reflexivity. Qed.

(** ** Strings *)

Lemma read_string_quote f r acc :
  Reference.read_string (S f) (34 :: r) acc = Some (rev acc, r).
Proof. reflexivity. Qed.

Lemma read_string_plain f c r acc :
  (c =? 34) = false -> (c <? 32) = false -> (c =? 92) = false ->
  Reference.read_string (S f) (c :: r) acc = Reference.read_string f r (c :: acc).
Proof. intros H1 H2 H3. cbn [Reference.read_string]. rewrite H1, H2, H3. reflexivity. Qed.

Lemma read_string_escape f e x r acc :
  In (e, x) [(34, 34); (92, 92); (98, 8); (102, 12); (110, 10); (114, 13); (116, 9)] ->
  Reference.read_string (S f) (92 :: e :: r) acc = Reference.read_string f r (x :: acc).
Proof.
  intros H. repeat (destruct H as [[= <- <-] | H]; [reflexivity|]). destruct H.
Qed.

Lemma read_string_u f r1 acc :
  Reference.read_string (S f) (92 :: 117 :: r1) acc =
  match Reference.hex4 r1 with
  | None => None
  | Some (u, r2) =>
      let single := Reference.read_string f r2 (u :: acc) in
      if (55296 <=? u) && (u <=? 56319) then
        match r2 with
        | 92 :: 117 :: r3 =>
            match Reference.hex4 r3 with
            | Some (v, r4) =>
                if (56320 <=? v) && (v <=? 57343)
                then Reference.read_string f r4
                       (65536 + (u - 55296) * 1024 + (v - 56320) :: acc)
                else single
            | None => single
            end
        | _ => single
        end
      else single
  end.
Proof. reflexivity. Qed.

Lemma hex_value_digit d : 0 <= d < 16 -> Reference.hex_value (digit_char d) = Some d.
Proof.
  intros H. unfold Reference.hex_value, digit_char.
  destruct (d <? 10) eqn:E.
  - replace ((48 <=? 48 + d) && (48 + d <=? 57)) with true by lia.
    f_equal. lia.
  - replace ((48 <=? 87 + d) && (87 + d <=? 57)) with false by lia.
    replace ((97 <=? 87 + d) && (87 + d <=? 102)) with true by lia.
    f_equal. lia.
Qed.

Lemma fmt_0x_4 u : 0 <= u < 65536 -> fmt_0x 4 u = fixed_digits 16 4 u.
Proof.
  intros H. unfold fmt_0x. apply (zfill_digits 16 4); [lia | lia |].
  change (16 ^ Z.of_nat 4) with 65536. exact H.
Qed.

Lemma hex4_fmt u r :
  0 <= u < 65536 -> Reference.hex4 (fmt_0x 4 u ++ r) = Some (u, r).
Proof.
  intros H. rewrite (fmt_0x_4 u H). cbn [fixed_digits app].
  unfold Reference.hex4.
  rewrite !hex_value_digit by (apply Z.mod_pos_bound; lia).
  f_equal. f_equal.
  pose proof (Z.div_mod u 16 ltac:(lia)).
  pose proof (Z.div_mod (u / 16) 16 ltac:(lia)).
  pose proof (Z.div_mod (u / 16 / 16) 16 ltac:(lia)).
  pose proof (Z.mod_pos_bound u 16 ltac:(lia)).
  pose proof (Z.mod_pos_bound (u / 16) 16 ltac:(lia)).
  pose proof (Z.mod_pos_bound (u / 16 / 16) 16 ltac:(lia)).
  assert (u / 16 / 16 / 16 < 16).
  { apply Z.div_lt_upper_bound; [lia|]. apply Z.div_lt_upper_bound; [lia|].
    apply Z.div_lt_upper_bound; lia. }
  assert (0 <= u / 16 / 16 / 16).
  { apply Z.div_pos; [|lia]. apply Z.div_pos; [|lia]. apply Z.div_pos; lia. }
  rewrite (Z.mod_small (u / 16 / 16 / 16) 16) by lia. lia.
Qed.

Lemma lor_high_bits a x :
  Z.land a 1023 = 0 -> 0 <= x < 1024 -> Z.lor a x = a + x.
Proof.
  intros Ha Hx.
  assert (Hl : Z.land a x = 0).
  { replace x with (Z.land 1023 x).
    - rewrite Z.land_assoc, Ha. apply Z.land_0_l.
    - rewrite Z.land_comm. change 1023 with (Z.ones 10).
      rewrite Z.land_ones by lia. apply Z.mod_small. change (2 ^ 10) with 1024. lia. }
  rewrite <- Z.lxor_lor by exact Hl. symmetry. apply Z.add_nocarry_lxor, Hl.
Qed.

Lemma surrogates_of c :
  65536 <= c <= 1114111 ->
  let n := c - 65536 in
  let s1 := Z.lor 55296 (Z.land (Z.shiftr n 10) 1023) in
  let s2 := Z.lor 56320 (Z.land n 1023) in
  55296 <= s1 <= 56319 /\ 56320 <= s2 <= 57343
  /\ 65536 + (s1 - 55296) * 1024 + (s2 - 56320) = c.
Proof.
  intros Hc n s1 s2.
  assert (Hn : 0 <= n < 1048576) by (unfold n; lia).
  assert (H1 : Z.land (Z.shiftr n 10) 1023 = n / 1024).
  { change 1023 with (Z.ones 10). rewrite Z.land_ones, Z.shiftr_div_pow2 by lia.
    change (2 ^ 10) with 1024. apply Z.mod_small.
    split; [apply Z.div_pos; lia | apply Z.div_lt_upper_bound; lia]. }
  assert (H2 : Z.land n 1023 = n mod 1024).
  { change 1023 with (Z.ones 10). rewrite Z.land_ones by lia. reflexivity. }
  pose proof (Z.mod_pos_bound n 1024 ltac:(lia)) as Hm.
  assert (Hd : 0 <= n / 1024 < 1024).
  { split; [apply Z.div_pos; lia | apply Z.div_lt_upper_bound; lia]. }
  pose proof (Z.div_mod n 1024 ltac:(lia)) as Hdm.
  unfold s1, s2. rewrite H1, H2.
  rewrite !lor_high_bits by (try reflexivity; lia).
  unfold n in *. lia.
Qed.

Lemma escape_char_cases c :
  0 <= c <= 1114111 ->
  (exists e, In (e, c) [(34, 34); (92, 92); (98, 8); (102, 12); (110, 10);
                        (114, 13); (116, 9)]
             /\ escape_char c = [92; e])
  \/ ((c =? 34) = false /\ (c <? 32) = false /\ (c =? 92) = false
      /\ escape_char c = [c])
  \/ (0 <= c < 65536 /\ escape_char c = 92 :: 117 :: fmt_0x 4 c)
  \/ (exists s1 s2,
        55296 <= s1 <= 56319 /\ 56320 <= s2 <= 57343
        /\ 65536 + (s1 - 55296) * 1024 + (s2 - 56320) = c
        /\ is_surrogate c = false
        /\ escape_char c = 92 :: 117 :: fmt_0x 4 s1 ++ 92 :: 117 :: fmt_0x 4 s2).
Proof.
  intros Hc. unfold escape_char.
  destruct (c =? 34) eqn:E34.
  { left. exists 34. apply Z.eqb_eq in E34. subst c. split; [simpl; auto | reflexivity]. }
  destruct (c =? 92) eqn:E92.
  { left. exists 92. apply Z.eqb_eq in E92. subst c. split; [simpl; auto | reflexivity]. }
  destruct (c =? 8) eqn:E8.
  { left. exists 98. apply Z.eqb_eq in E8. subst c. split; [simpl; auto | reflexivity]. }
  destruct (c =? 12) eqn:E12.
  { left. exists 102. apply Z.eqb_eq in E12. subst c. split; [simpl; auto 6 | reflexivity]. }
  destruct (c =? 10) eqn:E10.
  { left. exists 110. apply Z.eqb_eq in E10. subst c. split; [simpl; auto 6 | reflexivity]. }
  destruct (c =? 13) eqn:E13.
  { left. exists 114. apply Z.eqb_eq in E13. subst c. split; [simpl; auto 7 | reflexivity]. }
  destruct (c =? 9) eqn:E9.
  { left. exists 116. apply Z.eqb_eq in E9. subst c. split; [simpl; auto 8 | reflexivity]. }
  destruct ((32 <=? c) && (c <=? 126)) eqn:Ep.
  { right. left. repeat split; try reflexivity. lia. }
  destruct (c <? 65536) eqn:Eb.
  { right. right. left. split; [lia | reflexivity]. }
  right. right. right.
  destruct (surrogates_of c ltac:(lia)) as (H1 & H2 & H3).
  eexists _, _. split; [exact H1|]. split; [exact H2|]. split; [exact H3|].
  split; [unfold is_surrogate; lia | reflexivity].
Qed.

Lemma escape_char_nonempty c :
  0 <= c <= 1114111 -> (0 < List.length (escape_char c))%nat.
Proof.
  intros Hc.
  destruct (escape_char_cases c Hc)
    as [(e & _ & ->) | [(_ & _ & _ & ->) | [(_ & ->) | (s1 & s2 & _ & _ & _ & _ & ->)]]];
    simpl; lia.
Qed.

Lemma read_string_u_single f c t acc :
  0 <= c < 65536 ->
  (is_high_surrogate c = true -> no_low_escape t) ->
  Reference.read_string (S f) (92 :: 117 :: fmt_0x 4 c ++ t) acc
  = Reference.read_string f t (c :: acc).
Proof.
  intros Hc Hno. rewrite read_string_u, (hex4_fmt c t Hc). cbv zeta.
  fold (is_high_surrogate c).
  destruct (is_high_surrogate c) eqn:Eh; [|reflexivity].
  specialize (Hno eq_refl).
  destruct t as [|a t]; [reflexivity|].
  destruct (Z.eq_dec a 92) as [->|Ha].
  2:{ destruct a as [|p|p]; try reflexivity.
      do 7 (try destruct p as [p|p|]; try reflexivity). congruence. }
  destruct t as [|b r3]; [reflexivity|].
  destruct (Z.eq_dec b 117) as [->|Hb].
  2:{ destruct b as [|p|p]; try reflexivity.
      do 7 (try destruct p as [p|p|]; try reflexivity). congruence. }
  destruct (Reference.hex4 r3) as [[v r4]|] eqn:E; [|reflexivity].
  fold (is_low_surrogate v). rewrite (Hno r3 v r4 eq_refl E). reflexivity.
Qed.

Lemma read_string_u_pair f s1 s2 t acc :
  55296 <= s1 <= 56319 -> 56320 <= s2 <= 57343 ->
  Reference.read_string (S f)
    (92 :: 117 :: fmt_0x 4 s1 ++ 92 :: 117 :: fmt_0x 4 s2 ++ t) acc
  = Reference.read_string f t (65536 + (s1 - 55296) * 1024 + (s2 - 56320) :: acc).
Proof.
  intros H1 H2. rewrite read_string_u, (hex4_fmt s1) by lia. cbv zeta.
  replace ((55296 <=? s1) && (s1 <=? 56319)) with true by lia.
  rewrite (hex4_fmt s2) by lia.
  replace ((56320 <=? s2) && (s2 <=? 57343)) with true by lia.
  reflexivity.
Qed.

Lemma no_low_escape_text s rest :
  Forall (fun c => is_code_point c = true) s ->
  match s with c :: _ => is_low_surrogate c = false | [] => True end ->
  no_low_escape (flat_map escape_char s ++ 34 :: rest).
Proof.
  intros Hs Hhead r3 v r4 Ht Hhex.
  destruct s as [|c s]; [discriminate|].
  apply Forall_cons in Hs as [Hc _]. unfold is_code_point in Hc.
  cbn [flat_map] in Ht. rewrite <- app_assoc in Ht.
  destruct (escape_char_cases c ltac:(lia))
    as [(e & He & Hesc) | [(_ & _ & E92 & Hesc) | [(Hr & Hesc)
       | (s1 & s2 & H1 & H2 & _ & _ & Hesc)]]];
    rewrite Hesc in Ht.
  - injection Ht as Ht _. subst e. exfalso.
    repeat (destruct He as [[=] | He]). destruct He.
  - injection Ht as Ht _. subst c. discriminate.
  - injection Ht as Ht. subst r3. rewrite (hex4_fmt c _ Hr) in Hhex.
    injection Hhex as <- _. exact Hhead.
  - injection Ht as Ht. subst r3. rewrite <- app_assoc in Hhex.
    rewrite (hex4_fmt s1) in Hhex by lia.
    injection Hhex as <- _. unfold is_low_surrogate. lia.
Qed.

(** What [json.dumps] writes of a string without a surrogate pair is read
    back as that string. *)
Lemma read_string_dumps s : forall acc fuel rest,
  Forall (fun c => is_code_point c = true) s ->
  has_surrogate_pair s = false ->
  (List.length (flat_map escape_char s) < fuel)%nat ->
  Reference.read_string fuel (flat_map escape_char s ++ 34 :: rest) acc
  = Some (rev acc ++ s, rest).
Proof.
  induction s as [|c s IH]; intros acc fuel rest Hs Hpair Hfuel.
  - destruct fuel as [|f]; [simpl in Hfuel; lia|].
    rewrite app_nil_r. apply read_string_quote.
  - pose proof Hs as Hs0.
    apply Forall_cons in Hs as [Hc Hs]. pose proof Hc as Hc0.
    unfold is_code_point in Hc.
    assert (Hpair' : has_surrogate_pair s = false
                     /\ (is_high_surrogate c = true ->
                         match s with c' :: _ => is_low_surrogate c' = false
                                 | [] => True end)).
    { cbn [has_surrogate_pair] in Hpair. destruct s as [|c' s']; [auto|].
      apply orb_false_iff in Hpair as [Hp Hrest]. split; [exact Hrest|].
      intros Hh. rewrite Hh in Hp. exact Hp. }
    destruct Hpair' as [Hpair' Hnext].
    cbn [flat_map] in *. rewrite length_app in Hfuel.
    pose proof (escape_char_nonempty c ltac:(lia)) as Hne.
    destruct fuel as [|f]; [lia|].
    assert (Hf : (List.length (flat_map escape_char s) < f)%nat) by lia.
    replace (rev acc ++ c :: s) with (rev (c :: acc) ++ s)
      by (simpl; rewrite <- app_assoc; reflexivity).
    rewrite <- app_assoc.
    destruct (escape_char_cases c ltac:(lia))
      as [(e & He & Hesc) | [(E34 & E32 & E92 & Hesc) | [(Hr & Hesc)
         | (s1 & s2 & H1 & H2 & Hj & _ & Hesc)]]];
      rewrite Hesc.
    + cbn [app]. rewrite (read_string_escape f e c _ acc He).
      apply IH; assumption.
    + cbn [app]. rewrite (read_string_plain f c _ acc E34 E32 E92).
      apply IH; assumption.
    + cbn [app]. rewrite read_string_u_single; [apply IH; assumption | exact Hr |].
      intros Hh. apply no_low_escape_text; [exact Hs | apply Hnext, Hh].
    + cbn [app]. rewrite <- app_assoc. cbn [app].
      rewrite read_string_u_pair by assumption. rewrite Hj.
      apply IH; assumption.
Qed.

Lemma read_dumps_str s fuel rest :
  pairless_str s = true ->
  (List.length (dumps_str s ++ rest) <= fuel)%nat ->
  Reference.read_string fuel (flat_map escape_char s ++ 34 :: rest) []
  = Some (s, rest).
Proof.
  intros Hs Hfuel. unfold pairless_str in Hs.
  apply andb_true_iff in Hs as [Hcp Hpair].
  apply negb_true_iff in Hpair.
  rewrite read_string_dumps; [reflexivity | | exact Hpair |].
  - apply Forall_forall. intros c Hc. rewrite forallb_forall in Hcp.
    apply Hcp, list_elem_of_In, Hc.
  - unfold dumps_str in Hfuel. rewrite !length_app in Hfuel. simpl in Hfuel. lia.
Qed.

(** ** Integers *)

Lemma read_digits_app p rest acc :
  Forall (fun c => is_digit c = true) p ->
  Reference.read_digits (p ++ rest) acc
  = Reference.read_digits rest (fold_left (fun a c => a * 10 + (c - 48)) p acc).
Proof.
  intros Hp. revert acc. induction Hp as [|c p Hc Hp IH]; intros acc; [reflexivity|].
  simpl. rewrite Hc. apply IH.
Qed.

Lemma read_digits_stop rest acc :
  delimited rest -> Reference.read_digits rest acc = (acc, rest).
Proof.
  destruct rest as [|d rest]; [reflexivity|]. simpl.
  intros [-> | [-> | ->]]; reflexivity.
Qed.

Lemma fixed_digits_value k : forall m acc,
  0 <= m < 10 ^ Z.of_nat k ->
  fold_left (fun a c => a * 10 + (c - 48)) (fixed_digits 10 k m) acc
  = acc * 10 ^ Z.of_nat k + m.
Proof.
  induction k as [|k IH]; intros m acc Hm.
  - simpl in *. lia.
  - rewrite Nat2Z.inj_succ, Z.pow_succ_r in * by lia.
    cbn [fixed_digits]. rewrite fold_left_app. cbn [fold_left].
    rewrite IH.
    + pose proof (Z.mod_pos_bound m 10 ltac:(lia)) as Hmod.
      pose proof (Z.div_mod m 10 ltac:(lia)) as Hdm.
      unfold digit_char. destruct (m mod 10 <? 10) eqn:E; lia.
    + split; [apply Z.div_pos; lia | apply Z.div_lt_upper_bound; lia].
Qed.

(** The decimal digits of a number: the first is not zero unless the
    number is. *)
Lemma digits_10_shape m :
  0 <= m ->
  exists k c r,
    digits 10 m = fixed_digits 10 k m /\ m < 10 ^ Z.of_nat k
    /\ digits 10 m = c :: r /\ is_digit c = true
    /\ (c = 48 -> m = 0 /\ r = []).
Proof.
  intros Hm.
  destruct (digits_fixed 10 m ltac:(lia) Hm) as (k & Hk & Hlt & Hmin & Hd).
  destruct k as [|k]; [lia|].
  pose proof (firstn_fixed_digits 10 1 k m ltac:(lia)) as Hfirst.
  change (1 + k)%nat with (S k) in Hfirst.
  set (q := m / 10 ^ Z.of_nat k) in *.
  change (fixed_digits 10 1 q) with [digit_char (q mod 10)] in Hfirst.
  assert (Hq : 0 <= q < 10).
  { unfold q. split; [apply Z.div_pos; lia|].
    apply Z.div_lt_upper_bound; [lia|].
    rewrite Nat2Z.inj_succ, Z.pow_succ_r in Hlt by lia. lia. }
  rewrite (Z.mod_small q 10) in Hfirst by lia.
  remember (fixed_digits 10 (S k) m) as l eqn:El.
  assert (Hlen : List.length l = S k) by (subst l; apply length_fixed_digits).
  destruct l as [|c r]; [discriminate|].
  simpl in Hfirst. injection Hfirst as Hc.
  exists (S k), c, r. rewrite Hd, <- El.
  split; [reflexivity|]. split; [exact Hlt|]. split; [reflexivity|].
  split; [subst c; apply digit_char_is_digit; lia|].
  intros H48. subst c. unfold digit_char in H48.
  assert (q = 0) by (destruct (q <? 10); lia).
  destruct k as [|k'].
  + unfold q in *. simpl in *. rewrite Z.div_1_r in *.
    split; [lia|]. destruct r; [reflexivity | discriminate].
  + exfalso. assert (m < 10 ^ Z.of_nat (S k')).
    { unfold q in *. apply Z.div_small_iff in H; lia. }
    specialize (Hmin (S k') ltac:(assumption) ltac:(lia)). lia.
Qed.

Lemma read_int_not_minus c r :
  c <> 45 ->
  Reference.read_int (c :: r) =
  if negb (is_digit c) then None
  else
    let '(n, rest) := if c =? 48 then (0, r) else Reference.read_digits (c :: r) 0 in
    match rest with
    | d :: _ => if (d =? 46) || (d =? 101) || (d =? 69) then None else Some (n, rest)
    | [] => Some (n, rest)
    end.
Proof.
  intros H45. destruct c as [|p|p]; try reflexivity.
  do 6 (try destruct p as [p|p|]; try reflexivity). congruence.
Qed.

Lemma read_int_unsigned c r :
  is_digit c = true ->
  Reference.read_int (c :: r) =
  let '(n, rest) := if c =? 48 then (0, r) else Reference.read_digits (c :: r) 0 in
  match rest with
  | d :: _ => if (d =? 46) || (d =? 101) || (d =? 69) then None else Some (n, rest)
  | [] => Some (n, rest)
  end.
Proof.
  intros Hc. rewrite read_int_not_minus by (unfold is_digit in Hc; lia).
  rewrite Hc. reflexivity.
Qed.

Lemma read_int_minus c r :
  is_digit c = true ->
  Reference.read_int (45 :: c :: r) =
  let '(n, rest) := if c =? 48 then (0, r) else Reference.read_digits (c :: r) 0 in
  match rest with
  | d :: _ => if (d =? 46) || (d =? 101) || (d =? 69) then None else Some (- n, rest)
  | [] => Some (- n, rest)
  end.
Proof. intros Hc. unfold Reference.read_int. rewrite Hc. reflexivity. Qed.

Lemma delimited_not_number rest (A B : option (Z * str)) :
  delimited rest ->
  match rest with
  | d :: _ => if (d =? 46) || (d =? 101) || (d =? 69) then A else B
  | [] => B
  end = B.
Proof.
  destruct rest as [|d rest]; [reflexivity|].
  intros [-> | [-> | ->]]; reflexivity.
Qed.

(** What [str] writes of an integer is read back as that integer. *)
Lemma read_int_str_of_int n rest :
  delimited rest ->
  Reference.read_int (str_of_int n ++ rest) = Some (n, rest).
Proof.
  intros Hrest. unfold str_of_int.
  destruct (n <? 0) eqn:En.
  - destruct (digits_10_shape (- n) ltac:(lia)) as (k & c & r & Hfix & Hlt & Hd & Hc & H0).
    assert (Hall : Forall (fun c => is_digit c = true) (c :: r)).
    { rewrite <- Hd. apply digits_all_digit. }
    rewrite Hd. cbn [app]. rewrite (read_int_minus c _ Hc).
    destruct (c =? 48) eqn:E48.
    + apply Z.eqb_eq in E48. destruct (H0 E48). lia.
    + change (c :: r ++ rest) with ((c :: r) ++ rest).
      rewrite (read_digits_app _ rest 0 Hall), read_digits_stop by exact Hrest.
      rewrite <- Hd, Hfix, fixed_digits_value by lia.
      rewrite delimited_not_number by exact Hrest.
      replace (- (0 * 10 ^ Z.of_nat k + - n)) with n by lia. reflexivity.
  - destruct (digits_10_shape n ltac:(lia)) as (k & c & r & Hfix & Hlt & Hd & Hc & H0).
    assert (Hall : Forall (fun c => is_digit c = true) (c :: r)).
    { rewrite <- Hd. apply digits_all_digit. }
    rewrite Hd. cbn [app]. rewrite (read_int_unsigned c _ Hc).
    destruct (c =? 48) eqn:E48.
    + apply Z.eqb_eq in E48. destruct (H0 E48) as [-> ->]. cbn [app].
      rewrite delimited_not_number by exact Hrest. reflexivity.
    + change (c :: r ++ rest) with ((c :: r) ++ rest).
      rewrite (read_digits_app _ rest 0 Hall), read_digits_stop by exact Hrest.
      rewrite <- Hd, Hfix, fixed_digits_value by lia.
      rewrite delimited_not_number by exact Hrest.
      replace (0 * 10 ^ Z.of_nat k + n) with n by lia. reflexivity.
Qed.

(** ** Values *)

Lemma read_value_skip f s :
  Reference.read_value f (32 :: s) = Reference.read_value f s.
Proof. destruct f; reflexivity. Qed.

Lemma str_of_int_head n :
  exists c r, str_of_int n = c :: r /\ (is_digit c = true \/ c = 45).
Proof.
  unfold str_of_int. destruct (n <? 0) eqn:E.
  - eexists _, _. split; [reflexivity | right; reflexivity].
  - destruct (digits_10_shape n ltac:(lia)) as (k & c & r & _ & _ & Hd & Hc & _).
    exists c, r. auto.
Qed.

(** The first character of what [json.dumps] writes. *)
Lemma dumps_head v :
  exists c r, dumps v = c :: r
              /\ (c =? 32) || (c =? 9) || (c =? 10) || (c =? 13) = false
              /\ c <> 93 /\ c <> 125.
Proof.
  destruct v as [|[|]|n|s|l|l];
    try (eexists _, _; split; [reflexivity|]; split; [reflexivity|]; split; discriminate).
  destruct (str_of_int_head n) as (c & r & Hd & Hc).
  exists c, r. split; [exact Hd|]. unfold is_digit in Hc. lia.
Qed.

Lemma skip_ws_head c r :
  (c =? 32) || (c =? 9) || (c =? 10) || (c =? 13) = false ->
  Reference.skip_ws (c :: r) = c :: r.
Proof. intros H. simpl. rewrite H. reflexivity. Qed.

Lemma not_closing_bracket {X} c (A B : X) :
  c <> 93 -> match c with 93 => A | _ => B end = B.
Proof.
  intros H. destruct c as [|p|p]; try reflexivity.
  do 7 (try destruct p as [p|p|]; try reflexivity). congruence.
Qed.

Lemma length_dumps_pos v : (0 < List.length (dumps v))%nat.
Proof. destruct (dumps_head v) as (c & r & -> & _). simpl. lia. Qed.

Lemma dumps_items_cons x l :
  dumps_items (x :: l)
  = dumps x ++ match l with [] => [] | _ :: _ => lit ", " ++ dumps_items l end.
Proof. reflexivity. Qed.

Lemma dumps_entries_cons k x l :
  dumps_entries ((k, x) :: l)
  = dumps_str k ++ lit ": " ++ dumps x
    ++ match l with [] => [] | _ :: _ => lit ", " ++ dumps_entries l end.
Proof. reflexivity. Qed.

Lemma length_dumps_items l :
  (List.length l <= List.length (dumps_items l))%nat
  /\ forall x, In x l -> (List.length (dumps x) <= List.length (dumps_items l))%nat.
Proof.
  induction l as [|y l [IH1 IH2]]; [split; [reflexivity | intros x []]|].
  rewrite dumps_items_cons. pose proof (length_dumps_pos y) as Hy.
  split.
  - rewrite length_app. destruct l; simpl in *; [lia|]. rewrite length_app in *.
    simpl in *. lia.
  - intros x [<- | Hx]; rewrite length_app; [lia|].
    specialize (IH2 x Hx). destruct l; [destruct Hx|].
    rewrite length_app. simpl in *. lia.
Qed.

Lemma length_dumps_entries l :
  (List.length l <= List.length (dumps_entries l))%nat
  /\ forall kx, In kx l ->
       (List.length (dumps (snd kx)) <= List.length (dumps_entries l))%nat.
Proof.
  induction l as [|[k y] l [IH1 IH2]]; [split; [reflexivity | intros x []]|].
  rewrite dumps_entries_cons. pose proof (length_dumps_pos y) as Hy.
  split.
  - rewrite !length_app. destruct l; simpl in *; [lia|]. rewrite !length_app in *.
    simpl in *. lia.
  - intros kx [<- | Hx]; rewrite !length_app; [simpl; lia|].
    specialize (IH2 kx Hx). destruct l; [destruct Hx|].
    rewrite !length_app. simpl in *. lia.
Qed.

(** The loop over the elements of a list. *)
Lemma read_elements_dumps rv rest l : forall k pre acc,
  l <> [] -> (List.length l <= k)%nat ->
  pre = [] \/ pre = [32] ->
  (forall s, rv (32 :: s) = rv s) ->
  (forall x, In x l -> forall rest', delimited rest' -> rv (dumps x ++ rest') = Some (x, rest')) ->
  read_elements rv k (pre ++ dumps_items l ++ 93 :: rest) acc
  = Some (JList (rev acc ++ l), rest).
Proof.
  induction l as [|x l IH]; intros k pre acc Hne Hk Hpre Hskip Hrv; [congruence|].
  destruct k as [|k]; [simpl in Hk; lia|].
  assert (Hx : forall rest', delimited rest' ->
                 rv (pre ++ dumps x ++ rest') = Some (x, rest')).
  { intros rest' Hd. destruct Hpre as [-> | ->]; cbn [app]; rewrite ?Hskip;
      apply Hrv; [left; reflexivity | exact Hd | left; reflexivity | exact Hd]. }
  rewrite dumps_items_cons, <- !app_assoc.
  cbn [read_elements]. rewrite Hx.
  - destruct l as [|y l].
    + cbn [app Reference.skip_ws]. simpl. reflexivity.
    + change (lit ", ") with [44; 32]. cbn [app Reference.skip_ws].
      change (read_elements rv k ([32] ++ dumps_items (y :: l) ++ 93 :: rest) (x :: acc)
              = Some (JList (rev acc ++ x :: y :: l), rest)).
      rewrite (IH k [32] (x :: acc)).
      * simpl. rewrite <- app_assoc. reflexivity.
      * discriminate.
      * simpl in *. lia.
      * right. reflexivity.
      * exact Hskip.
      * intros z Hz. apply Hrv. right. exact Hz.
  - destruct l; simpl; auto.
Qed.

Lemma dict_set_new k v acc :
  ~ In k (List.map fst acc) -> Reference.dict_set k v acc = acc ++ [(k, v)].
Proof.
  induction acc as [|[k' v'] acc IH]; intros Hk; [reflexivity|].
  simpl in *. destruct (str_eqb k' k) eqn:E.
  - apply str_eqb_eq in E. exfalso. auto.
  - rewrite IH by auto. reflexivity.
Qed.

Lemma distinct_keys_NoDup l :
  distinct_keys l = true -> List.NoDup (List.map fst l).
Proof.
  induction l as [|[k v] l IH]; intros H; [constructor|].
  cbn [distinct_keys] in H. apply andb_true_iff in H as [Hk Hl].
  simpl. constructor; [|apply IH, Hl].
  intros Hin. apply in_map_iff in Hin as (kv & Hkv & Hin).
  apply negb_true_iff in Hk.
  assert (existsb (fun kv => str_eqb (fst kv) k) l = true); [|congruence].
  apply existsb_exists. exists kv. split; [exact Hin | apply str_eqb_eq, Hkv].
Qed.

(** The loop over the entries of a dictionary. *)
Lemma read_entries_dumps rv rest l : forall n pre acc,
  l <> [] -> (List.length l <= n)%nat ->
  pre = [] \/ pre = [32] ->
  (forall s, rv (32 :: s) = rv s) ->
  (forall kx, In kx l -> pairless_str (fst kx) = true) ->
  List.NoDup (List.map fst (acc ++ l)) ->
  (forall kx, In kx l -> forall rest', delimited rest' ->
     rv (dumps (snd kx) ++ rest') = Some (snd kx, rest')) ->
  read_entries rv n (pre ++ dumps_entries l ++ 125 :: rest) acc
  = Some (JObj (acc ++ l), rest).
Proof.
  induction l as [|[k x] l IH]; intros n pre acc Hne Hn Hpre Hskip Hkeys Hdup Hrv;
    [congruence|].
  destruct n as [|n]; [simpl in Hn; lia|].
  rewrite dumps_entries_cons, <- !app_assoc. unfold dumps_str.
  change (lit ": ") with [58; 32]. rewrite <- !app_assoc.
  assert (Hws : Reference.skip_ws
                  (pre ++ [34] ++ flat_map escape_char k ++ [34] ++ [58; 32] ++ dumps x
                   ++ match l with [] => [] | _ :: _ => lit ", " ++ dumps_entries l end
                   ++ 125 :: rest)
                = 34 :: flat_map escape_char k ++ 34 :: 58 :: 32 :: dumps x
                   ++ match l with [] => [] | _ :: _ => lit ", " ++ dumps_entries l end
                   ++ 125 :: rest).
  { destruct Hpre as [-> | ->]; reflexivity. }
  cbn [read_entries]. rewrite Hws.
  rewrite read_string_dumps.
  2:{ specialize (Hkeys (k, x) (or_introl eq_refl)). unfold pairless_str in Hkeys.
      apply andb_true_iff in Hkeys as [Hcp _]. apply Forall_forall. intros c Hc.
      rewrite forallb_forall in Hcp. apply Hcp, list_elem_of_In, Hc. }
  2:{ specialize (Hkeys (k, x) (or_introl eq_refl)). unfold pairless_str in Hkeys.
      apply andb_true_iff in Hkeys as [_ Hp]. apply negb_true_iff, Hp. }
  2:{ rewrite length_app. simpl. lia. }
  cbn [rev app]. rewrite (skip_ws_head 58) by reflexivity.
  cbv beta iota. rewrite Hskip.
  rewrite (Hrv (k, x) (or_introl eq_refl)).
  2:{ destruct l; simpl; auto. }
  cbv zeta. rewrite dict_set_new.
  2:{ rewrite map_app in Hdup. simpl in Hdup.
      apply List.NoDup_remove_2 in Hdup. intros Hin. apply Hdup, in_or_app. left. exact Hin. }
  destruct l as [|[k' y] l].
  - cbn [app Reference.skip_ws]. simpl. reflexivity.
  - change (lit ", ") with [44; 32]. cbn [app Reference.skip_ws].
    change (read_entries rv n ([32] ++ dumps_entries ((k', y) :: l) ++ 125 :: rest)
              (acc ++ [(k, x)])
            = Some (JObj (acc ++ (k, x) :: (k', y) :: l), rest)).
    rewrite (IH n [32] (acc ++ [(k, x)])).
    + rewrite <- app_assoc. reflexivity.
    + discriminate.
    + simpl in *. lia.
    + right. reflexivity.
    + exact Hskip.
    + intros kx Hkx. apply Hkeys. right. exact Hkx.
    + rewrite <- app_assoc. exact Hdup.
    + intros kx Hkx. apply Hrv. right. exact Hkx.
Qed.

(** What [json.dumps] writes of a value whose strings have no surrogate
    pair and whose dictionaries have no key twice is read back as that
    value. *)
Lemma read_value_dumps v :
  pairless_json v = true ->
  forall fuel rest,
    delimited rest -> (List.length (dumps v) <= fuel)%nat ->
    Reference.read_value fuel (dumps v ++ rest) = Some (v, rest).
Proof.
  induction v as [| b | n | s | l IH | l IH] using json_nested_ind;
    intros Hv fuel rest Hrest Hfuel;
    (destruct fuel as [|f];
     [match type of Hfuel with
      | (List.length (dumps ?v) <= _)%nat => pose proof (length_dumps_pos v)
      end; lia|]).
  - reflexivity.
  - destruct b; reflexivity.
  - rewrite read_value_S. cbv zeta.
    destruct (str_of_int_head n) as (c & r & Hd & Hc).
    pose proof (read_int_str_of_int n rest Hrest) as Hint.
    cbn [dumps] in *. rewrite Hd in *. cbn [app] in *.
    assert (Hws : (c =? 32) || (c =? 9) || (c =? 10) || (c =? 13) = false)
      by (unfold is_digit in Hc; lia).
    rewrite (skip_ws_head c _ Hws).
    change (lit "null") with [110; 117; 108; 108].
    change (lit "true") with [116; 114; 117; 101].
    change (lit "false") with [102; 97; 108; 115; 101].
    cbn [startswith].
    replace (110 =? c) with false by (unfold is_digit in Hc; lia).
    replace (116 =? c) with false by (unfold is_digit in Hc; lia).
    replace (102 =? c) with false by (unfold is_digit in Hc; lia).
    cbn [andb].
    replace (c =? 34) with false by (unfold is_digit in Hc; lia).
    replace (c =? 91) with false by (unfold is_digit in Hc; lia).
    replace (c =? 123) with false by (unfold is_digit in Hc; lia).
    rewrite Hint. reflexivity.
  - rewrite read_value_S. cbv zeta. cbn [dumps]. unfold dumps_str.
    rewrite <- !app_assoc. cbn [app]. rewrite (skip_ws_head 34) by reflexivity.
    change (lit "null") with [110; 117; 108; 108].
    change (lit "true") with [116; 114; 117; 101].
    change (lit "false") with [102; 97; 108; 115; 101].
    cbn [startswith]. simpl (110 =? 34). simpl (116 =? 34). simpl (102 =? 34).
    cbn [andb]. simpl (34 =? 34). cbv iota.
    rewrite read_string_dumps; [reflexivity | | |].
    + cbn [pairless_json] in Hv. unfold pairless_str in Hv.
      apply andb_true_iff in Hv as [Hcp _]. apply Forall_forall. intros c Hc.
      rewrite forallb_forall in Hcp. apply Hcp, list_elem_of_In, Hc.
    + cbn [pairless_json] in Hv. unfold pairless_str in Hv.
      apply andb_true_iff in Hv as [_ Hp]. apply negb_true_iff, Hp.
    + rewrite length_app. simpl. lia.
  - rewrite read_value_S, dumps_list in *. cbv zeta.
    change (lit "[") with [91]. change (lit "]") with [93].
    rewrite <- !app_assoc. cbn [app]. rewrite (skip_ws_head 91) by reflexivity.
    change (lit "null") with [110; 117; 108; 108].
    change (lit "true") with [116; 114; 117; 101].
    change (lit "false") with [102; 97; 108; 115; 101].
    cbn [startswith]. simpl (110 =? 91). simpl (116 =? 91). simpl (102 =? 91).
    cbn [andb]. simpl (91 =? 34). simpl (91 =? 91). cbv iota.
    destruct l as [|x l]; [reflexivity|].
    destruct (dumps_head x) as (c & r & Hd & Hws & H93 & _).
    assert (Hskip : Reference.skip_ws (dumps_items (x :: l) ++ 93 :: rest)
                    = dumps_items (x :: l) ++ 93 :: rest).
    { rewrite dumps_items_cons, Hd. cbn [app]. apply skip_ws_head, Hws. }
    rewrite Hskip.
    assert (Hnb : exists c' r', dumps_items (x :: l) ++ 93 :: rest = c' :: r' /\ c' <> 93).
    { rewrite dumps_items_cons, Hd. cbn [app]. eauto. }
    destruct Hnb as (c' & r' & Hcr & Hc').
    rewrite Hcr at 1. cbv beta iota. rewrite not_closing_bracket by exact Hc'.
    cbn [pairless_json] in Hv. rewrite forallb_forall in Hv.
    destruct (length_dumps_items (x :: l)) as [Hl1 Hl2].
    rewrite !length_app in Hfuel.
    change (List.length (lit "[")) with 1%nat in Hfuel.
    change (List.length (lit "]")) with 1%nat in Hfuel.
    change (dumps_items (x :: l) ++ 93 :: rest)
      with ([] ++ dumps_items (x :: l) ++ 93 :: rest) at 2.
    apply read_elements_dumps.
    + discriminate.
    + rewrite !length_app. simpl in *. lia.
    + left. reflexivity.
    + intros s. apply read_value_skip.
    + intros y Hy rest' Hrest'. rewrite Forall_forall in IH.
      apply IH; [apply list_elem_of_In, Hy | apply Hv, Hy | exact Hrest' |].
      specialize (Hl2 y Hy). lia.
  - rewrite read_value_S, dumps_obj in *. cbv zeta.
    change (lit "{") with [123]. change (lit "}") with [125].
    rewrite <- !app_assoc. cbn [app]. rewrite (skip_ws_head 123) by reflexivity.
    change (lit "null") with [110; 117; 108; 108].
    change (lit "true") with [116; 114; 117; 101].
    change (lit "false") with [102; 97; 108; 115; 101].
    cbn [startswith]. simpl (110 =? 123). simpl (116 =? 123). simpl (102 =? 123).
    cbn [andb]. simpl (123 =? 34). simpl (123 =? 91). simpl (123 =? 123). cbv iota.
    destruct l as [|[k x] l]; [reflexivity|].
    assert (Hskip : Reference.skip_ws (dumps_entries ((k, x) :: l) ++ 125 :: rest)
                    = 34 :: (flat_map escape_char k ++ [34] ++ lit ": " ++ dumps x
                       ++ match l with [] => [] | _ :: _ => lit ", " ++ dumps_entries l end)
                      ++ 125 :: rest).
    { rewrite dumps_entries_cons. unfold dumps_str. rewrite <- !app_assoc. reflexivity. }
    rewrite Hskip. cbv iota.
    cbn [pairless_json] in Hv. apply andb_true_iff in Hv as [Hv Hdist].
    rewrite forallb_forall in Hv.
    destruct (length_dumps_entries ((k, x) :: l)) as [Hl1 Hl2].
    rewrite !length_app in Hfuel.
    change (List.length (lit "{")) with 1%nat in Hfuel.
    change (List.length (lit "}")) with 1%nat in Hfuel.
    change (dumps_entries ((k, x) :: l) ++ 125 :: rest)
      with ([] ++ dumps_entries ((k, x) :: l) ++ 125 :: rest).
    change (JObj ((k, x) :: l)) with (JObj ([] ++ (k, x) :: l)).
    apply read_entries_dumps.
    + discriminate.
    + rewrite !length_app. simpl in *. lia.
    + left. reflexivity.
    + intros s. apply read_value_skip.
    + intros kx Hkx. specialize (Hv kx Hkx). apply andb_true_iff in Hv as [Hk _].
      exact Hk.
    + apply distinct_keys_NoDup, Hdist.
    + intros kx Hkx rest' Hrest'. rewrite Forall_forall in IH.
      apply IH; [apply list_elem_of_In, Hkx | | exact Hrest' |].
      * specialize (Hv kx Hkx). apply andb_true_iff in Hv as [_ Hx]. exact Hx.
      * specialize (Hl2 kx Hkx). lia.
Qed.

(** ** [json.loads] on what [json.dumps] wrote *)

Lemma decode_utf8_ascii s : forall fuel,
  all_ascii s -> (List.length s <= fuel)%nat ->
  Reference.decode_utf8 fuel s = Some s.
Proof.
  induction s as [|c s IH]; intros fuel Hs Hfuel.
  - destruct fuel; reflexivity.
  - destruct fuel as [|f]; [simpl in Hfuel; lia|].
    apply Forall_cons in Hs as [Hc Hs]. unfold is_ascii in Hc.
    cbn [Reference.decode_utf8].
    replace ((0 <=? c) && (c <? 128)) with true by lia.
    rewrite IH by (simpl in Hfuel; auto; lia). reflexivity.
Qed.

Lemma json_loads_dumps v :
  pairless_json v = true -> Reference.json_loads (dumps v) = Some v.
Proof.
  intros Hv. unfold Reference.json_loads.
  rewrite decode_utf8_ascii by (try apply all_ascii_dumps; lia).
  pose proof (read_value_dumps v Hv (S (List.length (dumps v))) [] I) as H.
  rewrite app_nil_r in H. rewrite H by lia. reflexivity.
Qed.

Lemma no_high_no_pair s :
  Forall (fun c => is_high_surrogate c = false) s -> has_surrogate_pair s = false.
Proof.
  induction 1 as [|c s Hc Hs IH]; [reflexivity|].
  cbn [has_surrogate_pair]. destruct s; [reflexivity|]. rewrite Hc, IH. reflexivity.
Qed.

Lemma pairless_lower_hex s :
  Forall (fun c => is_lower_hex c = true) s -> pairless_str s = true.
Proof.
  intros Hs. unfold pairless_str. apply andb_true_iff. split.
  - apply forallb_forall. intros c Hc. rewrite Forall_forall in Hs.
    specialize (Hs c (proj2 (list_elem_of_In _ _) Hc)).
    unfold is_lower_hex, is_digit in Hs. unfold is_code_point. lia.
  - apply negb_true_iff, no_high_no_pair.
    eapply Forall_impl; [exact Hs|]. intros c Hc.
    unfold is_lower_hex, is_digit in Hc. unfold is_high_surrogate. lia.
Qed.

Lemma pairless_Item_dict i :
  pairless_item i = true -> pairless_json (Item_dict i) = true.
Proof.
  unfold pairless_item. rewrite !andb_true_iff.
  intros [[[[Hs Hu] Ht] He] Hl].
  unfold Item_dict. cbn [pairless_json forallb fst snd].
  rewrite Hs, Hu, Ht, He.
  assert (Hlinks : forallb pairless_json (List.map JStr (links i)) = true).
  { rewrite forallb_forall in *. intros v Hv.
    apply in_map_iff in Hv as (s & <- & Hin). apply Hl, Hin. }
  rewrite Hlinks. reflexivity.
Qed.

Lemma pairless_HashedBatch_dict b :
  pairless_str (user_id_hash b) = true ->
  forallb pairless_item (hb_items b) = true ->
  pairless_json (HashedBatch_dict b) = true.
Proof.
  intros Hh Hitems. unfold HashedBatch_dict. cbn [pairless_json forallb fst snd].
  rewrite Hh.
  assert (Hl : forallb pairless_json (List.map Item_dict (hb_items b)) = true).
  { rewrite forallb_forall in *. intros v Hv.
    apply in_map_iff in Hv as (i & <- & Hin). apply pairless_Item_dict, Hitems, Hin. }
  rewrite Hl. reflexivity.
Qed.

(** The reference reader reads the stored text of a batch whose item
    strings have no surrogate pair back as the dictionary it was written
    from. *)
Lemma json_loads_stored_text e id_bytes batch :
  forallb pairless_item (items batch) = true ->
  Reference.json_loads (stored_text e (Sha3.hexdigest id_bytes) batch)
  = Some (HashedBatch_dict (batch_hashed e (Sha3.hexdigest id_bytes) batch)).
Proof.
  intros Hitems. unfold stored_text, HashedBatch_json.
  apply json_loads_dumps, pairless_HashedBatch_dict.
  - apply pairless_lower_hex, hexdigest_shape.
  - exact Hitems.
Qed.

(** * The reference gzip reader on what the reference writer writes *)

Lemma lxor_bound a b n :
  0 <= n -> 0 <= a < 2 ^ n -> 0 <= b < 2 ^ n -> 0 <= Z.lxor a b < 2 ^ n.
Proof.
  intros Hn Ha Hb.
  assert (H0 : 0 <= Z.lxor a b) by (apply Z.lxor_nonneg; lia).
  split; [exact H0|].
  destruct (Z.eq_dec (Z.lxor a b) 0) as [->|Hne]; [lia|].
  assert (0 < n).
  { destruct (Z.eq_dec n 0) as [->|]; [|lia].
    assert (a = 0) by (simpl in Ha; lia). assert (b = 0) by (simpl in Hb; lia).
    subst. exfalso. exact (Hne eq_refl). }
  apply Z.log2_lt_pow2; [lia|].
  eapply Z.le_lt_trans; [apply Z.log2_lxor; lia|].
  apply Z.max_lub_lt.
  - destruct (Z.eq_dec a 0) as [->|]; [simpl; lia|]. apply Z.log2_lt_pow2; lia.
  - destruct (Z.eq_dec b 0) as [->|]; [simpl; lia|]. apply Z.log2_lt_pow2; lia.
Qed.

Lemma le_value_le_bytes n v :
  Reference.le_value (Reference.le_bytes n v) = v mod 256 ^ Z.of_nat n.
Proof.
  revert v. induction n as [|n IH]; intros v.
  - simpl. rewrite Z.mod_1_r. reflexivity.
  - cbn [Reference.le_bytes Reference.le_value]. rewrite IH.
    rewrite Nat2Z.inj_succ, Z.pow_succ_r by lia.
    change 255 with (Z.ones 8). rewrite Z.land_ones, Z.shiftr_div_pow2 by lia.
    change (2 ^ 8) with 256.
    rewrite (Z.rem_mul_r v 256 (256 ^ Z.of_nat n)) by lia. reflexivity.
Qed.

Lemma length_le_bytes n v : List.length (Reference.le_bytes n v) = n.
Proof. revert v. induction n; intros v; simpl; auto. Qed.

Lemma crc_bits_bound n crc :
  0 <= crc < 2 ^ 32 -> 0 <= Reference.crc_bits n crc < 2 ^ 32.
Proof.
  revert crc. induction n as [|n IH]; intros crc H; [exact H|].
  cbn [Reference.crc_bits]. apply IH.
  assert (Hs : 0 <= Z.shiftr crc 1 < 2 ^ 32).
  { rewrite Z.shiftr_div_pow2 by lia. change (2 ^ 1) with 2.
    split; [apply Z.div_pos; lia | apply Z.div_lt_upper_bound; lia]. }
  destruct (Z.odd crc); [|exact Hs].
  apply lxor_bound; [lia | exact Hs | ]. change (2 ^ 32) with 4294967296. lia.
Qed.

Lemma crc32_bound data :
  Forall (fun b => is_byte b = true) data -> 0 <= Reference.crc32 data < 2 ^ 32.
Proof.
  intros Hd. unfold Reference.crc32.
  apply lxor_bound; [lia | | change (2 ^ 32) with 4294967296; lia].
  assert (H0 : 0 <= 4294967295 < 2 ^ 32) by (change (2 ^ 32) with 4294967296; lia).
  revert H0. generalize 4294967295 as crc.
  induction Hd as [|b data Hb Hd IH]; intros crc Hcrc; [exact Hcrc|].
  cbn [fold_left]. apply IH. apply crc_bits_bound, lxor_bound; [lia | exact Hcrc |].
  unfold is_byte in Hb. change (2 ^ 32) with 4294967296. lia.
Qed.

Lemma stored_blocks_S n data :
  Reference.stored_blocks (S n) data =
  let chunk := firstn (Z.to_nat 65535) data in
  let rest := skipn (Z.to_nat 65535) data in
  let len := Z.of_nat (List.length chunk) in
  let final := match rest with [] => 1 | _ :: _ => 0 end in
  [final] ++ Reference.le_bytes 2 len ++ Reference.le_bytes 2 (Z.lxor len 65535) ++ chunk
  ++ match rest with [] => [] | _ :: _ => Reference.stored_blocks n rest end.
Proof. reflexivity. Qed.

Lemma read_stored_S f hd l0 l1 n0 n1 s acc :
  Reference.read_stored (S f) (hd :: l0 :: l1 :: n0 :: n1 :: s) acc =
  let n := Reference.le_value [l0; l1] in
  if negb (Z.land hd 6 =? 0) then None
  else if negb (Z.lxor n 65535 =? Reference.le_value [n0; n1]) then None
  else if (List.length s <? Z.to_nat n)%nat then None
  else
    let acc' := acc ++ firstn (Z.to_nat n) s in
    let rest := skipn (Z.to_nat n) s in
    if Z.odd hd then Some (acc', rest) else Reference.read_stored f rest acc'.
Proof. reflexivity. Qed.

(** The stored blocks of [data] are read back as [data]. *)
Lemma read_stored_blocks n : forall data f acc trailer,
  (List.length data < n)%nat ->
  (List.length (Reference.stored_blocks n data) <= f)%nat ->
  Reference.read_stored f (Reference.stored_blocks n data ++ trailer) acc
  = Some (acc ++ data, trailer).
Proof.
  induction n as [|n IH]; intros data f acc trailer Hn Hf; [lia|].
  rewrite stored_blocks_S in *. cbv zeta in *.
  set (chunk := firstn (Z.to_nat 65535) data) in *.
  set (rest := skipn (Z.to_nat 65535) data) in *.
  set (len := Z.of_nat (List.length chunk)) in *.
  assert (Hdata : data = chunk ++ rest) by (symmetry; apply firstn_skipn).
  assert (Hlen : 0 <= len <= 65535).
  { unfold len, chunk. rewrite length_firstn. lia. }
  assert (Hl2 : forall v, exists a b, Reference.le_bytes 2 v = [a; b]).
  { intros v. eexists _, _. reflexivity. }
  destruct (Hl2 len) as (l0 & l1 & El). destruct (Hl2 (Z.lxor len 65535)) as (n0 & n1 & En).
  assert (Hv1 : Reference.le_value [l0; l1] = len).
  { rewrite <- El, le_value_le_bytes. apply Z.mod_small.
    change (256 ^ Z.of_nat 2) with 65536. lia. }
  assert (Hv2 : Reference.le_value [n0; n1] = Z.lxor len 65535).
  { rewrite <- En, le_value_le_bytes. apply Z.mod_small.
    change (256 ^ Z.of_nat 2) with (2 ^ 16).
    apply lxor_bound; change (2 ^ 16) with 65536; lia. }
  rewrite El, En in *. cbn [app] in *.
  destruct f as [|f]; [simpl in Hf; lia|].
  rewrite read_stored_S. cbv zeta. rewrite Hv1, Hv2, Z.eqb_refl. cbn [negb].
  replace (Z.to_nat len) with (List.length chunk) by (unfold len; lia).
  rewrite <- app_assoc, firstn_length_app, skipn_length_app.
  assert (Hfit : (List.length (chunk ++ (match rest with [] => [] | _ :: _ =>
                    Reference.stored_blocks n rest end) ++ trailer)
                  <? List.length chunk)%nat = false).
  { apply Nat.ltb_ge. rewrite length_app. lia. }
  rewrite Hfit.
  destruct rest as [|b rest'] eqn:Erest.
  - cbn [app]. simpl (Z.land 1 6 =? 0). cbn [negb]. simpl (Z.odd 1). cbv iota.
    rewrite Hdata, app_nil_r. reflexivity.
  - simpl (Z.land 0 6 =? 0). cbn [negb]. simpl (Z.odd 0). cbv iota.
    rewrite IH.
    + rewrite <- app_assoc, Hdata. reflexivity.
    + assert (Hc : List.length chunk = Z.to_nat 65535).
      { unfold chunk. rewrite length_firstn.
        assert (List.length rest = List.length data - Z.to_nat 65535)%nat
          by (unfold rest; apply length_skipn).
        rewrite Erest in H. simpl in H. lia. }
      rewrite Hdata, length_app in Hn. simpl in Hn. simpl. lia.
    + simpl in Hf. rewrite !length_app in Hf. simpl in Hf. lia.
Qed.

Lemma firstn_app_exact {A} n (p r : list A) :
  List.length p = n -> firstn n (p ++ r) = p.
Proof. intros <-. apply firstn_length_app. Qed.

Lemma skipn_app_exact {A} n (p r : list A) :
  List.length p = n -> skipn n (p ++ r) = r.
Proof. intros <-. apply skipn_length_app. Qed.

(** [Reference.gzip_decompress] undoes [Reference.gzip_compress] on
    bytes. *)
Lemma reference_gzip_round_trip mtime data :
  Forall (fun b => is_byte b = true) data ->
  Reference.gzip_decompress (Reference.gzip_compress mtime data) = Some data.
Proof.
  intros Hd. unfold Reference.gzip_compress.
  assert (Hm : exists a b c d, Reference.le_bytes 4 mtime = [a; b; c; d])
    by (eexists _, _, _, _; reflexivity).
  destruct Hm as (a & b & c & d & ->).
  cbn [app]. unfold Reference.gzip_decompress.
  rewrite read_stored_blocks; [|lia | rewrite length_app; lia].
  rewrite !length_app, !length_le_bytes. cbn [Nat.eqb Nat.add andb].
  rewrite firstn_app_exact by apply length_le_bytes.
  rewrite le_value_le_bytes.
  change (256 ^ Z.of_nat 4) with (2 ^ 32).
  rewrite (Z.mod_small (Reference.crc32 data)) by (apply crc32_bound, Hd).
  rewrite Z.eqb_refl. cbn [andb].
  rewrite skipn_app_exact by apply length_le_bytes.
  rewrite le_value_le_bytes. change (256 ^ Z.of_nat 4) with (2 ^ 32).
  rewrite Z.eqb_refl. reflexivity.
Qed.

Lemma stored_text_bytes e h batch :
  Forall (fun b => is_byte b = true) (stored_text e h batch).
Proof.
  unfold stored_text, HashedBatch_json.
  eapply Forall_impl; [apply all_ascii_dumps|].
  intros c Hc. unfold is_ascii in Hc. unfold is_byte. lia.
Qed.

(** C9, as amended. After a submission that returned of a batch in which
    no string of an item holds a high surrogate immediately followed by a
    low surrogate, take the date of [now], the public identifier that was
    returned and the batch identifier that the listing derives from the key
    of the batch. If [gzip.decompress] undoes [gzip.compress] on the text
    that was stored, then [get_batch_from_id], reading that text with
    [json.loads], returns the dictionary the text was written from, and its
    [items] are the items submitted. The batch identifier is among those
    the listing returns for that date and public identifier. *)
Theorem submit_then_fetch BUCKET_NAME gzip_compress gzip_decompress server_reply
    e batch st r st' :
  valid_env e = true ->
  forallb pairless_item (items batch) = true ->
  create_batch gzip_compress e batch st = (Returns r, st') ->
  (forall h, r = ok_response h ->
     gzip_decompress (gzip_compress (gzip_mtime e) (stored_text e h batch))
     = Some (stored_text e h batch)) ->
  exists h name batch_id data,
    r = ok_response h
    /\ key_file_name (batch_filename e h) = Returns name
    /\ get_batch_id_from_file_name name = Returns batch_id
    /\ get_batch_from_id BUCKET_NAME gzip_decompress Reference.json_loads server_reply
         (date_str (now e)) h batch_id st'
       = (Returns data, st')
    /\ data = HashedBatch_dict (batch_hashed e h batch)
    /\ Json.get (lit "items") data = Some (JList (List.map Item_dict (items batch)))
    /\ forall ids,
         get_batches_for_date_and_user (date_str (now e)) h st'
         = (Returns (batch_ids_response ids), st') ->
         In batch_id ids.
Proof.
  intros Hv Hitems Hrun Hgz.
  apply (submit_then_fetch_given_reader BUCKET_NAME gzip_compress gzip_decompress
           Reference.json_loads server_reply e batch st r st' Hv Hrun Hgz).
  intros h Hh.
  rewrite create_batch_cases in Hrun.
  destruct (MAX_BATCH_SIZE <? len (items batch)); [discriminate|].
  destruct (negb (len (user_id batch) =? USER_ID_LENGTH)); [discriminate|].
  destruct (encode_utf8 (user_id batch)) as [id_bytes|]; [|discriminate].
  cbn zeta in Hrun. destruct (put_accepted e); [|discriminate].
  injection Hrun as <- _. injection Hh as <-.
  apply json_loads_stored_text, Hitems.
Qed.

(** * The statements at the sample inputs

    The library functions are instantiated by those of [Reference], the
    bucket is named [crawl], and the file server answers an unknown URL
    with an empty body. *)

Lemma pair_with_snd {A B} (p : A * B) (a : A) : fst p = a -> p = (a, snd p).
Proof. intros <-. apply surjective_pairing. Qed.

Lemma pair_with_state {A B} (p : A * B) (a : A) (b : B) :
  fst p = a -> snd p = b -> p = (a, b).
Proof. intros <- <-. apply surjective_pairing. Qed.

(** C1 at the sample batch: 36 times the letter a, one item. The digest is
    the SHA3-256 of those 36 bytes. *)
Lemma create_batch_returns_digest_witness :
  fst (create_batch Reference.gzip_compress sample_env sample_batch (start ∅))
  = Returns (ok_response sample_digest).
Proof.
  destruct (create_batch_returns_digest Reference.gzip_compress
              sample_env sample_batch (start ∅))
    as (id_bytes & st' & Henc & Hrun & _).
  - vm_compute. split; discriminate.
  - reflexivity.
  - repeat constructor.
  - reflexivity.
  - assert (Hbytes : encode_utf8 (user_id sample_batch) = Some (repeat 97 36))
      by (vm_compute; reflexivity).
    rewrite Hbytes in Henc. injection Henc as <-.
    rewrite Hrun. vm_compute. reflexivity.
Defined.

(** C1 as stated fails at two inputs of the stated shape: when the store
    refuses the write the submission raises the store's exception, and when
    the identifier holds a surrogate its encoding raises. *)
Lemma create_batch_can_fail :
  (1 <= len (items sample_batch) <= 100
   /\ len (user_id sample_batch) = 36
   /\ create_batch Reference.gzip_compress sample_env_store_down sample_batch (start ∅)
      = (Raises StorageError, start ∅))
  /\ (1 <= len (items surrogate_batch) <= 100
      /\ len (user_id surrogate_batch) = 36
      /\ create_batch Reference.gzip_compress sample_env surrogate_batch (start ∅)
         = (Raises UnicodeEncodeError, start ∅)).
Proof.
  split; (split; [vm_compute; split; discriminate|]);
    (split; [reflexivity|]); vm_compute; reflexivity.
Qed.

(** C2 at a batch of 101 items and at a batch with a three-character
    identifier. *)
Lemma create_batch_rejects_witness :
  (response_status
     (fst (create_batch Reference.gzip_compress sample_env long_batch (start ∅))) = 400
   /\ snd (create_batch Reference.gzip_compress sample_env long_batch (start ∅))
      = start ∅)
  /\ (response_status
        (fst (create_batch Reference.gzip_compress sample_env short_id_batch (start ∅)))
      = 400
      /\ snd (create_batch Reference.gzip_compress sample_env short_id_batch (start ∅))
         = start ∅).
Proof.
  split.
  - destruct (create_batch_rejects Reference.gzip_compress sample_env long_batch (start ∅))
      as (detail & Hrun & Hstatus).
    + left. vm_compute. reflexivity.
    + rewrite Hrun. split; reflexivity.
  - destruct (create_batch_rejects Reference.gzip_compress sample_env short_id_batch
                (start ∅)) as (detail & Hrun & Hstatus).
    + right. vm_compute. discriminate.
    + rewrite Hrun. split; reflexivity.
Defined.

(** C3 at the sample request: the last second of 2024-02-29. *)
Lemma batch_filename_form_witness :
  batch_filename sample_env sample_digest
  = lit "1/v1/2024-02-29/1/" ++ sample_digest ++ lit "/86399__00010203.json.gz".
Proof.
  destruct (batch_filename_form Reference.gzip_compress sample_env sample_digest)
    as (Hkey & _).
  - vm_compute. reflexivity.
  - rewrite Hkey. vm_compute. reflexivity.
Defined.

(** C4 as stated fails half a second into 2024-01-01: the elapsed time is
    1704067200.5 seconds, the field holds 1704067200, and the JSON text of
    the field is that integer. *)
Lemma timestamp_is_not_the_float :
  let t := total_seconds (sub (now sample_env_half_second) epoch) in
  let b := batch_hashed sample_env_half_second sample_digest sample_batch in
  (Float.value t == 3408134401 # 2)%Q
  /\ hb_timestamp b = 1704067200
  /\ ~ (inject_Z (hb_timestamp b) == Float.value t)%Q
  /\ Json.get (lit "timestamp") (HashedBatch_dict b) = Some (JInt 1704067200)
  /\ dumps (JInt (hb_timestamp b)) = lit "1704067200".
Proof.
  cbv zeta. split; [vm_compute; reflexivity|].
  split; [vm_compute; reflexivity|].
  split; [vm_compute; discriminate|].
  split; vm_compute; reflexivity.
Qed.

(** C4, as amended, at the same instant. *)
Lemma hashed_batch_timestamp_whole_seconds_witness :
  hb_timestamp (batch_hashed sample_env_half_second sample_digest sample_batch)
  = 1704067200.
Proof.
  destruct (hashed_batch_timestamp_whole_seconds
              sample_env_half_second sample_digest sample_batch) as (_ & Hts & _).
  - vm_compute. split; [discriminate | reflexivity].
  - rewrite Hts. vm_compute. reflexivity.
Defined.

(** C6 as stated fails at three buckets. With the identifiers [a] and
    [a-b] the listing returns [a-b] before [a], which is not the
    lexicographic order of the identifiers; for the key
    [.../sub/x.json.gz] it returns [x], not the key without the prefix and
    the suffix; and with an object named [notes.txt] it returns nothing. *)
Lemma listing_not_sorted_by_identifier :
  fst (get_batches_for_date_and_user sample_date sample_public_id bucket_prefix_ids)
  = Returns (batch_ids_response [lit "a-b"; lit "a"])
  /\ ~ StronglySorted str_le [lit "a-b"; lit "a"]
  /\ fst (get_batches_for_date_and_user sample_date sample_public_id bucket_nested)
     = Returns (batch_ids_response [lit "x"])
  /\ fst (get_batches_for_date_and_user sample_date sample_public_id bucket_foreign)
     = Raises AssertionError.
Proof.
  split; [vm_compute; reflexivity|].
  split.
  { intros H. apply StronglySorted_inv in H as [_ H].
    apply Forall_inv in H. vm_compute in H. discriminate. }
  split; vm_compute; reflexivity.
Qed.

(** Two submissions of one user within one second are listed in the order
    of their random parts: here the second submission comes first. *)
Example same_second_listed_by_random_part :
  fst (get_batches_for_date_and_user sample_date sample_digest
         (snd (run (lit "crawl") Reference.gzip_compress Reference.gzip_decompress
                 Reference.json_loads (fun _ => []) same_second_requests (start ∅))))
  = Returns (batch_ids_response [batch_id_of sample_env_noon_second;
                                 batch_id_of sample_env_noon_first])
  /\ batch_id_of sample_env_noon_second = lit "43200__00000000"
  /\ batch_id_of sample_env_noon_first = lit "43200__ffffffff"
  /\ microsecond (now sample_env_noon_first)
     < microsecond (now sample_env_noon_second).
Proof. repeat apply conj; vm_compute; reflexivity. Qed.

(** C6, as amended, at a bucket with two batches of the user and one of
    another user: the identifiers are those of a submission at second 1
    and of one at second 2. *)
Lemma listing_returns_sorted_names_witness :
  fst (get_batches_for_date_and_user sample_date sample_public_id bucket_regular)
  = Returns (batch_ids_response [lit "00001__cccccccc"; lit "00002__bbbbbbbb"])
  /\ exists es,
       Forall (fun e => valid_env e = true) es
       /\ [lit "00001__cccccccc"; lit "00002__bbbbbbbb"] = List.map batch_id_of es
       /\ StronglySorted
            (fun e1 e2 => seconds_since_midnight (now e1)
                          <= seconds_since_midnight (now e2)) es.
Proof.
  assert (Hl : listed (batches_prefix sample_date sample_public_id) bucket_regular
               = [ batch_filename (env_at 1 204) sample_public_id;
                   batch_filename (env_at 2 187) sample_public_id ])
    by (vm_compute; reflexivity).
  assert (Hn : List.map strip_suffix
                 (sorted (List.map basename
                            (listed (batches_prefix sample_date sample_public_id)
                               bucket_regular)))
               = [lit "00001__cccccccc"; lit "00002__bbbbbbbb"])
    by (vm_compute; reflexivity).
  destruct (listing_returns_sorted_names sample_date sample_public_id bucket_regular)
    as (Hrun & _ & _ & _ & _ & _ & Htime).
  - vm_compute. reflexivity.
  - vm_compute. reflexivity.
  - assert (Hs : forallb (fun k => endswith (basename k) FILE_NAME_SUFFIX)
                   (listed (batches_prefix sample_date sample_public_id) bucket_regular)
                 = true) by (vm_compute; reflexivity).
    intros k Hk. rewrite forallb_forall in Hs. apply Hs, Hk.
  - split.
    + rewrite Hrun, Hn. reflexivity.
    + destruct Htime as (es & Hes & Hids & Hsorted).
      * rewrite Hl. intros k [<- | [<- | []]].
        -- exists (env_at 1 204), sample_public_id. split; reflexivity.
        -- exists (env_at 2 187), sample_public_id. split; reflexivity.
      * exists es. rewrite <- Hn. auto.
Defined.

(** C7 at the sample batch when the store refuses the write. *)
Lemma create_batch_store_before_cache_witness :
  fst (create_batch Reference.gzip_compress sample_env_store_down sample_batch (start ∅))
  = Raises StorageError
  /\ last_batch
       (snd (create_batch Reference.gzip_compress sample_env_store_down sample_batch
               (start ∅)))
     = None.
Proof.
  destruct (create_batch_store_before_cache Reference.gzip_compress
              sample_env_store_down sample_batch (start ∅)) as [Hdown _].
  destruct Hdown as (st' & Hrun & _ & Hslot).
  - reflexivity.
  - vm_compute. discriminate.
  - reflexivity.
  - repeat constructor.
  - rewrite Hrun. split; [reflexivity | exact Hslot].
Defined.

(** C8 at a sequence of requests: a submission, two reads, a refused
    submission, and a second submission. The slot ends with the batch of the
    second submission. *)
Lemma last_batch_is_latest_submission_witness :
  let rs := [ PostBatch sample_env sample_batch; GetLatestBatch; GetStatus;
              PostBatch sample_env_store_down sample_batch ] in
  fst (get_latest_batch
         (snd (run (lit "crawl") Reference.gzip_compress Reference.gzip_decompress
                 Reference.json_loads (fun _ => [])
                 (rs ++ [PostBatch sample_env_half_second sample_batch]) (start ∅))))
  = Returns [ mk_HashedBatch sample_digest 1704067200 [sample_item] ].
Proof.
  intros rs.
  destruct (last_batch_is_latest_submission (lit "crawl") Reference.gzip_compress
              Reference.gzip_decompress Reference.json_loads (fun _ => []))
    as (_ & _ & _ & _ & Hlast).
  destruct (Hlast rs sample_env_half_second sample_batch (start ∅)
              (ok_response sample_digest)
              (snd (handle (lit "crawl") Reference.gzip_compress
                      Reference.gzip_decompress Reference.json_loads (fun _ => [])
                      (PostBatch sample_env_half_second sample_batch)
                      (snd (run (lit "crawl") Reference.gzip_compress
                              Reference.gzip_decompress Reference.json_loads
                              (fun _ => []) rs (start ∅))))))
    as (h & Hh & Hrun & Hget & _).
  - apply pair_with_snd. vm_compute. reflexivity.
  - rewrite Hrun, Hget. injection Hh as <-. vm_compute. reflexivity.
Defined.

(** A valid batch whose item holds the surrogates U+D83D and U+DE00 one
    after the other is stored, and what is fetched holds the one character
    U+1F600 in their place: the items fetched are not the items submitted.
    [gzip.decompress] has undone [gzip.compress]; it is [json.loads] that
    joins the two escapes. *)
Lemma fetch_joins_surrogate_pair :
  let st' := snd (create_batch Reference.gzip_compress sample_env pair_batch (start ∅)) in
  len (user_id pair_batch) = 36 /\ len (items pair_batch) = 1
  /\ fst (create_batch Reference.gzip_compress sample_env pair_batch (start ∅))
     = Returns (ok_response sample_digest)
  /\ Reference.gzip_decompress
       (Reference.gzip_compress (gzip_mtime sample_env)
          (stored_text sample_env sample_digest pair_batch))
     = Some (stored_text sample_env sample_digest pair_batch)
  /\ fst (get_batches_for_date_and_user (lit "2024-02-29") sample_digest st')
     = Returns (batch_ids_response [lit "86399__00010203"])
  /\ exists data,
       fst (get_batch_from_id (lit "crawl") Reference.gzip_decompress
              Reference.json_loads (fun _ => []) (lit "2024-02-29") sample_digest
              (lit "86399__00010203") st')
       = Returns data
       /\ Json.get (lit "items") data = Some (JList [Item_dict joined_item])
       /\ Json.get (lit "items") data
          <> Some (JList (List.map Item_dict (items pair_batch))).
Proof.
  intros st'.
  repeat apply conj; try (vm_compute; reflexivity).
  eexists. split; [vm_compute; reflexivity|].
  split; [vm_compute; reflexivity|].
  vm_compute. discriminate.
Qed.

(** C9, as amended, at a batch whose item holds a negative timestamp,
    characters outside ASCII, a lone surrogate and an empty link, with the
    reference gzip. *)
Lemma submit_then_fetch_witness :
  let st' := snd (create_batch Reference.gzip_compress sample_env unicode_batch (start ∅)) in
  exists data,
    fst (get_batch_from_id (lit "crawl") Reference.gzip_decompress Reference.json_loads
           (fun _ => []) (lit "2024-02-29") sample_digest (lit "86399__00010203") st')
    = Returns data
    /\ Json.get (lit "items") data = Some (JList [Item_dict unicode_item]).
Proof.
  intros st'.
  destruct (submit_then_fetch (lit "crawl") Reference.gzip_compress
              Reference.gzip_decompress (fun _ => [])
              sample_env unicode_batch (start ∅) (ok_response sample_digest) st')
    as (h & name & batch_id & data & Hh & Hname & Hid & Hget & _ & Hitems & _).
  - vm_compute. reflexivity.
  - vm_compute. reflexivity.
  - apply pair_with_snd. vm_compute. reflexivity.
  - intros h Hh. apply reference_gzip_round_trip, stored_text_bytes.
  - injection Hh as <-.
    assert (Hname' : key_file_name (batch_filename sample_env sample_digest)
                     = Returns (lit "86399__00010203.json.gz"))
      by (vm_compute; reflexivity).
    rewrite Hname' in Hname. injection Hname as <-.
    assert (Hid' : get_batch_id_from_file_name (lit "86399__00010203.json.gz")
                   = Returns (lit "86399__00010203"))
      by (vm_compute; reflexivity).
    rewrite Hid' in Hid. injection Hid as <-.
    assert (Hdate : date_str (now sample_env) = lit "2024-02-29")
      by (vm_compute; reflexivity).
    rewrite Hdate in Hget.
    exists data. split; [|exact Hitems].
    rewrite Hget. reflexivity.
Defined.

(** C10 at a bucket that holds an object named [notes.txt]. *)
Lemma listing_asserts_suffix_witness :
  get_batches_for_date_and_user sample_date sample_public_id bucket_foreign
  = (Raises AssertionError, bucket_foreign)
  /\ exists ids,
       get_batches_for_date_and_user sample_date sample_public_id bucket_regular
       = (Returns (batch_ids_response ids), bucket_regular).
Proof.
  pose proof listing_asserts_suffix as (_ & _ & Hlist & _).
  assert (Hd : check_date_str sample_date = Returns tt) by (vm_compute; reflexivity).
  assert (Hu : check_public_user_id sample_public_id = Returns tt)
    by (vm_compute; reflexivity).
  split.
  - destruct (Hlist sample_date sample_public_id bucket_foreign Hd Hu) as [_ Hbad].
    apply Hbad.
    assert (Hl : existsb (fun k => negb (endswith (basename k) FILE_NAME_SUFFIX))
                   (listed (batches_prefix sample_date sample_public_id) bucket_foreign)
                 = true) by (vm_compute; reflexivity).
    apply existsb_exists in Hl as (k & Hk & Hbadk). exists k.
    split; [exact Hk | apply negb_true_iff, Hbadk].
  - destruct (Hlist sample_date sample_public_id bucket_regular Hd Hu) as [Hgood _].
    apply Hgood.
    assert (Hl : forallb (fun k => endswith (basename k) FILE_NAME_SUFFIX)
                   (listed (batches_prefix sample_date sample_public_id) bucket_regular)
                 = true) by (vm_compute; reflexivity).
    intros k Hk. rewrite forallb_forall in Hl. apply Hl, Hk.
Defined.

(** * The further properties at the sample inputs *)

(** X1 at the sample batch without its item: an empty batch is stored. *)
Lemma create_batch_outcomes_witness :
  exists r st',
    create_batch Reference.gzip_compress sample_env
      (mk_Batch (user_id sample_batch) []) (start ∅) = (Returns r, st').
Proof.
  apply (create_batch_outcomes Reference.gzip_compress sample_env
           (mk_Batch (user_id sample_batch) []) (start ∅)).
  split; [vm_compute; discriminate|].
  split; [reflexivity|].
  split; [repeat constructor | reflexivity].
Defined.

(** X2 at a public identifier of three characters. *)
Lemma public_user_id_length_checked_witness :
  get_batches_for_date_and_user sample_date (lit "abc") bucket_regular
  = (Raises public_id_length_error, bucket_regular)
  /\ get_batch_from_id (lit "crawl") Reference.gzip_decompress Reference.json_loads
       (fun _ => []) sample_date (lit "abc") (lit "00001__cccccccc") bucket_regular
     = (Raises public_id_length_error, bucket_regular).
Proof.
  destruct (public_user_id_length_checked (lit "crawl") Reference.gzip_decompress
              Reference.json_loads (fun _ => []) sample_date (lit "abc")
              (lit "00001__cccccccc") bucket_regular) as (Hok & _).
  - vm_compute. discriminate.
  - apply Hok. vm_compute. reflexivity.
Defined.

(** X6 at the date [2024-1-1]. *)
Lemma rejected_date_everywhere_witness :
  get_user_id_hashes_for_date (lit "2024-1-1") bucket_regular
  = (Raises date_format_error, bucket_regular).
Proof.
  destruct (rejected_date_everywhere (lit "crawl") Reference.gzip_decompress
              Reference.json_loads (fun _ => []) (lit "2024-1-1") sample_public_id
              (lit "00001__cccccccc") bucket_regular) as (_ & Husers & _).
  - vm_compute. discriminate.
  - exact Husers.
Defined.

(** X7 at the sample request: 19782 days and 86399 seconds. *)
Lemma timestamp_agrees_with_key_witness :
  hb_timestamp (batch_hashed sample_env sample_digest sample_batch)
  = 19782 * 86400 + 86399.
Proof.
  destruct (timestamp_agrees_with_key sample_env sample_digest sample_batch)
    as (Ht & _).
  - vm_compute. reflexivity.
  - vm_compute. split; discriminate.
  - rewrite Ht. vm_compute. reflexivity.
Defined.

(** X8 at the sample request: the bytes 0, 1, 2, 3. *)
Lemma random_suffix_is_first_four_bytes_witness :
  slice_to (Uuid.to_str (Uuid.uuid4 (urandom16 sample_env))) 8 = lit "00010203".
Proof.
  destruct (random_suffix_is_first_four_bytes sample_env) as (Hr & _).
  - vm_compute. reflexivity.
  - rewrite Hr. vm_compute. reflexivity.
Defined.

(** X9 at two requests of one second that share their first four random
    bytes, and at two requests of different days. *)
Lemma batch_filename_collision_witness :
  batch_filename sample_env sample_digest
  = batch_filename sample_env_same_key sample_digest
  /\ batch_filename sample_env sample_digest
     <> batch_filename sample_env_half_second sample_digest.
Proof.
  split.
  - apply (batch_filename_collision sample_env sample_env_same_key
             sample_digest sample_digest);
      [vm_compute; reflexivity | vm_compute; reflexivity | reflexivity |].
    repeat split; vm_compute; reflexivity.
  - intros Heq.
    apply (batch_filename_collision sample_env sample_env_half_second
             sample_digest sample_digest) in Heq;
      [| vm_compute; reflexivity | vm_compute; reflexivity | reflexivity].
    destruct Heq as (_ & (_ & Hm & _) & _). vm_compute in Hm. discriminate.
Defined.

(** X10 on an empty bucket. *)
Lemma users_listing_never_empty_witness :
  get_user_id_hashes_for_date sample_date (start ∅) = (Raises KeyError, start ∅).
Proof.
  destruct (users_listing_never_empty sample_date (start ∅)) as (Hnone & _).
  - vm_compute. reflexivity.
  - apply Hnone. intros k Hk. vm_compute in Hk. destruct Hk.
Defined.

(** X11 at the sample submission. *)
Lemma submit_then_list_users_witness :
  let st' := snd (create_batch Reference.gzip_compress sample_env sample_batch (start ∅)) in
  exists us,
    get_user_id_hashes_for_date (lit "2024-02-29") st'
    = (Returns (JList (List.map JStr us)), st')
    /\ In sample_digest us.
Proof.
  intros st'.
  destruct (submit_then_list_users Reference.gzip_compress sample_env sample_batch
              (start ∅) (ok_response sample_digest) st')
    as (h & us & Hh & Hlist & Hin).
  - vm_compute. reflexivity.
  - apply pair_with_snd. vm_compute. reflexivity.
  - apply Nat.leb_le. vm_compute. reflexivity.
  - assert (Hd : h = sample_digest) by (injection Hh as <-; reflexivity).
    rewrite Hd in Hin. exists us. split; [exact Hlist | exact Hin].
Defined.

(** X12 after two submissions and a refused one. *)
Lemma listing_after_submissions_witness :
  let rs := [ PostBatch sample_env sample_batch;
              PostBatch sample_env_store_down sample_batch;
              PostBatch sample_env_half_second sample_batch; GetStatus ] in
  exists ids,
    fst (get_batches_for_date_and_user (lit "2024-02-29") sample_digest
           (snd (run (lit "crawl") Reference.gzip_compress Reference.gzip_decompress
                   Reference.json_loads (fun _ => []) rs (start ∅))))
    = Returns (batch_ids_response ids)
    /\ StronglySorted str_le ids.
Proof.
  intros rs.
  destruct (listing_after_submissions (lit "crawl") Reference.gzip_compress
              Reference.gzip_decompress Reference.json_loads (fun _ => [])
              rs (lit "2024-02-29") sample_digest) as (ids & Hrun & Hsorted).
  - repeat constructor.
  - vm_compute. reflexivity.
  - vm_compute. reflexivity.
  - exists ids. split; [rewrite Hrun; reflexivity | exact Hsorted].
Defined.

(** X13 after the two sample submissions: the one batch listed for the
    leap day is fetched. *)
Lemma listed_batch_is_fetched_witness :
  let st := snd (run (lit "crawl") Reference.gzip_compress Reference.gzip_decompress
                   Reference.json_loads (fun _ => []) sample_requests (start ∅)) in
  exists e batch id_bytes,
    In (PostBatch e batch) sample_requests
    /\ encode_utf8 (user_id batch) = Some id_bytes
    /\ lit "2024-02-29" = date_str (now e)
    /\ sample_digest = Sha3.hexdigest id_bytes
    /\ lit "86399__00010203" = batch_id_of e
    /\ get_batch_from_id (lit "crawl") Reference.gzip_decompress Reference.json_loads
         (fun _ => []) (lit "2024-02-29") sample_digest (lit "86399__00010203") st
       = (decoded Reference.gzip_decompress Reference.json_loads
            (Reference.gzip_compress (gzip_mtime e)
               (stored_text e sample_digest batch)), st).
Proof.
  apply (listed_batch_is_fetched (lit "crawl") Reference.gzip_compress
           Reference.gzip_decompress Reference.json_loads (fun _ => [])
           sample_requests (lit "2024-02-29") sample_digest
           [lit "86399__00010203"] (lit "86399__00010203")).
  - repeat constructor.
  - apply pair_with_state.
    + vm_compute. reflexivity.
    + apply reads_only_get_batches_for_date_and_user.
  - left. reflexivity.
Defined.

(** X14 after the two sample submissions: the one user listed for the
    leap day has a batch. *)
Lemma listed_user_has_batches_witness :
  let st := snd (run (lit "crawl") Reference.gzip_compress Reference.gzip_decompress
                   Reference.json_loads (fun _ => []) sample_requests (start ∅)) in
  exists e batch id_bytes ids,
    In (PostBatch e batch) sample_requests
    /\ encode_utf8 (user_id batch) = Some id_bytes
    /\ lit "2024-02-29" = date_str (now e)
    /\ sample_digest = Sha3.hexdigest id_bytes
    /\ get_batches_for_date_and_user (lit "2024-02-29") sample_digest st
       = (Returns (batch_ids_response ids), st)
    /\ In (batch_id_of e) ids.
Proof.
  apply (listed_user_has_batches (lit "crawl") Reference.gzip_compress
           Reference.gzip_decompress Reference.json_loads (fun _ => [])
           sample_requests (lit "2024-02-29") [sample_digest] sample_digest).
  - repeat constructor.
  - apply pair_with_state.
    + vm_compute. reflexivity.
    + apply reads_only_get_user_id_hashes_for_date.
  - left. reflexivity.
Defined.
